(** * govr: discovery-and-probe pipeline for ONVIF cameras

    A shallow embedding of the Go packages [network], [onvif] and [scan] of
    incrementventures/govr, and the properties of the pipeline proved on it.

    Conventions of the embedding:
    - Go strings are [string]s (sequences of bytes);
    - a Go [error] is a value of type [error]; a function returning
      [(T, error)] where the two are exclusive returns a [result T], a function
      whose pair is inspected component-wise by its callers returns the pair;
    - the operating system, the network and the clock are a [World] record read
      by the code; the effects the code performs are appended to a trace;
    - a Go map that is only ever iterated is given as the list of its entries in
      the order the [range] statement visits them; every theorem quantifies
      over that list, hence over every iteration order. *)

From Stdlib Require Import ZArith List Ascii String Bool Lia DecimalString.
From stdpp Require Import base gmap strings list.

Local Open Scope Z_scope.

(** ** Go values shared by the packages *)

(** [error]: either a leaf error carrying its text, or [fmt.Errorf] with a
    trailing [%w] verb: the formatted prefix and the wrapped error. *)
Inductive error : Type :=
| errorString (s : string)
| wrapError (pfx : string) (e : error).

(** [err.Error()] *)
Fixpoint Error (e : error) : string :=
  match e with
  | errorString s => s
  | wrapError pfx e' => pfx +:+ Error e'
  end.

Inductive result (A : Type) : Type :=
| Ok (a : A)
| Err (e : error).
Arguments Ok {A} a.
Arguments Err {A} e.

(** The double quote character, and a helper to write Go literals that contain
    it: [unq] turns every apostrophe of its argument into a double quote.  None
    of the Go literals embedded below contains an apostrophe. *)
Definition dquote : ascii := ascii_of_nat 34.
Definition squote : ascii := ascii_of_nat 39.

Fixpoint unq (s : string) : string :=
  match s with
  | EmptyString => EmptyString
  | String c s' => String (if Ascii.eqb c squote then dquote else c) (unq s')
  end.

(** [strconv.Itoa] / the [%d] verb *)
Definition Itoa (z : Z) : string := NilZero.string_of_int (Z.to_int z).

(** [strconv.Quote] / the [%q] verb, for strings without characters that need
    escaping. *)
Definition Quote (s : string) : string :=
  String dquote (s +:+ String dquote EmptyString).

(** ** Package strings (Go standard library), on byte strings *)
Module GoStrings.

Fixpoint HasPrefix (s pfx : string) : bool :=
  match pfx, s with
  | EmptyString, _ => true
  | String _ _, EmptyString => false
  | String a pfx', String b s' => Ascii.eqb a b && HasPrefix s' pfx'
  end.

(** [strings.Contains(s, substr)] *)
Fixpoint Contains (s substr : string) : bool :=
  HasPrefix s substr
  || match s with
     | EmptyString => false
     | String _ s' => Contains s' substr
     end.

Fixpoint drop (n : nat) (s : string) : string :=
  match n, s with
  | O, _ => s
  | S _, EmptyString => EmptyString
  | S n', String _ s' => drop n' s'
  end.

(** [strings.Cut(s, sep)]: the text before and after the first [sep]. *)
Fixpoint Cut (s sep : string) : string * string * bool :=
  if HasPrefix s sep then (EmptyString, drop (String.length sep) s, true)
  else match s with
       | EmptyString => (EmptyString, EmptyString, false)
       | String c s' =>
           let '(before, after, found) := Cut s' sep in
           (String c before, after, found)
       end.

(** One left-to-right pass; [skip] counts the bytes of a separator
    occurrence still to be passed over, so occurrences do not overlap. *)
Fixpoint splitFrom (sep : string) (skip : nat) (s : string)
  : string * list string :=
  match s with
  | EmptyString => (EmptyString, [])
  | String c s' =>
      match skip with
      | S k => splitFrom sep k s'
      | O =>
          if HasPrefix s sep then
            let '(f, r) := splitFrom sep (String.length sep - 1) s' in
            (EmptyString, f :: r)
          else
            let '(f, r) := splitFrom sep 0 s' in
            (String c f, r)
      end
  end.

Fixpoint explode (s : string) : list string :=
  match s with
  | EmptyString => []
  | String c s' => String c EmptyString :: explode s'
  end.

(** [strings.Split(s, sep)] *)
Definition Split (s sep : string) : list string :=
  match sep with
  | EmptyString => explode s
  | _ => let '(f, r) := splitFrom sep 0 s in f :: r
  end.

Fixpoint replaceFrom (old new : string) (skip : nat) (s : string) : string :=
  match s with
  | EmptyString => EmptyString
  | String c s' =>
      match skip with
      | S k => replaceFrom old new k s'
      | O =>
          if HasPrefix s old then
            new +:+ replaceFrom old new (String.length old - 1) s'
          else String c (replaceFrom old new 0 s')
      end
  end.

Fixpoint intersperse (new s : string) : string :=
  match s with
  | EmptyString => new
  | String c s' => new +:+ String c (intersperse new s')
  end.

(** [strings.ReplaceAll(s, old, new)] *)
Definition ReplaceAll (s old new : string) : string :=
  match old with
  | EmptyString => intersperse new s
  | _ => replaceFrom old new 0 s
  end.

(** [strings.LastIndexByte(s, c)] as an option: the text before and after
    the last [c]. *)
Fixpoint cutLast (s : string) (c : ascii) : option (string * string) :=
  match s with
  | EmptyString => None
  | String b s' =>
      match cutLast s' c with
      | Some (before, after) => Some (String b before, after)
      | None => if Ascii.eqb b c then Some (EmptyString, s') else None
      end
  end.

End GoStrings.

(** ** Package net/netip (Go standard library), IPv4 part

    An IPv4 [netip.Addr] is its 32-bit value; the zero [Addr] (which
    [Addr.Next] returns past 255.255.255.255) is [AddrZero].  IPv6 addresses
    are not modelled: [ParsePrefix] answers [Unmodelled] on a text with a
    colon, and follows the library on every other text. *)
Module netip.

Inductive Addr : Type :=
| AddrZero
| Addr4 (a : Z).

(** A valid IPv4 [netip.Prefix]. *)
Record Prefix : Type := PrefixFrom { PAddr : Z; Bits : Z }.

Definition isDigit (c : ascii) : bool :=
  (48 <=? Z.of_nat (nat_of_ascii c)) && (Z.of_nat (nat_of_ascii c) <=? 57).
Definition digitVal (c : ascii) : Z := Z.of_nat (nat_of_ascii c) - 48.

(** [parseIPv4]: [first] is [i == 0], [prevDot] is [s[i-1] == '.'],
    [fields] are the octets completed so far ([pos] is their number). *)
Fixpoint parseIPv4 (s : string) (first prevDot : bool) (val : Z)
         (digLen : nat) (fields : list Z) : option (list Z) :=
  match s with
  | EmptyString =>
      if (length fields <? 3)%nat then None else Some (fields ++ [val])
  | String c s' =>
      if isDigit c then
        if (digLen =? 1)%nat && (val =? 0) then None
        else
          let val' := val * 10 + digitVal c in
          if val' >? 255 then None
          else parseIPv4 s' false false val' (S digLen) fields
      else if Ascii.eqb c "."%char then
        if first || (match s' with EmptyString => true | _ => false end)
           || prevDot
        then None
        else if (length fields =? 3)%nat then None
        else parseIPv4 s' false true 0 0%nat (fields ++ [val])
      else None
  end.

Definition AddrFrom4 (f : list Z) : Z :=
  fold_left (fun acc b => acc * 256 + b) f 0.

(** [netip.ParseAddr] on dotted-quad text. *)
Definition ParseAddr (s : string) : option Z :=
  if GoStrings.Contains s "." then
    AddrFrom4 <$> parseIPv4 s true false 0 0%nat []
  else None.

Fixpoint atoiDigits (s : string) (acc : Z) : option Z :=
  match s with
  | EmptyString => Some acc
  | String c s' =>
      if isDigit c then atoiDigits s' (acc * 10 + digitVal c) else None
  end.

(** The prefix length of [ParsePrefix]: decimal digits, no sign, no leading
    zero unless the text is a single digit. *)
Definition parseBits (bitsStr : string) : option Z :=
  match bitsStr with
  | EmptyString => None
  | String c EmptyString => atoiDigits bitsStr 0
  | String c _ =>
      if isDigit c && negb (Ascii.eqb c "0"%char)
      then atoiDigits bitsStr 0 else None
  end.

(** [netip.ParsePrefix] on a text without a colon: [None] is the error. *)
Definition parsePrefix (s : string) : option Prefix :=
  match GoStrings.cutLast s "/"%char with
  | None => None
  | Some (ipStr, bitsStr) =>
      match ParseAddr ipStr, parseBits bitsStr with
      | Some ip, Some bits =>
          if (bits <? 0) || (bits >? 32) then None
          else Some (PrefixFrom ip bits)
      | _, _ => None
      end
  end.

Inductive ParseResult : Type :=
| Parsed (p : Prefix)
| ParseError
| Unmodelled.

(** [netip.ParsePrefix] *)
Definition ParsePrefix (s : string) : ParseResult :=
  if GoStrings.Contains s ":" then Unmodelled
  else match parsePrefix s with
       | Some p => Parsed p
       | None => ParseError
       end.

(** [Prefix.Masked]: the address bits after the first [Bits] are zeroed. *)
Definition Masked (p : Prefix) : Prefix :=
  PrefixFrom (Z.land (PAddr p) (2 ^ 32 - 2 ^ (32 - Bits p))) (Bits p).

(** [Prefix.Addr] *)
Definition Addr_of (p : Prefix) : Addr := Addr4 (PAddr p).

(** [Prefix.Contains]: xor the two addresses, shift away the host bits,
    truncate to 32 bits and compare with zero; the zero [Addr] is in no
    prefix. *)
Definition Contains (p : Prefix) (ip : Addr) : bool :=
  match ip with
  | AddrZero => false
  | Addr4 a =>
      (Z.shiftr (Z.lxor a (PAddr p)) (Z.land (32 - Bits p) 63)) mod 2 ^ 32
      =? 0
  end.

(** [Addr.Next]: the zero [Addr] past the last address. *)
Definition Next (ip : Addr) : Addr :=
  match ip with
  | AddrZero => AddrZero
  | Addr4 a => if (a + 1) mod 2 ^ 32 =? 0 then AddrZero else Addr4 (a + 1)
  end.

Definition octet (a : Z) (i : Z) : Z := Z.land (Z.shiftr a (8 * i)) 255.

(** [Addr.String] *)
Definition String_ (ip : Addr) : string :=
  match ip with
  | AddrZero => "invalid IP"
  | Addr4 a =>
      Itoa (octet a 3) +:+ "." +:+ Itoa (octet a 2) +:+ "."
      +:+ Itoa (octet a 1) +:+ "." +:+ Itoa (octet a 0)
  end.

End netip.

(** ** Package network (src/unnamed/part_000) *)
Module network.

(** [type IFace string] and [type CIDR string] *)
Definition IFace : Type := string.
Definition CIDR : Type := string.

(** The [for] loop of [GetIPsOnNetwork].  The Go loop has no bound of its
    own; [fuel] bounds the number of iterations of the model and [None]
    means the bound was reached before the loop left the prefix. *)
Fixpoint collectIPs (fuel : nat) (p : netip.Prefix) (addr : netip.Addr)
         (ips : list string) : option (list string) :=
  match fuel with
  | O => None
  | S fuel' =>
      if negb (netip.Contains p addr) then Some ips
      else collectIPs fuel' p (netip.Next addr) (ips ++ [netip.String_ addr])
  end.

(** [GetIPsOnNetwork]: all the IP addresses on the network.  [None] is no
    answer: the iteration bound was reached, or the text names an IPv6
    prefix. *)
Definition GetIPsOnNetwork (fuel : nat) (cidr : CIDR)
  : option (result (list string)) :=
  match netip.ParsePrefix cidr with
  | netip.Unmodelled => None
  | netip.ParseError =>
      Some (Err (wrapError ("invalid cidr: " +:+ Quote cidr +:+ ": ")
                           (errorString "netip.ParsePrefix")))
  | netip.Parsed p =>
      let p := netip.Masked p in
      Ok <$> collectIPs fuel p (netip.Addr_of p) []
  end.

(** What [net.DialTimeout] gave: a connection, or an error. *)
Inductive DialResult : Type :=
| Connected
| DialError (err : error).

(** [IsPortOpen], given the outcome of its [net.DialTimeout] call. *)
Definition IsPortOpen (address : string) (dial : DialResult)
  : bool * option error :=
  match dial with
  | DialError err =>
      if GoStrings.Contains (Error err) "too many open files" then
        (false,
         Some (wrapError ("error opening " +:+ Quote address +:+ ": ") err))
      else (false, None)
  | Connected => (true, None)
  end.

End network.

(** ** Package net/url (Go standard library)

    [Parse], [URL.Port] and [URL.String] follow the library on every input
    without a percent sign; percent-decoding is not modelled and [Parse]
    answers [Unmodelled] on such an input. *)
Module url.

Inductive encoding : Type :=
| encodePath | encodeUserPassword | encodeHost | encodeFragment.

Definition code (c : ascii) : Z := Z.of_nat (nat_of_ascii c).
Definition between (lo hi : string) (c : ascii) : bool :=
  match lo, hi with
  | String l _, String h _ => (code l <=? code c) && (code c <=? code h)
  | _, _ => false
  end.
Definition isAlpha (c : ascii) : bool := between "a" "z" c || between "A" "Z" c.
Definition isNum (c : ascii) : bool := between "0" "9" c.

(** [c] is one of the bytes of [set]. *)
Fixpoint oneOf (set : string) (c : ascii) : bool :=
  match set with
  | EmptyString => false
  | String b set' => Ascii.eqb b c || oneOf set' c
  end.

(** The bytes the host encoding leaves alone: the sub-delimiters, the colon,
    the brackets, the angle brackets and the double quote. *)
Definition hostSafe : string :=
  "!$&'()*+,;=:[]<>" +:+ String dquote EmptyString.

Definition shouldEscape (c : ascii) (mode : encoding) : bool :=
  if isAlpha c || isNum c then false
  else if (match mode with encodeHost => true | _ => false end)
          && oneOf hostSafe c then false
  else if oneOf "-_.~" c then false
  else if oneOf "$&+,/:;=?@" c then
    match mode with
    | encodePath => Ascii.eqb c "?"
    | encodeUserPassword => oneOf "@/?:" c
    | encodeFragment => false
    | encodeHost => true
    end
  else if (match mode with encodeFragment => true | _ => false end)
          && oneOf "!()*" c then false
  else true.

Definition upperhex (n : Z) : ascii :=
  match String.get (Z.to_nat n) "0123456789ABCDEF" with
  | Some c => c
  | None => "0"%char
  end.

(** [escape(s, mode)] for the four modes above. *)
Fixpoint escape (s : string) (mode : encoding) : string :=
  match s with
  | EmptyString => EmptyString
  | String c s' =>
      if shouldEscape c mode then
        String "%" (String (upperhex (code c / 16))
                      (String (upperhex (code c mod 16)) (escape s' mode)))
      else String c (escape s' mode)
  end.

Fixpoint all (f : ascii -> bool) (s : string) : bool :=
  match s with
  | EmptyString => true
  | String c s' => f c && all f s'
  end.

Definition validEncoded (s : string) (mode : encoding) : bool :=
  all (fun c => oneOf "!$&'()*+,;=:@[]%" c || negb (shouldEscape c mode)) s.

Record Userinfo : Type :=
  { username : string; password : string; passwordSet : bool }.

(** [url.UserPassword] *)
Definition UserPassword (u p : string) : Userinfo :=
  {| username := u; password := p; passwordSet := true |}.

Definition Userinfo_String (u : Userinfo) : string :=
  escape (username u) encodeUserPassword
  +:+ (if passwordSet u then ":" +:+ escape (password u) encodeUserPassword
       else EmptyString).

Record URL : Type :=
  { Scheme : string; Opaque : string; User : option Userinfo; Host : string;
    Path : string; RawPath : string; OmitHost : bool; ForceQuery : bool;
    RawQuery : string; Fragment : string; RawFragment : string }.

Definition emptyURL : URL :=
  {| Scheme := ""; Opaque := ""; User := None; Host := ""; Path := "";
     RawPath := ""; OmitHost := false; ForceQuery := false; RawQuery := "";
     Fragment := ""; RawFragment := "" |}.

Definition setHost (u : URL) (h : string) : URL :=
  {| Scheme := Scheme u; Opaque := Opaque u; User := User u; Host := h;
     Path := Path u; RawPath := RawPath u; OmitHost := OmitHost u;
     ForceQuery := ForceQuery u; RawQuery := RawQuery u;
     Fragment := Fragment u; RawFragment := RawFragment u |}.

Definition setUser (u : URL) (ui : option Userinfo) : URL :=
  {| Scheme := Scheme u; Opaque := Opaque u; User := ui; Host := Host u;
     Path := Path u; RawPath := RawPath u; OmitHost := OmitHost u;
     ForceQuery := ForceQuery u; RawQuery := RawQuery u;
     Fragment := Fragment u; RawFragment := RawFragment u |}.

Inductive ParseResult : Type :=
| Parsed (u : URL)
| ParseError (err : error)
| Unmodelled.

Definition isCTL (c : ascii) : bool := (code c <? 32) || (code c =? 127).

Definition toLower (c : ascii) : ascii :=
  if between "A" "Z" c then ascii_of_nat (nat_of_ascii c + 32) else c.

(** [getScheme]: [None] is the error, otherwise the scheme and the rest;
    [acc] is the text read so far, [rawURL] the whole input. *)
Fixpoint getScheme (rawURL s acc : string) : option (string * string) :=
  match s with
  | EmptyString => Some (EmptyString, rawURL)
  | String c s' =>
      if isAlpha c then getScheme rawURL s' (acc +:+ String c EmptyString)
      else if isNum c || oneOf "+-." c then
        match acc with
        | EmptyString => Some (EmptyString, rawURL)
        | _ => getScheme rawURL s' (acc +:+ String c EmptyString)
        end
      else if Ascii.eqb c ":" then
        match acc with
        | EmptyString => None
        | _ => Some (acc, s')
        end
      else Some (EmptyString, rawURL)
  end.

Definition validOptionalPort (port : string) : bool :=
  match port with
  | EmptyString => true
  | String c ds => Ascii.eqb c ":" && all isNum ds
  end.

Definition isEmpty (s : string) : bool :=
  match s with EmptyString => true | _ => false end.

(** [parseHost], percent signs excluded by the caller. *)
Definition parseHost (host : string) : result string :=
  let portOk :=
    if GoStrings.HasPrefix host "[" then
      match GoStrings.cutLast host "]" with
      | None => Err (errorString "missing ']' in host")
      | Some (_, colonPort) =>
          if validOptionalPort colonPort then Ok tt
          else Err (errorString ("invalid port " +:+ Quote colonPort
                                 +:+ " after host"))
      end
    else
      match GoStrings.cutLast host ":" with
      | None => Ok tt
      | Some (_, port) =>
          if validOptionalPort (String ":" port) then Ok tt
          else Err (errorString ("invalid port " +:+ Quote (String ":" port)
                                 +:+ " after host"))
      end in
  match portOk with
  | Err e => Err e
  | Ok _ =>
      if all (fun c => negb ((code c <? 128) && shouldEscape c encodeHost)) host
      then Ok host
      else Err (errorString "invalid character in host name")
  end.

Definition validUserinfo (s : string) : bool :=
  all (fun c => isAlpha c || isNum c || oneOf "-._:~!$&'()*+,;=%@" c) s.

Definition parseAuthority (authority : string)
  : result (option Userinfo * string) :=
  match GoStrings.cutLast authority "@" with
  | None =>
      match parseHost authority with
      | Err e => Err e
      | Ok host => Ok (None, host)
      end
  | Some (userinfo, hostpart) =>
      match parseHost hostpart with
      | Err e => Err e
      | Ok host =>
          if negb (validUserinfo userinfo) then
            Err (errorString "net/url: invalid userinfo")
          else if negb (GoStrings.Contains userinfo ":") then
            Ok (Some {| username := userinfo; password := "";
                        passwordSet := false |}, host)
          else
            let '(u, p, _) := GoStrings.Cut userinfo ":" in
            Ok (Some (UserPassword u p), host)
      end
  end.

Fixpoint count (s : string) (c : ascii) : nat :=
  match s with
  | EmptyString => O
  | String b s' => ((if Ascii.eqb b c then 1 else 0) + count s' c)%nat
  end.

Fixpoint map_ascii (f : ascii -> ascii) (s : string) : string :=
  match s with
  | EmptyString => EmptyString
  | String c s' => String (f c) (map_ascii f s')
  end.

Definition setPath (u : URL) (p : string) : URL :=
  {| Scheme := Scheme u; Opaque := Opaque u; User := User u; Host := Host u;
     Path := p;
     RawPath := if String.eqb p (escape p encodePath) then "" else p;
     OmitHost := OmitHost u; ForceQuery := ForceQuery u;
     RawQuery := RawQuery u; Fragment := Fragment u;
     RawFragment := RawFragment u |}.

Definition setFragment (u : URL) (f : string) : URL :=
  {| Scheme := Scheme u; Opaque := Opaque u; User := User u; Host := Host u;
     Path := Path u; RawPath := RawPath u; OmitHost := OmitHost u;
     ForceQuery := ForceQuery u; RawQuery := RawQuery u; Fragment := f;
     RawFragment := if String.eqb f (escape f encodeFragment) then "" else f |}.

(** [parse(rawURL, false)] *)
Definition parse (rawURL : string) : result URL :=
  if negb (all (fun c => negb (isCTL c)) rawURL) then
    Err (errorString "net/url: invalid control character in URL")
  else if String.eqb rawURL "*" then
    Ok {| Scheme := ""; Opaque := ""; User := None; Host := ""; Path := "*";
          RawPath := ""; OmitHost := false; ForceQuery := false;
          RawQuery := ""; Fragment := ""; RawFragment := "" |}
  else
    match getScheme rawURL rawURL EmptyString with
    | None => Err (errorString "missing protocol scheme")
    | Some (scheme, rest) =>
        let scheme := map_ascii toLower scheme in
        let '(rest, rawQuery, forceQuery) :=
          match GoStrings.cutLast rest "?" with
          | Some (before, EmptyString) =>
              if (count rest "?" =? 1)%nat then (before, EmptyString, true)
              else let '(r, q, _) := GoStrings.Cut rest "?" in (r, q, false)
          | _ => let '(r, q, _) := GoStrings.Cut rest "?" in (r, q, false)
          end in
        let u0 :=
          {| Scheme := scheme; Opaque := ""; User := None; Host := "";
             Path := ""; RawPath := ""; OmitHost := false;
             ForceQuery := forceQuery; RawQuery := rawQuery;
             Fragment := ""; RawFragment := "" |} in
        if negb (GoStrings.HasPrefix rest "/") && negb (isEmpty scheme) then
          Ok {| Scheme := scheme; Opaque := rest; User := None; Host := "";
                Path := ""; RawPath := ""; OmitHost := false;
                ForceQuery := forceQuery; RawQuery := rawQuery;
                Fragment := ""; RawFragment := "" |}
        else if negb (GoStrings.HasPrefix rest "/")
                && (let '(segment, _, _) := GoStrings.Cut rest "/" in
                    GoStrings.Contains segment ":") then
          Err (errorString "first path segment in URL cannot contain colon")
        else if (negb (isEmpty scheme)
                 || negb (GoStrings.HasPrefix rest "///"))
                && GoStrings.HasPrefix rest "//" then
          let '(authority, rest', found) :=
            GoStrings.Cut (GoStrings.drop 2 rest) "/" in
          let rest' := if found then String "/" rest' else EmptyString in
          match parseAuthority authority with
          | Err e => Err e
          | Ok (user, host) => Ok (setPath (setUser (setHost u0 host) user) rest')
          end
        else if negb (isEmpty scheme) && GoStrings.HasPrefix rest "/" then
          Ok (setPath
                {| Scheme := scheme; Opaque := ""; User := None; Host := "";
                   Path := ""; RawPath := ""; OmitHost := true;
                   ForceQuery := forceQuery; RawQuery := rawQuery;
                   Fragment := ""; RawFragment := "" |} rest)
        else Ok (setPath u0 rest)
    end.

(** [url.Parse] *)
Definition Parse (rawURL : string) : ParseResult :=
  if GoStrings.Contains rawURL "%" then Unmodelled
  else
    let '(u, frag, _) := GoStrings.Cut rawURL "#" in
    match parse u with
    | Err e => ParseError (wrapError ("parse " +:+ Quote u +:+ ": ") e)
    | Ok url => if isEmpty frag then Parsed url else Parsed (setFragment url frag)
    end.

(** [URL.Port], through [splitHostPort] *)
Definition Port (u : URL) : string :=
  match GoStrings.cutLast (Host u) ":" with
  | Some (_, port) =>
      if validOptionalPort (String ":" port) then port else EmptyString
  | None => EmptyString
  end.

Definition EscapedPath (u : URL) : string :=
  if negb (isEmpty (RawPath u)) && validEncoded (RawPath u) encodePath
     && String.eqb (RawPath u) (Path u)
  then RawPath u
  else if String.eqb (Path u) "*" then "*"
  else escape (Path u) encodePath.

Definition EscapedFragment (u : URL) : string :=
  if negb (isEmpty (RawFragment u)) && validEncoded (RawFragment u) encodeFragment
     && String.eqb (RawFragment u) (Fragment u)
  then RawFragment u
  else escape (Fragment u) encodeFragment.

(** [URL.String] *)
Definition String_ (u : URL) : string :=
  let buf := if isEmpty (Scheme u) then EmptyString else Scheme u +:+ ":" in
  let buf :=
    if negb (isEmpty (Opaque u)) then buf +:+ Opaque u
    else
      let hasUser := match User u with Some _ => true | None => false end in
      let buf :=
        if negb (isEmpty (Scheme u)) || negb (isEmpty (Host u)) || hasUser then
          if OmitHost u && isEmpty (Host u) && negb hasUser then buf
          else
            let buf :=
              if negb (isEmpty (Host u)) || negb (isEmpty (Path u)) || hasUser
              then buf +:+ "//" else buf in
            let buf :=
              match User u with
              | Some ui => buf +:+ Userinfo_String ui +:+ "@"
              | None => buf
              end in
            if negb (isEmpty (Host u)) then buf +:+ escape (Host u) encodeHost
            else buf
        else buf in
      let path := EscapedPath u in
      let buf :=
        if negb (isEmpty path) && negb (GoStrings.HasPrefix path "/")
           && negb (isEmpty (Host u))
        then buf +:+ "/" else buf in
      let buf :=
        if isEmpty buf
           && (let '(segment, _, _) := GoStrings.Cut path "/" in
               GoStrings.Contains segment ":")
        then buf +:+ "./" else buf in
      buf +:+ path in
  let buf :=
    if ForceQuery u || negb (isEmpty (RawQuery u))
    then buf +:+ "?" +:+ RawQuery u else buf in
  if negb (isEmpty (Fragment u)) then buf +:+ "#" +:+ EscapedFragment u
  else buf.

End url.

(** ** Package time (Go standard library)

    A [Time] is an instant read in UTC: the nanoseconds since
    1970-01-01T00:00:00Z.  A [Duration] is an int64 count of nanoseconds. *)
Module time.

Definition Time : Type := Z.
Definition Duration : Type := Z.

Definition minDuration : Duration := - 2 ^ 63.
Definition maxDuration : Duration := 2 ^ 63 - 1.
Definition Second : Duration := 1000000000.

(** [t.Sub(u)]: the difference, saturated to the int64 range. *)
Definition Sub (t u : Time) : Duration :=
  if t - u <? minDuration then minDuration
  else if t - u >? maxDuration then maxDuration
  else t - u.

(** [time.Since(t)] when the clock reads [now]. *)
Definition Since (now t : Time) : Duration := Sub now t.

(** Unary minus on an int64. *)
Definition neg (d : Duration) : Duration :=
  (- d + 2 ^ 63) mod 2 ^ 64 - 2 ^ 63.

(** [t.Add(d)] *)
Definition Add (t : Time) (d : Duration) : Time := t + d.

(** Days from 1970-01-01 to the first of month [m] (1 to 12) of year [y]
    in the proleptic Gregorian calendar. *)
Definition daysBeforeMonth (y m : Z) : Z :=
  let y' := if m <=? 2 then y - 1 else y in
  let era := y' / 400 in
  let yoe := y' - era * 400 in
  let doy := (153 * (if m >? 2 then m - 3 else m + 9) + 2) / 5 in
  era * 146097 + (yoe * 365 + yoe / 4 - yoe / 100 + doy) - 719468.

(** [time.Date(year, month, day, hour, min, sec, 0, time.UTC)]: the month
    is normalised into the year; the other fields overflow linearly. *)
Definition Date (year month day hour min sec : Z) : Time :=
  let m := month - 1 in
  let year := year + m / 12 in
  let month := m mod 12 + 1 in
  ((daysBeforeMonth year month + (day - 1)) * 86400
   + hour * 3600 + min * 60 + sec) * Second.

(** The civil date of a day number. *)
Definition civil (days : Z) : Z * Z * Z :=
  let z := days + 719468 in
  let era := z / 146097 in
  let doe := z - era * 146097 in
  let yoe := (doe - doe / 1460 + doe / 36524 - doe / 146096) / 365 in
  let doy := doe - (365 * yoe + yoe / 4 - yoe / 100) in
  let mp := (5 * doy + 2) / 153 in
  let d := doy - (153 * mp + 2) / 5 + 1 in
  let m := if mp <? 10 then mp + 3 else mp - 9 in
  (yoe + era * 400 + (if m <=? 2 then 1 else 0), m, d).

Fixpoint zeros (n : nat) : string :=
  match n with
  | O => EmptyString
  | S n' => String "0" (zeros n')
  end.

(** [appendInt(b, x, width)] *)
Definition appendInt (x : Z) (width : nat) : string :=
  let digits := Itoa (Z.abs x) in
  (if x <? 0 then "-" else EmptyString)
  +:+ zeros (width - String.length digits) +:+ digits.

Fixpoint trimZeros (fuel : nat) (n : Z) (width : nat) : Z * nat :=
  match fuel with
  | O => (n, width)
  | S fuel' =>
      if (n mod 10 =? 0) && (0 <? Z.of_nat width)
      then trimZeros fuel' (n / 10) (width - 1) else (n, width)
  end.

(** The fractional second of the layout [.999999999]: nothing when zero,
    otherwise nine digits with the trailing zeros removed. *)
Definition appendNano (nanosec : Z) : string :=
  if nanosec =? 0 then EmptyString
  else let '(n, w) := trimZeros 9 nanosec 9 in "." +:+ appendInt n w.

(** [t.UTC().Format(time.RFC3339Nano)] *)
Definition FormatRFC3339Nano (t : Time) : string :=
  let secs := t / Second in
  let nanosec := t mod Second in
  let '(year, month, day) := civil (secs / 86400) in
  let sod := secs mod 86400 in
  appendInt year 4 +:+ "-" +:+ appendInt month 2 +:+ "-" +:+ appendInt day 2
  +:+ "T" +:+ appendInt (sod / 3600) 2 +:+ ":"
  +:+ appendInt (sod mod 3600 / 60) 2 +:+ ":" +:+ appendInt (sod mod 60) 2
  +:+ appendNano nanosec +:+ "Z".

End time.

(** ** Packages crypto/sha1 and encoding/base64 (Go standard library) *)
Module sha1.

Definition bytesOf (s : string) : list Z :=
  (fun c => Z.of_nat (nat_of_ascii c)) <$> list_ascii_of_string s.

Definition u32 (x : Z) : Z := x mod 2 ^ 32.
Definition rotl (n x : Z) : Z :=
  u32 (Z.lor (Z.shiftl x n) (Z.shiftr x (32 - n))).

Fixpoint be (n : nat) (x : Z) : list Z :=
  match n with
  | O => []
  | S n' => (x / 256 ^ Z.of_nat n') mod 256 :: be n' x
  end.

(** The message followed by the bit 1, zeros, and its length in bits on
    eight bytes, a multiple of 64 bytes in all. *)
Definition pad (msg : list Z) : list Z :=
  let len := Z.of_nat (length msg) in
  msg ++ [128] ++ replicate (Z.to_nat ((55 - len) mod 64)) 0 ++ be 8 (8 * len).

Fixpoint words (n : nat) (bs : list Z) : list Z :=
  match n, bs with
  | S n', b0 :: b1 :: b2 :: b3 :: bs' =>
      (((b0 * 256 + b1) * 256 + b2) * 256 + b3) :: words n' bs'
  | _, _ => []
  end.

Definition state : Type := Z * Z * Z * Z * Z.

(** Round [i] on the working variables; [w] holds the sixteen schedule
    words from [w_i] on. *)
Fixpoint rounds (n : nat) (i : Z) (w : list Z) (s : state) : state :=
  match n with
  | O => s
  | S n' =>
      let '(a, b, c, d, e) := s in
      let '(f, k) :=
        if i <? 20 then
          (Z.lor (Z.land b c) (Z.land (u32 (Z.lnot b)) d), 1518500249)
        else if i <? 40 then (Z.lxor (Z.lxor b c) d, 1859775393)
        else if i <? 60 then
          (Z.lor (Z.lor (Z.land b c) (Z.land b d)) (Z.land c d), 2400959708)
        else (Z.lxor (Z.lxor b c) d, 3395469782) in
      let wi := nth 0 w 0 in
      let next :=
        rotl 1 (Z.lxor (Z.lxor (Z.lxor (nth 13 w 0) (nth 8 w 0)) (nth 2 w 0)) wi) in
      let t := u32 (rotl 5 a + f + e + k + wi) in
      rounds n' (i + 1) (tail w ++ [next]) (t, a, rotl 30 b, c, d)
  end.

Definition block (h : state) (chunk : list Z) : state :=
  let '(h0, h1, h2, h3, h4) := h in
  let '(a, b, c, d, e) := rounds 80 0 (words 16 chunk) h in
  (u32 (h0 + a), u32 (h1 + b), u32 (h2 + c), u32 (h3 + d), u32 (h4 + e)).

Fixpoint blocks (n : nat) (h : state) (bs : list Z) : state :=
  match n with
  | O => h
  | S n' => blocks n' (block h (take 64 bs)) (drop 64 bs)
  end.

(** [sha1.Sum]: the twenty bytes of the digest. *)
Definition Sum (msg : list Z) : list Z :=
  let p := pad msg in
  let '(h0, h1, h2, h3, h4) :=
    blocks (length p / 64)
           (1732584193, 4023233417, 2562383102, 271733878, 3285377520) p in
  be 4 h0 ++ be 4 h1 ++ be 4 h2 ++ be 4 h3 ++ be 4 h4.

End sha1.

Module base64.

Definition alphabet : string :=
  "ABCDEFGHIJKLMNOPQRSTUVWXYZabcdefghijklmnopqrstuvwxyz0123456789+/".

Definition enc (n : Z) : ascii :=
  match String.get (Z.to_nat n) alphabet with
  | Some c => c
  | None => "="%char
  end.

(** [base64.StdEncoding.EncodeToString] *)
Fixpoint EncodeToString (bs : list Z) : string :=
  match bs with
  | [] => EmptyString
  | [b0] =>
      String (enc (b0 / 4)) (String (enc (b0 mod 4 * 16)) "==")
  | [b0; b1] =>
      String (enc (b0 / 4))
        (String (enc (b0 mod 4 * 16 + b1 / 16))
           (String (enc (b1 mod 16 * 4)) "="))
  | b0 :: b1 :: b2 :: bs' =>
      String (enc (b0 / 4))
        (String (enc (b0 mod 4 * 16 + b1 / 16))
           (String (enc (b1 mod 16 * 4 + b2 / 64))
              (String (enc (b2 mod 64)) (EncodeToString bs'))))
  end.

End base64.

(** ** Effects

    The code runs in a state monad over the trace of the effects performed so
    far and a counter of the calls made to the world.  A computation ends in a
    value, in a Go panic, or without an answer when the model reaches an
    iteration bound or a library behaviour it does not cover. *)

Inductive Level : Type := LevelDebug | LevelInfo | LevelWarn | LevelError.

(** What went into the security header of one request: the nonce, the reading
    of the local clock, and the text of the [Created] element. *)
Record AuthStamp : Type :=
  { nonce : string; localNow : time.Time; created : string }.

Inductive Event : Type :=
| EvLog (level : Level) (msg : string) (attrs : list (string * string))
| EvPost (url envelope : string) (auth : option AuthStamp)
| EvSetClockOffset (now deviceTime : time.Time) (offset : time.Duration)
| EvProbeSent (iface msg : string)
| EvDial (address : string)
| EvFFProbe (url : string).

Record St : Type := mkSt { tick : nat; trace : list Event }.

Inductive Outcome (A : Type) : Type :=
| Done (a : A)
| Panic (v : error)
| NoAnswer.
Arguments Done {A} a.
Arguments Panic {A} v.
Arguments NoAnswer {A}.

Definition M (A : Type) : Type := St -> Outcome A * St.

Definition ret {A} (a : A) : M A := fun st => (Done a, st).

Definition bind {A B} (m : M A) (k : A -> M B) : M B :=
  fun st =>
    match m st with
    | (Done a, st') => k a st'
    | (Panic v, st') => (Panic v, st')
    | (NoAnswer, st') => (NoAnswer, st')
    end.

Notation "'do' x <- m ;; k" := (bind m (fun x => k))
  (at level 10, x name, m at level 99, k at level 200).
Notation "'do' ' p <- m ;; k" := (bind m (fun x => match x with p => k end))
  (at level 10, p pattern, m at level 99, k at level 200).
Notation "'run' m ;; k" := (bind m (fun _ => k))
  (at level 10, m at level 99, k at level 200).

(** Append an event to the trace. *)
Definition emit (e : Event) : M unit :=
  fun st => (Done tt, {| tick := tick st; trace := trace st ++ [e] |}).

(** The index of the next call to the world. *)
Definition next : M nat :=
  fun st => (Done (tick st), {| tick := S (tick st); trace := trace st |}).

Definition panic {A} (v : error) : M A := fun st => (Panic v, st).
Definition noAnswer {A} : M A := fun st => (NoAnswer, st).

(** A call to the [slog] logger.  String and integer attributes are carried;
    attributes that dump a whole struct or an HTTP trace are not. *)
Definition log (level : Level) (msg : string) (attrs : list (string * string))
  : M unit := emit (EvLog level msg attrs).

(** Dereferencing a nil pointer. *)
Definition nilDereference : error :=
  errorString "runtime error: invalid memory address or nil pointer dereference".

(** ** Package ffmpeg (src/unnamed/part_003), its data *)
Module ffmpeg.

Record Stream : Type :=
  { Index : Z; CodecType : string; CodecName : string;
    CodecLongName : string; Width : Z; Height : Z; FrameRate : string }.

End ffmpeg.

(** ** Package onvif (src/onvif/device.go, src/onvif/discovery.go) *)
Module onvif.

(** *** Data *)

Record Capabilities : Type :=
  { Events_Address : string;
    WSSubscriptionPolicySupport : bool;
    WSPullPointSupport : bool;
    WSPausableSubscriptionManagerInterfaceSupport : bool;
    Media_Address : string }.

Record DeviceInformation : Type :=
  { Manufacturer : string; Model : string; FirmwareVersion : string;
    SerialNumber : string; HardwareID : string }.

Record Profile : Type :=
  { Token : string; Name : string; URI : string;
    Bounds_Width : Z; Bounds_Height : Z; Streams : list ffmpeg.Stream }.

Record MediaProfile : Type :=
  { MP_Token : string; MP_URI : string;
    SourceStreams : list ffmpeg.Stream; RTSPStreams : list ffmpeg.Stream }.

Record GetStreamUriResponse : Type :=
  { MediaURI_URI : string; InvalidAfterConnect : bool;
    InvalidAfterReboot : bool; Timeout : string }.

Record GetSystemDateAndTimeResponse : Type :=
  { Hour : Z; Minute : Z; Second : Z; Year : Z; Month : Z; Day : Z }.

Record Device : Type :=
  { Address : string; Username : string; Password : string;
    ClockOffset : time.Duration;
    Capabilities_ : Capabilities;
    DeviceInformation_ : DeviceInformation;
    Profiles : list Profile;
    MediaProfiles : list MediaProfile }.

Definition zeroCapabilities : Capabilities :=
  {| Events_Address := ""; WSSubscriptionPolicySupport := false;
     WSPullPointSupport := false;
     WSPausableSubscriptionManagerInterfaceSupport := false;
     Media_Address := "" |}.

Definition zeroDeviceInformation : DeviceInformation :=
  {| Manufacturer := ""; Model := ""; FirmwareVersion := "";
     SerialNumber := ""; HardwareID := "" |}.

Definition NewDevice (address username password : string) : Device :=
  {| Address := address; Username := username; Password := password;
     ClockOffset := 0; Capabilities_ := zeroCapabilities;
     DeviceInformation_ := zeroDeviceInformation;
     Profiles := []; MediaProfiles := [] |}.

(** Assignments to the fields of a device or of a profile. *)
Definition withCapabilities (d : Device) (c : Capabilities) : Device :=
  {| Address := Address d; Username := Username d; Password := Password d;
     ClockOffset := ClockOffset d; Capabilities_ := c;
     DeviceInformation_ := DeviceInformation_ d;
     Profiles := Profiles d; MediaProfiles := MediaProfiles d |}.

Definition withClockOffset (d : Device) (o : time.Duration) : Device :=
  {| Address := Address d; Username := Username d; Password := Password d;
     ClockOffset := o; Capabilities_ := Capabilities_ d;
     DeviceInformation_ := DeviceInformation_ d;
     Profiles := Profiles d; MediaProfiles := MediaProfiles d |}.

Definition withDeviceInformation (d : Device) (i : DeviceInformation)
  : Device :=
  {| Address := Address d; Username := Username d; Password := Password d;
     ClockOffset := ClockOffset d; Capabilities_ := Capabilities_ d;
     DeviceInformation_ := i;
     Profiles := Profiles d; MediaProfiles := MediaProfiles d |}.

Definition withProfiles (d : Device) (ps : list Profile) : Device :=
  {| Address := Address d; Username := Username d; Password := Password d;
     ClockOffset := ClockOffset d; Capabilities_ := Capabilities_ d;
     DeviceInformation_ := DeviceInformation_ d;
     Profiles := ps; MediaProfiles := MediaProfiles d |}.

Definition withURI (p : Profile) (uri : string) : Profile :=
  {| Token := Token p; Name := Name p; URI := uri;
     Bounds_Width := Bounds_Width p; Bounds_Height := Bounds_Height p;
     Streams := Streams p |}.

Definition withStreams (p : Profile) (s : list ffmpeg.Stream) : Profile :=
  {| Token := Token p; Name := Name p; URI := URI p;
     Bounds_Width := Bounds_Width p; Bounds_Height := Bounds_Height p;
     Streams := s |}.

(** The response shapes [makeRequest] is asked to decode into (its [resp]
    argument). *)
Inductive Shape : Type :=
| SCapabilities | SDateAndTime | SDeviceInformation | SProfiles | SStreamUri.

Definition shapeT (s : Shape) : Type :=
  match s with
  | SCapabilities => Capabilities
  | SDateAndTime => GetSystemDateAndTimeResponse
  | SDeviceInformation => DeviceInformation
  | SProfiles => list Profile
  | SStreamUri => GetStreamUriResponse
  end.

(** What [httpx.DoTrace] gave: an error (transport, timeout, retries
    exhausted), or a response with its status code and what
    [xml.Unmarshal] makes of its body for the shape asked. *)
Inductive Exchange (R : Type) : Type :=
| DoTraceError (err : error)
| Response (StatusCode : Z) (Unmarshal : result R).
Arguments DoTraceError {R} err.
Arguments Response {R} StatusCode Unmarshal.

(** A non-nil [*httpx.Trace]. *)
Inductive Trace : Type := mkTrace (url : string).

Record ProbeMatch : Type :=
  { EndpointReference : string; Types : string; Scopes : string;
    XAddrs : string }.

Record ProbeResponse : Type :=
  { UUID : string; Matches : list ProbeMatch }.

(** A datagram [ReadFrom] delivered: the text of its source address, its
    bytes, and what [xml.Unmarshal] makes of them. *)
Record Packet : Type :=
  { src : string; payload : string; Unmarshal : result ProbeResponse }.

(** How [ReadFrom] finally fails: at the read deadline, or otherwise. *)
Inductive ReadEnd : Type :=
| DeadlineExceeded
| ReadFailed (err : error).

(** The UDP socket of one discovery run on one interface: the error, if
    any, of each call made on it, the datagrams read before the failing
    read, and that failure. *)
Record Socket : Type :=
  { ListenPacket : option error;
    InterfaceByName : option error;
    JoinGroup : option error;
    SetMulticastInterface : option error;
    WriteTo : option error;
    SetReadDeadline : option error;
    ReadFrom : list Packet;
    ReadFromEnd : ReadEnd }.

(** The world of package onvif.  [uuid_NewString], [time_Now] and
    [httpx_DoTrace] take the index of the call. *)
Record World : Type :=
  { uuid_NewString : nat -> string;
    time_Now : nat -> time.Time;
    httpx_NewRequest : string -> option error;
    httpx_DoTrace : nat -> string -> string -> forall s, Exchange (shapeT s);
    net_Socket : string -> Socket }.

(** *** device.go *)

Definition getStreamUriBody : string := unq "
<trt:GetStreamUri xmlns:trt='http://www.onvif.org/ver10/media/wsdl' xmlns:tt='http://www.onvif.org/ver10/schema'>
	<trt:StreamSetup>
		<tt:Stream>RTP-Unicast</tt:Stream>
		<tt:Transport><tt:Protocol>RTSP</tt:Protocol></tt:Transport>
	</trt:StreamSetup>
	<trt:ProfileToken>{{token}}</trt:ProfileToken>
</trt:GetStreamUri>".

Definition getProfilesBody : string := unq "<trt:GetProfiles xmlns:trt='http://www.onvif.org/ver10/media/wsdl'/>".

Definition getCapabilitiesBody : string := unq "
<tds:GetCapabilities xmlns:tds='http://www.onvif.org/ver10/device/wsdl'>
	<tds:Category>All</tds:Category>
</tds:GetCapabilities>".

Definition getDateAndTimeBody : string := unq "<tds:GetSystemDateAndTime xmlns:tds='http://www.onvif.org/ver10/device/wsdl'/>".

Definition getDeviceInformationBody : string := unq "<tds:GetDeviceInformation xmlns:tds='http://www.onvif.org/ver10/device/wsdl'/>".

Definition envelopeTemplate : string := unq "
<?xml version='1.0' encoding='UTF-8'?><s:Envelope xmlns:s='http://www.w3.org/2003/05/soap-envelope'>
{{header}}
<s:Body>{{body}}</s:Body>
</s:Envelope>".

Definition authTemplate : string := unq "<s:Header>
<wsse:Security xmlns:wsse='http://docs.oasis-open.org/wss/2004/01/oasis-200401-wss-wssecurity-secext-1.0.xsd'>
<wsse:UsernameToken>
<wsse:Username>{{username}}</wsse:Username>
<wsse:Password Type='http://docs.oasis-open.org/wss/2004/01/oasis-200401-wss-username-token-profile-1.0#PasswordDigest'>{{password}}</wsse:Password>
<wsse:Nonce EncodingType='http://docs.oasis-open.org/wss/2004/01/oasis-200401-wss-soap-message-security-1.0#Base64Binary'>{{nonce}}</wsse:Nonce>
<wsu:Created xmlns:wsu='http://docs.oasis-open.org/wss/2004/01/oasis-200401-wss-wssecurity-utility-1.0.xsd'>{{created}}</wsu:Created>
</wsse:UsernameToken>
</wsse:Security>
</s:Header>".

(** The security header of [makeRequest]: [authTemplate] with the user
    name, the nonce, the password digest and the creation time put in. *)
Definition securityHeader (d : Device) (nonce created : string) : string :=
  let hash := sha1.Sum (sha1.bytesOf (nonce +:+ created +:+ Password d)) in
  let header :=
    GoStrings.ReplaceAll authTemplate "{{username}}" (Username d) in
  let header :=
    GoStrings.ReplaceAll header "{{nonce}}"
      (base64.EncodeToString (sha1.bytesOf nonce)) in
  let header :=
    GoStrings.ReplaceAll header "{{password}}" (base64.EncodeToString hash) in
  GoStrings.ReplaceAll header "{{created}}" created.

(** The envelope of [makeRequest] *)
Definition envelopeOf (header body : string) : string :=
  let envelope := GoStrings.ReplaceAll envelopeTemplate "{{header}}" header in
  GoStrings.ReplaceAll envelope "{{body}}" body.

(** [Device.makeRequest] *)
Definition makeRequest (w : World) (d : Device) (s : Shape)
           (url body : string) : M (option Trace * result (shapeT s)) :=
  do '(header, stamp) <-
    (if negb (url.isEmpty (Username d)) then
       do i <- next ;;
       let nonce := uuid_NewString w i in
       do j <- next ;;
       let now := time_Now w j in
       let created :=
         time.FormatRFC3339Nano (time.Add now (ClockOffset d)) in
       ret (securityHeader d nonce created,
            Some {| nonce := nonce; localNow := now; created := created |})
     else ret (EmptyString, None)) ;;
  let envelope := envelopeOf header body in
  match httpx_NewRequest w url with
  | Some err =>
      ret (None,
           Err (wrapError ("failed to create request for url " +:+ Quote url
                           +:+ ": ") err))
  | None =>
      do k <- next ;;
      run emit (EvPost url envelope stamp) ;;
      run log LevelDebug "onvif request" [("url", url)] ;;
      match httpx_DoTrace w k url envelope s with
      | DoTraceError err =>
          ret (Some (mkTrace url),
               Err (wrapError ("failed to make request to URL " +:+ Quote url
                               +:+ ": ") err))
      | Response status decoded =>
          if negb (status =? 200) then
            ret (Some (mkTrace url),
                 Err (errorString ("non 200 status " +:+ Itoa status
                                   +:+ " for " +:+ Quote url)))
          else
            match decoded with
            | Err err =>
                ret (Some (mkTrace url),
                     Err (wrapError "failed to unmarshal response: " err))
            | Ok r => ret (Some (mkTrace url), Ok r)
            end
      end
  end.

(** The loop of [GetProfiles]: one [GetStreamUri] request per profile, in
    order; the first failure ends the loop with its error. *)
Fixpoint resolveURIs (w : World) (d : Device) (profiles : list Profile)
  : M (result (list Profile)) :=
  match profiles with
  | [] => ret (Ok [])
  | profile :: rest =>
      let body :=
        GoStrings.ReplaceAll getStreamUriBody "{{token}}" (Token profile) in
      do '(_, r) <-
        makeRequest w d SStreamUri (Media_Address (Capabilities_ d)) body ;;
      match r with
      | Err err => ret (Err err)
      | Ok uri =>
          do r' <- resolveURIs w d rest ;;
          match r' with
          | Err err => ret (Err err)
          | Ok rest' => ret (Ok (withURI profile (MediaURI_URI uri) :: rest'))
          end
      end
  end.

(** [Device.GetProfiles] *)
Definition GetProfiles (w : World) (d : Device) : M (result (list Profile)) :=
  do '(_, r) <-
    makeRequest w d SProfiles (Media_Address (Capabilities_ d))
                getProfilesBody ;;
  match r with
  | Err err => ret (Err err)
  | Ok resp =>
      do r' <- resolveURIs w d resp ;;
      match r' with
      | Err err => ret (Err err)
      | Ok profiles =>
          run log LevelDebug "got profiles" [] ;;
          ret (Ok profiles)
      end
  end.

(** [Device.GetCapabilities] *)
Definition GetCapabilities (w : World) (d : Device)
  : M (result Capabilities) :=
  do '(_, r) <-
    makeRequest w d SCapabilities (Address d) getCapabilitiesBody ;;
  match r with
  | Err err => ret (Err (wrapError "failed to get capabilities: " err))
  | Ok capabilities =>
      run log LevelDebug "got capabilities" [] ;;
      ret (Ok capabilities)
  end.

(** [Device.GetSystemDateAndTime] *)
Definition GetSystemDateAndTime (w : World) (d : Device)
  : M (result time.Time) :=
  do '(_, r) <-
    makeRequest w d SDateAndTime (Address d) getDateAndTimeBody ;;
  match r with
  | Err err =>
      ret (Err (wrapError "failed to get system date and time: " err))
  | Ok dt =>
      let deviceUTCTime :=
        time.Date (Year dt) (Month dt) (Day dt)
                  (Hour dt) (Minute dt) (Second dt) in
      run log LevelDebug "got system date and time" [] ;;
      ret (Ok deviceUTCTime)
  end.

(** [Device.GetDeviceInformation].  On failure the trace is formatted for
    the log line, which dereferences it. *)
Definition GetDeviceInformation (w : World) (d : Device)
  : M (result DeviceInformation) :=
  do '(trace, r) <-
    makeRequest w d SDeviceInformation (Address d) getDeviceInformationBody ;;
  match r with
  | Err err =>
      match trace with
      | None => panic nilDereference
      | Some _ =>
          run log LevelError "failed to get device information"
              [("error", Error err)] ;;
          ret (Err (wrapError "failed to get device information: " err))
      end
  | Ok info =>
      run log LevelDebug "got device information" [] ;;
      ret (Ok info)
  end.

(** [Device.Probe]: the device as the call leaves it, and the two results. *)
Definition Probe (w : World) (d : Device)
  : M (Device * (bool * option error)) :=
  do r <- GetCapabilities w d ;;
  match r with
  | Err err => ret (d, (false, Some err))
  | Ok capabilities =>
      if url.isEmpty (Media_Address capabilities) then
        ret (d, (false,
                 Some (errorString "no media address found in capabilities")))
      else
        let d := withCapabilities d capabilities in
        do r <- GetSystemDateAndTime w d ;;
        match r with
        | Err err => ret (d, (false, Some err))
        | Ok deviceTime =>
            do i <- next ;;
            let now := time_Now w i in
            let offset := time.neg (time.Since now deviceTime) in
            run emit (EvSetClockOffset now deviceTime offset) ;;
            let d := withClockOffset d offset in
            do r <- GetDeviceInformation w d ;;
            match r with
            | Err err => ret (d, (true, Some err))
            | Ok info =>
                let d := withDeviceInformation d info in
                do r <- GetProfiles w d ;;
                match r with
                | Err err => ret (d, (true, Some err))
                | Ok profiles => ret (withProfiles d profiles, (true, None))
                end
            end
        end
  end.

(** *** discovery.go *)

Definition probeTemplate : string := unq "<?xml version='1.0' ?>
<s:Envelope xmlns:s='http://www.w3.org/2003/05/soap-envelope'>
	<s:Header xmlns:a='http://schemas.xmlsoap.org/ws/2004/08/addressing'>
		<a:Action>http://schemas.xmlsoap.org/ws/2005/04/discovery/Probe</a:Action>
		<a:MessageID>urn:uuid:{{UUID}}</a:MessageID>
		<a:To>urn:schemas-xmlsoap-org:ws:2005:04:discovery</a:To>
	</s:Header>
	<s:Body>
		<d:Probe xmlns:d='http://schemas.xmlsoap.org/ws/2005/04/discovery'>
			<d:Types />
			<d:Scopes />
		</d:Probe>
	</s:Body>
</s:Envelope>".

(** [ipFromAddr], on the text of the address *)
Definition ipFromAddr (addr : string) : string :=
  hd EmptyString (GoStrings.Split addr ":").

(** The loop over the matches of one response. *)
Fixpoint matchLoop (src : string) (matches : list ProbeMatch)
         (transmitters : list string) : M (list string) :=
  match matches with
  | [] => ret transmitters
  | match_ :: rest =>
      if GoStrings.Contains (Types match_) "NetworkVideoTransmitter" then
        match url.Parse (XAddrs match_) with
        | url.Unmodelled => noAnswer
        | url.ParseError err =>
            run log LevelWarn "error parsing xaddrs, skipping"
                [("xaddrs", XAddrs match_); ("error", Error err)] ;;
            matchLoop src rest transmitters
        | url.Parsed endpoint =>
            let port := url.Port endpoint in
            let port := if url.isEmpty port then "80" else port in
            let endpoint :=
              url.setHost endpoint (ipFromAddr src +:+ ":" +:+ port) in
            run log LevelInfo "discovered onvif video transmitter"
                [("endpoint", url.String_ endpoint);
                 ("scopes", Scopes match_)] ;;
            matchLoop src rest (transmitters ++ [url.String_ endpoint])
        end
      else matchLoop src rest transmitters
  end.

(** The read loop: one iteration per datagram, then the failing read. *)
Fixpoint readLoop (msgID : string) (reads : list Packet) (fin : ReadEnd)
         (transmitters : list string) : M (result (list string)) :=
  match reads with
  | [] =>
      match fin with
      | DeadlineExceeded => ret (Ok transmitters)
      | ReadFailed err =>
          run log LevelError "error reading discovery response"
              [("error", Error err)] ;;
          ret (Err (wrapError "error reading discovery response: " err))
      end
  | pkt :: rest =>
      run log LevelDebug "discovery response"
          [("src", src pkt); ("msg", payload pkt)] ;;
      match Unmarshal pkt with
      | Err err =>
          run log LevelWarn "error unmarshalling discovery response, skipping"
              [("msg", payload pkt); ("error", Error err)] ;;
          readLoop msgID rest fin transmitters
      | Ok resp =>
          if negb (GoStrings.Contains (UUID resp) msgID) then
            run log LevelWarn
                "discovery response does not match probe, ignoring"
                [("uuid", UUID resp)] ;;
            readLoop msgID rest fin transmitters
          else
            do transmitters <- matchLoop (src pkt) (Matches resp) transmitters ;;
            readLoop msgID rest fin transmitters
      end
  end.

(** [GetONVIFVideoTransmitters] *)
Definition GetONVIFVideoTransmitters (w : World) (ifaceName : string)
  : M (result (list string)) :=
  do i <- next ;;
  let msgID := uuid_NewString w i in
  let msg := GoStrings.ReplaceAll probeTemplate "{{UUID}}" msgID in
  let c := net_Socket w ifaceName in
  match ListenPacket c with
  | Some err => ret (Err (wrapError "unable to starting discovery listen: " err))
  | None =>
  match InterfaceByName c with
  | Some err =>
      ret (Err (wrapError ("unable to find interface " +:+ Quote ifaceName
                           +:+ ": ") err))
  | None =>
  match JoinGroup c with
  | Some err =>
      ret (Err (wrapError ("interface " +:+ Quote ifaceName
                           +:+ " unable to join multicast group: ") err))
  | None =>
  match SetMulticastInterface c with
  | Some err =>
      ret (Err (wrapError ("interface " +:+ Quote ifaceName
                           +:+ " unable to set multicast interface: ") err))
  | None =>
  match WriteTo c with
  | Some err =>
      ret (Err (wrapError ("unable to send discovery probe on interface "
                           +:+ Quote ifaceName +:+ ": ") err))
  | None =>
  run emit (EvProbeSent ifaceName msg) ;;
  match SetReadDeadline c with
  | Some err => ret (Err (wrapError "unable to set read deadline: " err))
  | None => readLoop msgID (ReadFrom c) (ReadFromEnd c) []
  end end end end end end.

End onvif.

(** ** Package scan (src/scan/scan.go) *)
Module scan.

(** The world of package scan: the world of package onvif, what
    [network.GetPrivateIP4Interfaces] returned (the entries of its map in
    the order the [range] loops visit them), the outcome of
    [net.DialTimeout] on each address, and what [ffmpeg.ProbeRTSP] returns
    for each URL. *)
Record World : Type :=
  { onvifWorld : onvif.World;
    GetPrivateIP4Interfaces : result (list (network.IFace * network.CIDR));
    DialTimeout : string -> network.DialResult;
    ProbeRTSP : string -> result (list ffmpeg.Stream) }.

(** The inner loop of the first loop of [FindHostsWithOpenPort]:
    [candidates[fmt.Sprintf("%s:%d", ip, port)] = true] for each address. *)
Definition addCandidates (ips : list string) (port : Z)
           (candidates : gset string) : gset string :=
  foldl (fun cs ip => {[ ip +:+ ":" +:+ Itoa port ]} ∪ cs) candidates ips.

(** The first loop of [FindHostsWithOpenPort], over the interfaces. *)
Fixpoint gatherCandidates (fuel : nat)
         (ifaces : list (network.IFace * network.CIDR)) (port : Z)
         (candidates : gset string) : M (result (gset string)) :=
  match ifaces with
  | [] => ret (Ok candidates)
  | (iface, ip) :: rest =>
      match network.GetIPsOnNetwork fuel ip with
      | None => noAnswer
      | Some (Err err) =>
          ret (Err (wrapError ("error getting IPs for interface "
                               +:+ Quote iface +:+ ": ") err))
      | Some (Ok ips) =>
          if (length ips <=? 256)%nat then
            let candidates := addCandidates ips port candidates in
            run log LevelInfo "scanning candidate IPs on interface"
                [("interface", iface); ("cidr", ip);
                 ("count", Itoa (Z.of_nat (length ips)))] ;;
            gatherCandidates fuel rest port candidates
          else
            run log LevelInfo "ignoring interface with too many IPs"
                [("interface", iface); ("cidr", ip);
                 ("count", Itoa (Z.of_nat (length ips)))] ;;
            gatherCandidates fuel rest port candidates
      end
  end.

(** The tasks of the wait group, one per candidate, run here one after the
    other in the order of the list.  A task that panics does not stop the
    others: the wait group catches the panic, and [caught] keeps the first
    one for [Wait] to raise again. *)
Fixpoint dialAll (w : World) (candidates : list string)
         (caught : option error) (keepers : list string)
  : M (option error * list string) :=
  match candidates with
  | [] => ret (caught, keepers)
  | candidate :: rest =>
      run emit (EvDial candidate) ;;
      let '(open, err) :=
        network.IsPortOpen candidate (DialTimeout w candidate) in
      match err with
      | Some err =>
          run log LevelError "error checking port"
              [("candidate", candidate); ("error", Error err)] ;;
          dialAll w rest
                  (match caught with Some _ => caught | None => Some err end)
                  keepers
      | None =>
          if open then
            run log LevelInfo "found open port" [("candidate", candidate)] ;;
            dialAll w rest caught (keepers ++ [candidate])
          else dialAll w rest caught keepers
      end
  end.

(** [FindHostsWithOpenPort] *)
Definition FindHostsWithOpenPort (fuel : nat) (w : World)
           (ifaces : list (network.IFace * network.CIDR)) (port : Z)
  : M (result (list string)) :=
  do r <- gatherCandidates fuel ifaces port ∅ ;;
  match r with
  | Err err => ret (Err err)
  | Ok candidates =>
      do '(caught, keepers) <- dialAll w (elements candidates) None [] ;;
      match caught with
      | Some err => panic err
      | None => ret (Ok keepers)
      end
  end.

(** The first loop of [GetDevicesOnNetwork]: discovery on each interface,
    stopping at the first error. *)
Fixpoint discoverAll (w : World)
         (ifaces : list (network.IFace * network.CIDR))
         (candidates : list string) : M (result (list string)) :=
  match ifaces with
  | [] => ret (Ok candidates)
  | (iface, _) :: rest =>
      run log LevelInfo "starting onvif ws-discovery" [("iface", iface)] ;;
      do r <- onvif.GetONVIFVideoTransmitters (onvifWorld w) iface ;;
      match r with
      | Err err =>
          ret (Err (wrapError "error finding candidates via ws discovery: "
                              err))
      | Ok ifaceCandidates =>
          run log LevelInfo "onvif ws-discovery complete"
              [("iface", iface);
               ("count", Itoa (Z.of_nat (length ifaceCandidates)))] ;;
          discoverAll w rest (candidates ++ ifaceCandidates)
      end
  end.

(** The loop over the profiles of a probed device: [ffmpeg.ProbeRTSP] on the
    stream URI of each, with the credentials put in.  [done] are the
    profiles already visited.  The error of [url.Parse] is dropped by the
    code and the nil URL it leaves is dereferenced. *)
Fixpoint probeStreams (w : World) (d : onvif.Device)
         (done todo : list onvif.Profile) : M (list onvif.Profile) :=
  match todo with
  | [] => ret done
  | profile :: rest =>
      match url.Parse (onvif.URI profile) with
      | url.Unmodelled => noAnswer
      | url.ParseError _ => panic nilDereference
      | url.Parsed uri =>
          let uri :=
            if negb (url.isEmpty (onvif.Username d)) then
              url.setUser uri (Some (url.UserPassword (onvif.Username d)
                                                      (onvif.Password d)))
            else uri in
          run emit (EvFFProbe (url.String_ uri)) ;;
          match ProbeRTSP w (url.String_ uri) with
          | Err _ =>
              run log LevelDebug "unable to open RTSP stream"
                  [("url", onvif.URI profile)] ;;
              probeStreams w d (done ++ [profile]) rest
          | Ok streams =>
              run log LevelInfo "rtsp stream" [("url", onvif.URI profile)] ;;
              probeStreams w d (done ++ [onvif.withStreams profile streams])
                           rest
          end
      end
  end.

(** The last loop of [GetDevicesOnNetwork], over the candidates. *)
Fixpoint probeAll (w : World) (username password : string)
         (candidates : list string) (seen : gset string) : M unit :=
  match candidates with
  | [] => ret tt
  | candidate :: rest =>
      if decide (candidate ∈ seen) then
        probeAll w username password rest seen
      else
        let seen := {[ candidate ]} ∪ seen in
        let d := onvif.NewDevice candidate username password in
        do '(d, (valid, err)) <- onvif.Probe (onvifWorld w) d ;;
        match err with
        | Some err =>
            run log LevelDebug "error probing onvif device, ignoring"
                [("candidate", candidate); ("error", Error err)] ;;
            probeAll w username password rest seen
        | None =>
            if negb valid then
              run log LevelDebug "not a valid onvif device, ignoring"
                  [("candidate", candidate)] ;;
              probeAll w username password rest seen
            else
              do profiles <- probeStreams w d [] (onvif.Profiles d) ;;
              let d := onvif.withProfiles d profiles in
              run log LevelInfo "onvif device found"
                  [("address", onvif.Address d);
                   ("manufacturer",
                    onvif.Manufacturer (onvif.DeviceInformation_ d));
                   ("model", onvif.Model (onvif.DeviceInformation_ d));
                   ("firmware",
                    onvif.FirmwareVersion (onvif.DeviceInformation_ d));
                   ("serial",
                    onvif.SerialNumber (onvif.DeviceInformation_ d));
                   ("hardware",
                    onvif.HardwareID (onvif.DeviceInformation_ d))] ;;
              probeAll w username password rest seen
        end
  end.

(** [GetDevicesOnNetwork]: the returned slice ([None] is the nil slice) and
    the returned error. *)
Definition GetDevicesOnNetwork (fuel : nat) (w : World) (port : Z)
           (username password : string)
  : M (option (list onvif.Device) * option error) :=
  match GetPrivateIP4Interfaces w with
  | Err err =>
      ret (None, Some (wrapError "error getting IP4 interfaces: " err))
  | Ok ifaces =>
      do r <- discoverAll w ifaces [] ;;
      match r with
      | Err err => ret (None, Some err)
      | Ok candidates =>
          run log LevelInfo "starting ip scanning" [("port", Itoa port)] ;;
          do r <- FindHostsWithOpenPort fuel w ifaces port ;;
          match r with
          | Err err =>
              ret (None,
                   Some (wrapError "error finding candidates via scan: " err))
          | Ok portCandidates =>
              let candidates :=
                candidates
                ++ ((fun candidate =>
                       "http://" +:+ candidate +:+ "/onvif/device_service")
                      <$> portCandidates) in
              run log LevelInfo "ip scanning complete"
                  [("port", Itoa port);
                   ("count", Itoa (Z.of_nat (length portCandidates)))] ;;
              run probeAll w username password candidates ∅ ;;
              ret (None, None)
          end
      end
  end.

End scan.

(** ** Worlds used as concrete inputs *)
Module Examples.
Import onvif.

Definition st0 : St := mkSt 0 [].

(** One discovery response from 10.0.0.5, answering our probe, advertising
    a video transmitter at an address without a port. *)
Definition reply : Packet :=
  {| src := "10.0.0.5:3702"; payload := "";
     Unmarshal :=
       Ok {| UUID := "urn:uuid:eccb3c9d-8031-4215-a1f6-b25e8efa52a6";
             Matches :=
               [ {| EndpointReference := "uuid:b1fc8184";
                    Types := "dn:NetworkVideoTransmitter tds:Device";
                    Scopes := "onvif://www.onvif.org/name/Amcrest";
                    XAddrs := "http://10.0.0.99/onvif/device_service" |} ]
          |} |}.

Definition socket (reads : list Packet) : Socket :=
  {| ListenPacket := None; InterfaceByName := None; JoinGroup := None;
     SetMulticastInterface := None; WriteTo := None;
     SetReadDeadline := None; ReadFrom := reads;
     ReadFromEnd := DeadlineExceeded |}.

(** A socket that cannot join the multicast group. *)
Definition deafSocket : Socket :=
  {| ListenPacket := None; InterfaceByName := None;
     JoinGroup := Some (errorString "no such device");
     SetMulticastInterface := None; WriteTo := None;
     SetReadDeadline := None; ReadFrom := [];
     ReadFromEnd := DeadlineExceeded |}.

Definition capabilities : Capabilities :=
  {| Events_Address := "http://10.0.0.5/onvif/event_service";
     WSSubscriptionPolicySupport := true; WSPullPointSupport := true;
     WSPausableSubscriptionManagerInterfaceSupport := false;
     Media_Address := "http://10.0.0.5/onvif/media_service" |}.

(** A camera that answers every request; [clockOk] tells whether it
    answers the clock request. *)
Definition camera (clockOk : bool) (k : nat) (url envelope : string)
           (s : Shape) : Exchange (shapeT s) :=
  match s with
  | SCapabilities => Response 200 (Ok capabilities)
  | SDateAndTime =>
      if clockOk then
        Response 200 (Ok {| Hour := 12; Minute := 0; Second := 0;
                            Year := 2024; Month := 7; Day := 1 |})
      else DoTraceError (errorString "request timed out")
  | SDeviceInformation =>
      Response 200 (Ok {| Manufacturer := "Amcrest"; Model := "IP5M";
                          FirmwareVersion := "2.800"; SerialNumber := "S1";
                          HardwareID := "H1" |})
  | SProfiles =>
      Response 200 (Ok [ {| Token := "MediaProfile000"; Name := "main";
                            URI := ""; Bounds_Width := 1920;
                            Bounds_Height := 1080; Streams := [] |} ])
  | SStreamUri =>
      Response 200 (Ok {| MediaURI_URI := "rtsp://10.0.0.5:554/cam";
                          InvalidAfterConnect := false;
                          InvalidAfterReboot := false; Timeout := "PT0S" |})
  end.

(** The local clock starts at 2024-07-01T12:00:05Z and advances by a
    millisecond per call; the camera's clock reads 12:00:00. *)
Definition world (clockOk : bool) (sockets : string -> Socket) : World :=
  {| uuid_NewString := fun _ => "eccb3c9d-8031-4215-a1f6-b25e8efa52a6";
     time_Now := fun k => 1719835205000000000 + Z.of_nat k * 1000000;
     httpx_NewRequest := fun _ => None;
     httpx_DoTrace := camera clockOk;
     net_Socket := sockets |}.

Definition lan : World := world true (fun _ => socket [reply]).
Definition lanNoClock : World := world false (fun _ => socket [reply]).

Definition device (username password : string) : Device :=
  NewDevice "http://10.0.0.5:80/onvif/device_service" username password.

(** A host with two interfaces, eth0 on a /30 and eth1 on a /23; of all
    the addresses only 10.0.0.5:80 accepts connections. *)
Definition twoInterfaces (sockets : string -> Socket) : scan.World :=
  {| scan.onvifWorld := world true sockets;
     scan.GetPrivateIP4Interfaces :=
       Ok [("eth0", "10.0.0.7/30"); ("eth1", "10.1.0.0/23")];
     scan.DialTimeout :=
       fun a => if String.eqb a "10.0.0.5:80" then network.Connected
                else network.DialError (errorString "connection refused");
     scan.ProbeRTSP := fun _ => Err (errorString "exit status 1") |}.

(** Discovery is answered by the camera on both interfaces. *)
Definition healthy : scan.World := twoInterfaces (fun _ => socket [reply]).

(** Discovery cannot join the multicast group on eth0 and would be
    answered on eth1. *)
Definition eth0Deaf : scan.World :=
  twoInterfaces (fun i => if String.eqb i "eth0" then deafSocket
                          else socket [reply]).

(** The same network when the process has run out of file descriptors for
    the connection to 10.0.0.6:80. *)
Definition exhausted : scan.World :=
  {| scan.onvifWorld := lan;
     scan.GetPrivateIP4Interfaces := Ok [("eth0", "10.0.0.7/30")];
     scan.DialTimeout :=
       fun a => if String.eqb a "10.0.0.6:80" then
                  network.DialError
                    (errorString
                       "dial tcp 10.0.0.6:80: socket: too many open files")
                else if String.eqb a "10.0.0.5:80" then network.Connected
                else network.DialError (errorString "connection refused");
     scan.ProbeRTSP := fun _ => Err (errorString "exit status 1") |}.

End Examples.

(** ** Package net (Go standard library): IP addresses and masks

    [net.IP] and [net.IPMask] are byte slices of any length. *)
Module net.

Definition IP : Type := list Byte.byte.
Definition IPMask : Type := list Byte.byte.

(** The value of a byte. *)
Definition val (b : Byte.byte) : Z := Z.of_N (Byte.to_N b).

(** [p[i]] where the length of [p] has been checked. *)
Definition at_ (p : list Byte.byte) (i : nat) : Z := val (nth i p Byte.x00).

Definition isZeros (p : list Byte.byte) : bool :=
  forallb (fun b => val b =? 0) p.

(** [IP.To4]: [None] is nil. *)
Definition To4 (ip : IP) : option IP :=
  if (length ip =? 4)%nat then Some ip
  else if (length ip =? 16)%nat && isZeros (take 10 ip)
          && (at_ ip 10 =? 255) && (at_ ip 11 =? 255)
       then Some (take 4 (drop 12 ip))
       else None.

Definition IPv6loopback : IP :=
  [Byte.x00; Byte.x00; Byte.x00; Byte.x00; Byte.x00; Byte.x00; Byte.x00;
   Byte.x00; Byte.x00; Byte.x00; Byte.x00; Byte.x00; Byte.x00; Byte.x00;
   Byte.x00; Byte.x01].

(** [bytealg.Equal] *)
Definition bytesEqual (a b : list Byte.byte) : bool :=
  (length a =? length b)%nat
  && forallb (fun xy => val xy.1 =? val xy.2) (zip a b).

(** [IP.IsLoopback]; [ip.Equal(IPv6loopback)] for an [ip] that [To4] refuses
    compares the bytes when the lengths agree and is false otherwise. *)
Definition IsLoopback (ip : IP) : bool :=
  match To4 ip with
  | Some ip4 => at_ ip4 0 =? 127
  | None => bytesEqual ip IPv6loopback
  end.

(** [IP.IsPrivate] *)
Definition IsPrivate (ip : IP) : bool :=
  match To4 ip with
  | Some ip4 =>
      (at_ ip4 0 =? 10)
      || ((at_ ip4 0 =? 172) && (Z.land (at_ ip4 1) 240 =? 16))
      || ((at_ ip4 0 =? 192) && (at_ ip4 1 =? 168))
  | None => (length ip =? 16)%nat && (Z.land (at_ ip 0) 254 =? 252)
  end.

(** [IPv4Mask] *)
Definition IPv4Mask (a b c d : Byte.byte) : IPMask := [a; b; c; d].

(** The loop [for v&0x80 != 0 { n++; v <<= 1 }] of [simpleMaskLength] on a
    byte [v]; a byte has eight bits and [fuel] is eight. *)
Fixpoint leadingOnes (fuel : nat) (v n : Z) : Z * Z :=
  match fuel with
  | O => (n, v)
  | S fuel' =>
      if negb (Z.land v 128 =? 0)
      then leadingOnes fuel' ((v * 2) mod 256) (n + 1)
      else (n, v)
  end.

(** [simpleMaskLength]: [None] is -1. *)
Fixpoint simpleMaskLength (mask : list Byte.byte) (n : Z) : option Z :=
  match mask with
  | [] => Some n
  | v :: rest =>
      if val v =? 255 then simpleMaskLength rest (n + 8)
      else
        let '(n, v) := leadingOnes 8 (val v) n in
        if negb (v =? 0) then None
        else if isZeros rest then Some n else None
  end.

(** [IPMask.Size] *)
Definition Size (m : IPMask) : Z * Z :=
  match simpleMaskLength m 0 with
  | None => (0, 0)
  | Some ones => (ones, Z.of_nat (length m) * 8)
  end.

(** [IP.String] of an address that [To4] accepts: dotted decimal.  [None]: the
    texts of the other addresses are not modelled. *)
Definition String_ (ip : IP) : option string :=
  match To4 ip with
  | Some p4 =>
      Some (Itoa (at_ p4 0) +:+ "." +:+ Itoa (at_ p4 1) +:+ "."
            +:+ Itoa (at_ p4 2) +:+ "." +:+ Itoa (at_ p4 3))
  | None => None
  end.

(** [net.Addr]: a [*net.IPNet], or a value of another type. *)
Inductive Addr : Type :=
| IPNet (ip : IP) (mask : IPMask)
| OtherAddr.

(** What the operating system says of one interface: its name and the answer
    of [iface.Addrs()]. *)
Record Interface : Type :=
  { Name : string; Addrs : result (list Addr) }.

End net.

(** ** Package network (src/unnamed/part_000): the interface table *)
Module hostnet.

(** The panic of an index expression out of range. *)
Definition indexOutOfRange (i len : Z) : error :=
  errorString ("runtime error: index out of range [" +:+ Itoa i
               +:+ "] with length " +:+ Itoa len).

(** The loop over the addresses of one interface: the entry of the first
    address that is an [*net.IPNet], not loopback, IPv4 and private; [None]
    when the loop ends without one.  The four index expressions on the mask
    are evaluated from left to right. *)
Fixpoint firstPrivate (addrs : list net.Addr)
  : Outcome (option network.CIDR) :=
  match addrs with
  | [] => Done None
  | net.OtherAddr :: rest => firstPrivate rest
  | net.IPNet ip ipMask :: rest =>
      if negb (net.IsLoopback ip) && bool_decide (is_Some (net.To4 ip))
         && net.IsPrivate ip
      then
        match ipMask, net.String_ ip with
        | m0 :: m1 :: m2 :: m3 :: _, Some text =>
            let mask := net.IPv4Mask m0 m1 m2 m3 in
            let bits := (net.Size mask).1 in
            Done (Some (text +:+ "/" +:+ Itoa bits))
        | m0 :: m1 :: m2 :: m3 :: _, None => NoAnswer
        | _, _ =>
            Panic (indexOutOfRange (Z.of_nat (length ipMask))
                                   (Z.of_nat (length ipMask)))
        end
      else firstPrivate rest
  end.

(** The loop over the interfaces. *)
Fixpoint eachInterface (ifaces : list net.Interface)
         (found : gmap network.IFace network.CIDR)
  : Outcome (result (gmap network.IFace network.CIDR)) :=
  match ifaces with
  | [] => Done (Ok found)
  | iface :: rest =>
      match net.Addrs iface with
      | Err err =>
          Done (Err (wrapError ("error getting address for interface "
                                +:+ Quote (net.Name iface) +:+ ": ") err))
      | Ok addrs =>
          match firstPrivate addrs with
          | Done (Some cidr) =>
              eachInterface rest (<[net.Name iface := cidr]> found)
          | Done None => eachInterface rest found
          | Panic v => Panic v
          | NoAnswer => NoAnswer
          end
      end
  end.

(** [GetPrivateIP4Interfaces], given the answer of [net.Interfaces()]. *)
Definition GetPrivateIP4Interfaces (interfaces : result (list net.Interface))
  : Outcome (result (gmap network.IFace network.CIDR)) :=
  match interfaces with
  | Err err => Done (Err (wrapError "error getting interfaces: " err))
  | Ok ifaces => eachInterface ifaces ∅
  end.

End hostnet.

(** A laptop: loopback, a wired interface with an IPv6 address and two
    private IPv4 addresses (in the 16-byte form the system reports), a
    wireless interface with a public address, and a tunnel with a 4-byte
    address whose mask is not a run of ones. *)
Module Hosts.

Definition b (n : N) : Byte.byte :=
  match Byte.of_N n with Some x => x | None => Byte.x00 end.

Definition ip4 (a0 a1 a2 a3 : N) : net.IP :=
  (b <$> [0; 0; 0; 0; 0; 0; 0; 0; 0; 0; 255; 255; a0; a1; a2; a3])%N.

Definition linkLocal6 : net.IP :=
  (b <$> [254; 128; 0; 0; 0; 0; 0; 0; 2; 0; 0; 0; 0; 0; 0; 1])%N.

Definition mask4 (a0 a1 a2 a3 : N) : net.IPMask := (b <$> [a0; a1; a2; a3])%N.

Definition eth0Addrs : list net.Addr :=
  [net.IPNet linkLocal6 ((b <$> [255; 255; 255; 255; 255; 255; 255; 255;
                                 0; 0; 0; 0; 0; 0; 0; 0])%N);
   net.OtherAddr;
   net.IPNet (ip4 192 168 1 23) (mask4 255 255 255 0);
   net.IPNet (ip4 10 0 0 7) (mask4 255 255 255 252)].

Definition eth0 : net.Interface :=
  {| net.Name := "eth0"; net.Addrs := Ok eth0Addrs |}.

Definition laptop : list net.Interface :=
  [ {| net.Name := "lo";
       net.Addrs := Ok [net.IPNet (ip4 127 0 0 1) (mask4 255 0 0 0)] |};
    eth0;
    {| net.Name := "wlan0";
       net.Addrs := Ok [net.IPNet (ip4 8 8 8 8) (mask4 255 255 255 0)] |};
    {| net.Name := "tun0";
       net.Addrs := Ok [net.IPNet (mask4 172 16 5 1)
                                  (mask4 255 255 0 255)] |} ].

End Hosts.

(** ** More worlds used as concrete inputs *)
Module MoreExamples.
Import onvif.

(** A socket on which the camera answers and the next read then fails for a
    reason other than the deadline. *)
Definition brokenSocket : Socket :=
  {| ListenPacket := None; InterfaceByName := None; JoinGroup := None;
     SetMulticastInterface := None; WriteTo := None;
     SetReadDeadline := None; ReadFrom := [Examples.reply];
     ReadFromEnd := ReadFailed (errorString "network is down") |}.

Definition brokenLan : World := Examples.world true (fun _ => brokenSocket).

(** A camera with two profiles that answers the stream request of the first
    and not of the second. *)
Definition profile (token name : string) : Profile :=
  {| Token := token; Name := name; URI := ""; Bounds_Width := 1920;
     Bounds_Height := 1080; Streams := [] |}.

Definition twoProfiles (secondOk : bool) (k : nat) (url envelope : string)
           (s : Shape) : Exchange (shapeT s) :=
  match s return Exchange (shapeT s) with
  | SProfiles => Response 200 (Ok [profile "main" "Main"; profile "sub" "Sub"])
  | SStreamUri =>
      if GoStrings.Contains envelope "<trt:ProfileToken>sub<" then
        if secondOk then
          Response 200 (Ok {| MediaURI_URI := "rtsp://10.0.0.5:554/sub";
                              InvalidAfterConnect := false;
                              InvalidAfterReboot := false; Timeout := "PT0S" |})
        else Response 500 (Err (errorString "EOF"))
      else
        Response 200 (Ok {| MediaURI_URI := "rtsp://10.0.0.5:554/main";
                            InvalidAfterConnect := false;
                            InvalidAfterReboot := false; Timeout := "PT0S" |})
  | SCapabilities => Examples.camera true k url envelope SCapabilities
  | SDateAndTime => Examples.camera true k url envelope SDateAndTime
  | SDeviceInformation =>
      Examples.camera true k url envelope SDeviceInformation
  end.

Definition studio (secondOk : bool) : World :=
  {| uuid_NewString := fun _ => "eccb3c9d-8031-4215-a1f6-b25e8efa52a6";
     time_Now := fun k => 1719835205000000000 + Z.of_nat k * 1000000;
     httpx_NewRequest := fun _ => None;
     httpx_DoTrace := twoProfiles secondOk;
     net_Socket := fun _ => Examples.socket [Examples.reply] |}.

(** The device of the examples once its capabilities are known. *)
Definition known : Device :=
  withCapabilities (Examples.device "" "") Examples.capabilities.

(** The device a computation ended with. *)
Definition deviceOf {A} (r : Outcome (Device * A) * St) (d : Device) : Device :=
  match r with
  | (Done (d', _), _) => d'
  | _ => d
  end.

(** The device of the examples after a handshake with the camera. *)
Definition probed : Device :=
  deviceOf (Probe Examples.lan (Examples.device "" "") Examples.st0)
           (Examples.device "" "").

(** A camera whose stream URI comes with a leading blank. *)
Definition sloppyCamera (k : nat) (url envelope : string) (s : Shape)
  : Exchange (shapeT s) :=
  match s return Exchange (shapeT s) with
  | SProfiles => Response 200 (Ok [profile "main" "Main"])
  | SStreamUri =>
      Response 200 (Ok {| MediaURI_URI := " rtsp://10.0.0.5:554/main";
                          InvalidAfterConnect := false;
                          InvalidAfterReboot := false; Timeout := "PT0S" |})
  | SCapabilities => Examples.camera true k url envelope SCapabilities
  | SDateAndTime => Examples.camera true k url envelope SDateAndTime
  | SDeviceInformation =>
      Examples.camera true k url envelope SDeviceInformation
  end.

Definition sloppy : scan.World :=
  {| scan.onvifWorld :=
       {| uuid_NewString := fun _ => "eccb3c9d-8031-4215-a1f6-b25e8efa52a6";
          time_Now := fun k => 1719835205000000000 + Z.of_nat k * 1000000;
          httpx_NewRequest := fun _ => None;
          httpx_DoTrace := sloppyCamera;
          net_Socket := fun _ => Examples.socket [Examples.reply] |};
     scan.GetPrivateIP4Interfaces := Ok [("eth0", "10.0.0.7/30")];
     scan.DialTimeout := fun _ => network.DialError (errorString "timeout");
     scan.ProbeRTSP := fun _ => Err (errorString "exit status 1") |}.

End MoreExamples.

(** * Properties of package network *)
Module NetworkSpec.
Import netip network.

(** The xor of two 32-bit values is a 32-bit value. *)
Lemma lxor_uint32 (a b : Z) :
  0 <= a < 2 ^ 32 -> 0 <= b < 2 ^ 32 -> 0 <= Z.lxor a b < 2 ^ 32.
Proof.
  intros Ha Hb.
  assert (H0 : 0 <= Z.lxor a b) by (apply Z.lxor_nonneg; lia).
  split; [exact H0|].
  destruct (Z.eq_dec (Z.lxor a b) 0) as [->|Hne]; [lia|].
  apply Z.log2_lt_pow2; [lia|].
  eapply Z.le_lt_trans; [apply Z.log2_lxor; lia|].
  assert (Hl : forall x, 0 <= x < 2 ^ 32 -> Z.log2 x < 32).
  { intros x Hx. destruct (Z.eq_dec x 0) as [->|]; [cbn; lia|].
    apply Z.log2_lt_pow2; lia. }
  specialize (Hl a Ha) as Hla. specialize (Hl b Hb) as Hlb. lia.
Qed.

Section Masking.
Variable p : Prefix.
Hypothesis Hbits : 0 <= Bits p <= 32.

Local Abbreviation h := (32 - Bits p).
Local Abbreviation n := (2 ^ (32 - Bits p)).
Local Abbreviation base := (PAddr (Masked p)).

Lemma hostbits_pos : 0 < n.
Proof using Hbits. apply Z.pow_pos_nonneg; lia. Qed.

Lemma pow32_split : 2 ^ 32 = 2 ^ Bits p * n.
Proof using Hbits.
  rewrite <- Z.pow_add_r by lia. f_equal. lia.
Qed.

Lemma mask_range : 0 <= 2 ^ 32 - n < 2 ^ 32.
Proof using Hbits.
  pose proof hostbits_pos. rewrite pow32_split.
  assert (0 < 2 ^ Bits p) by (apply Z.pow_pos_nonneg; lia). nia.
Qed.

Lemma base_range : 0 <= base < 2 ^ 32.
Proof using Hbits.
  cbn [Masked PAddr].
  pose proof mask_range as Hm.
  assert (Hl : Z.land (PAddr p) (2 ^ 32 - n)
               = Z.land (PAddr p) (2 ^ 32 - n) mod 2 ^ 32).
  { rewrite <- Z.land_ones by lia. rewrite <- Z.land_assoc.
    rewrite (Z.land_ones (2 ^ 32 - n)) by lia.
    rewrite Z.mod_small by lia. reflexivity. }
  rewrite Hl. apply Z.mod_pos_bound. lia.
Qed.

Lemma base_aligned : base mod n = 0.
Proof using Hbits.
  cbn [Masked PAddr].
  assert (0 <= h) by lia.
  rewrite <- Z.land_ones by lia. rewrite <- Z.land_assoc.
  rewrite (Z.land_ones (2 ^ 32 - 2 ^ h)) by lia.
  replace ((2 ^ 32 - 2 ^ h) mod 2 ^ h) with 0; [apply Z.land_0_r|].
  symmetry. apply Z.mod_divide; [pose proof hostbits_pos; lia|].
  exists (2 ^ Bits p - 1). rewrite pow32_split. lia.
Qed.

Lemma base_top : base + n <= 2 ^ 32.
Proof using Hbits.
  pose proof base_range as Hr. pose proof base_aligned as Ha.
  pose proof hostbits_pos as Hn.
  apply Z.mod_divide in Ha; [|lia]. destruct Ha as [q Hq].
  rewrite pow32_split in *. rewrite Hq in *.
  assert (q < 2 ^ Bits p) by nia. nia.
Qed.

(** On 32-bit values, [Contains] compares the network parts. *)
Lemma Contains_spec (a : Z) :
  0 <= a < 2 ^ 32 ->
  Contains (Masked p) (Addr4 a) = (a / n =? base / n).
Proof using Hbits.
  intros Ha. pose proof base_range as Hb. pose proof hostbits_pos as Hn.
  unfold Contains. change (Bits (Masked p)) with (Bits p).
  assert (Hh : 0 <= h <= 32) by lia.
  assert (Hland : Z.land h 63 = h).
  { change 63 with (Z.ones 6). rewrite Z.land_ones by lia.
    apply Z.mod_small. change (2 ^ 6) with 64. lia. }
  rewrite Hland, Z.shiftr_lxor, !Z.shiftr_div_pow2 by lia.
  assert (Hqa : 0 <= a / n < 2 ^ 32).
  { split; [apply Z.div_pos; lia|].
    apply Z.le_lt_trans with a; [|lia]. apply Z.div_le_upper_bound; nia. }
  assert (Hqb : 0 <= base / n < 2 ^ 32).
  { split; [apply Z.div_pos; lia|].
    apply Z.le_lt_trans with base; [|lia].
    apply Z.div_le_upper_bound; nia. }
  rewrite Z.mod_small by (apply lxor_uint32; lia).
  destruct (Z.eqb_spec (a / n) (base / n)) as [->|Hne].
  - rewrite Z.lxor_nilpotent. reflexivity.
  - apply Z.eqb_neq. intros Hx. apply Hne, Z.lxor_eq, Hx.
Qed.

Lemma host_div (k : Z) : 0 <= k -> (base + k) / n = base / n + k / n.
Proof using Hbits.
  intros Hk. pose proof hostbits_pos. pose proof base_aligned as Ha.
  apply Z.mod_divide in Ha; [|lia]. destruct Ha as [q ->].
  rewrite Z.div_add_l, Z.div_mul by lia. reflexivity.
Qed.

Lemma Contains_host (k : Z) :
  0 <= k < n -> Contains (Masked p) (Addr4 (base + k)) = true.
Proof using Hbits.
  intros Hk. pose proof base_range. pose proof base_top.
  rewrite Contains_spec by lia. rewrite host_div by lia.
  rewrite (Z.div_small k) by lia. apply Z.eqb_eq. lia.
Qed.

(** The address the loop holds after [k] iterations. *)
Definition addrAt (k : Z) : Addr :=
  if base + k =? 2 ^ 32 then AddrZero else Addr4 (base + k).

Lemma Contains_end : Contains (Masked p) (addrAt n) = false.
Proof using Hbits.
  pose proof base_range. pose proof base_top. pose proof hostbits_pos.
  unfold addrAt. destruct (Z.eqb_spec (base + n) (2 ^ 32)); [reflexivity|].
  rewrite Contains_spec by lia. rewrite host_div by lia.
  rewrite Z.div_same by lia. apply Z.eqb_neq. lia.
Qed.

Lemma Next_addrAt (k : Z) :
  0 <= k < n -> Next (Addr4 (base + k)) = addrAt (k + 1).
Proof using Hbits.
  intros Hk. pose proof base_range. pose proof base_top.
  unfold Next, addrAt. rewrite Z.add_assoc.
  destruct (Z.eqb_spec (base + k + 1) (2 ^ 32)) as [->|Hne].
  - rewrite Z.mod_same by lia. reflexivity.
  - rewrite Z.mod_small by lia.
    destruct (Z.eqb_spec (base + k + 1) 0); [lia | reflexivity].
Qed.

(** The loop started [r] addresses before the end of the prefix appends
    exactly those [r] addresses and stops. *)
Lemma collectIPs_run (r fuel : nat) (acc : list string) :
  (r < fuel)%nat -> Z.of_nat r <= n ->
  collectIPs fuel (Masked p) (addrAt (n - Z.of_nat r)) acc
  = Some (acc ++ ((fun a => String_ (Addr4 a))
                    <$> seqZ (base + (n - Z.of_nat r)) (Z.of_nat r))).
Proof using Hbits.
  revert fuel acc. induction r as [|r IH]; intros fuel acc Hf Hr.
  - destruct fuel as [|fuel]; [lia|]. cbn [collectIPs].
    replace (n - Z.of_nat 0) with n by lia. rewrite Contains_end.
    cbn. rewrite seqZ_nil by lia. cbn. rewrite app_nil_r. reflexivity.
  - destruct fuel as [|fuel]; [lia|]. cbn [collectIPs].
    pose proof base_range. pose proof base_top.
    set (k := n - Z.of_nat (S r)).
    assert (Hk : 0 <= k < n) by (subst k; lia).
    assert (Hat : addrAt k = Addr4 (base + k)).
    { unfold addrAt. destruct (Z.eqb_spec (base + k) (2 ^ 32)); [lia|done]. }
    rewrite Hat, Contains_host by lia. cbn [negb].
    rewrite Next_addrAt by lia.
    replace (k + 1) with (n - Z.of_nat r) by (subst k; lia).
    rewrite IH by lia. f_equal.
    rewrite (seqZ_cons (base + k)) by lia. cbn [fmap list_fmap].
    rewrite <- app_assoc. cbn [app]. do 3 f_equal.
    replace (Z.succ (base + k)) with (base + (n - Z.of_nat r))
      by (subst k; lia).
    f_equal. lia.
Qed.

Lemma collectIPs_all (fuel : nat) :
  n < Z.of_nat fuel ->
  collectIPs fuel (Masked p) (Addr_of (Masked p)) []
  = Some ((fun a => String_ (Addr4 a)) <$> seqZ base n).
Proof using Hbits.
  intros Hf. pose proof hostbits_pos. pose proof base_range.
  pose proof (collectIPs_run (Z.to_nat n) fuel []) as Hrun.
  rewrite Z2Nat.id in Hrun by lia.
  replace (n - n) with 0 in Hrun by lia.
  unfold addrAt in Hrun. rewrite Z.add_0_r in Hrun.
  destruct (Z.eqb_spec base (2 ^ 32)); [lia|].
  unfold Addr_of. rewrite Hrun by lia. reflexivity.
Qed.

End Masking.

Lemma ParsePrefix_bits (s : string) (p : Prefix) :
  ParsePrefix s = Parsed p -> 0 <= Bits p <= 32.
Proof.
  unfold ParsePrefix, parsePrefix.
  destruct (GoStrings.Contains s ":"); [done|].
  destruct (GoStrings.cutLast s "/") as [[ipStr bitsStr]|]; [|done].
  destruct (ParseAddr ipStr) as [ip|]; [|done].
  destruct (parseBits bitsStr) as [bits|]; [|done].
  destruct (bits <? 0) eqn:Hlo; [done|].
  destruct (bits >? 32) eqn:Hhi; [done|]. cbn [orb].
  intros H. inversion H; subst. cbn [Bits]. lia.
Qed.

(** The expansion of any IPv4 prefix: with more iterations than the prefix
    has addresses, [GetIPsOnNetwork] returns the texts of the consecutive
    addresses from the masked address on, as many as the prefix has. *)
Lemma GetIPsOnNetwork_expansion (cidr : CIDR) (p : Prefix) (fuel : nat) :
  ParsePrefix cidr = Parsed p ->
  2 ^ (32 - Bits p) < Z.of_nat fuel ->
  GetIPsOnNetwork fuel cidr
  = Some (Ok ((fun a => String_ (Addr4 a))
                <$> seqZ (PAddr (Masked p)) (2 ^ (32 - Bits p)))).
Proof.
  intros Hparse Hfuel. pose proof (ParsePrefix_bits _ _ Hparse) as Hb.
  unfold GetIPsOnNetwork. rewrite Hparse.
  rewrite collectIPs_all by lia. reflexivity.
Qed.

Lemma GetIPsOnNetwork_length (cidr : CIDR) (p : Prefix) (fuel : nat) :
  ParsePrefix cidr = Parsed p ->
  2 ^ (32 - Bits p) < Z.of_nat fuel ->
  exists ips,
    GetIPsOnNetwork fuel cidr = Some (Ok ips)
    /\ Z.of_nat (length ips) = 2 ^ (32 - Bits p).
Proof.
  intros Hparse Hfuel. pose proof (ParsePrefix_bits _ _ Hparse) as Hb.
  rewrite (GetIPsOnNetwork_expansion cidr p fuel Hparse Hfuel).
  eexists. split; [reflexivity|].
  rewrite length_fmap, length_seqZ.
  assert (0 < 2 ^ (32 - Bits p)) by (apply Z.pow_pos_nonneg; lia). lia.
Qed.

(** C8. For every IPv4 CIDR text that parses to a prefix of length 24 to 32,
    [GetIPsOnNetwork] returns (whenever the loop is given more than 256
    iterations) without error a list of exactly [2^(32-prefixLen)]
    addresses, the texts of pairwise distinct addresses that all lie in the
    masked prefix. *)
Theorem GetIPsOnNetwork_count (cidr : CIDR) (p : Prefix) (fuel : nat) :
  ParsePrefix cidr = Parsed p ->
  24 <= Bits p <= 32 ->
  (256 < fuel)%nat ->
  exists addrs : list Z,
    GetIPsOnNetwork fuel cidr
    = Some (Ok ((fun a => String_ (Addr4 a)) <$> addrs))
    /\ Z.of_nat (length ((fun a => String_ (Addr4 a)) <$> addrs))
       = 2 ^ (32 - Bits p)
    /\ NoDup addrs
    /\ Forall (fun a => Contains (Masked p) (Addr4 a) = true) addrs.
Proof.
  intros Hparse Hb Hfuel.
  assert (Hb' : 0 <= Bits p <= 32) by lia.
  assert (Hn : 0 < 2 ^ (32 - Bits p) <= 256).
  { split; [apply Z.pow_pos_nonneg; lia|].
    change 256 with (2 ^ 8). apply Z.pow_le_mono_r; lia. }
  exists (seqZ (PAddr (Masked p)) (2 ^ (32 - Bits p))).
  split; [|split; [|split]].
  - apply GetIPsOnNetwork_expansion; [done | lia].
  - rewrite length_fmap, length_seqZ. lia.
  - apply NoDup_seqZ.
  - apply list.Forall_forall. intros a Ha. apply elem_of_seqZ in Ha.
    replace a with (PAddr (Masked p) + (a - PAddr (Masked p))) by lia.
    apply Contains_host; lia.
Qed.

Lemma GetIPsOnNetwork_count_witness :
  exists addrs : list Z,
    GetIPsOnNetwork 300 "192.168.1.7/30"
    = Some (Ok ((fun a => String_ (Addr4 a)) <$> addrs))
    /\ Z.of_nat (length ((fun a => String_ (Addr4 a)) <$> addrs))
       = 2 ^ (32 - 30)
    /\ NoDup addrs
    /\ Forall (fun a => Contains (Masked (PrefixFrom 3232235783 30))
                          (Addr4 a) = true) addrs.
Proof.
  apply (GetIPsOnNetwork_count "192.168.1.7/30" (PrefixFrom 3232235783 30) 300).
  - reflexivity.
  - cbn; lia.
  - lia.
Defined.

End NetworkSpec.

(** * Reasoning about effects *)
Module Effects.

Lemma bind_Done {A B} (m : M A) (k : A -> M B) st a st1 :
  m st = (Done a, st1) -> bind m k st = k a st1.
Proof. intros H. unfold bind. rewrite H. reflexivity. Qed.

(** A computation that ended in a value went through a value of its first
    part. *)
Lemma bind_inv_Done {A B} (m : M A) (k : A -> M B) st b st' :
  bind m k st = (Done b, st') ->
  exists a st1, m st = (Done a, st1) /\ k a st1 = (Done b, st').
Proof.
  unfold bind. destruct (m st) as [[a|v|] st1]; intros H; try discriminate.
  exists a, st1. split; [reflexivity | exact H].
Qed.

Lemma log_run level msg attrs st :
  log level msg attrs st
  = (Done tt, mkSt (tick st) (trace st ++ [EvLog level msg attrs])).
Proof. reflexivity. Qed.

(** [emits P m]: whatever the outcome, [m] only appends to the trace, and
    every event it appends satisfies [P]. *)
Definition emits {A} (P : Event -> Prop) (m : M A) : Prop :=
  forall st, exists evs,
    trace (snd (m st)) = trace st ++ evs /\ Forall P evs.

Lemma emits_ret {A} P (a : A) : emits P (ret a).
Proof. intros st. exists []. cbn. rewrite app_nil_r. auto. Qed.

Lemma emits_next P : emits P next.
Proof. intros st. exists []. cbn. rewrite app_nil_r. auto. Qed.

Lemma emits_panic {A} P v : emits P (@panic A v).
Proof. intros st. exists []. cbn. rewrite app_nil_r. auto. Qed.

Lemma emits_noAnswer {A} P : emits P (@noAnswer A).
Proof. intros st. exists []. cbn. rewrite app_nil_r. auto. Qed.

Lemma emits_emit (P : Event -> Prop) e : P e -> emits P (emit e).
Proof. intros H st. exists [e]. cbn. auto. Qed.

Lemma emits_log (P : Event -> Prop) level msg attrs :
  P (EvLog level msg attrs) -> emits P (log level msg attrs).
Proof. apply emits_emit. Qed.

Lemma emits_bind {A B} P (m : M A) (k : A -> M B) :
  emits P m -> (forall a, emits P (k a)) -> emits P (bind m k).
Proof.
  intros Hm Hk st. destruct (Hm st) as (evs & Ht & Hp).
  unfold bind. destruct (m st) as [[a|v|] st1]; cbn in Ht.
  - destruct (Hk a st1) as (evs' & Ht' & Hp').
    exists (evs ++ evs'). rewrite Ht', Ht, app_assoc. split; [done|].
    apply Forall_app; auto.
  - exists evs. auto.
  - exists evs. auto.
Qed.

Lemma emits_weaken {A} (P Q : Event -> Prop) (m : M A) :
  (forall e, P e -> Q e) -> emits P m -> emits Q m.
Proof.
  intros HPQ Hm st. destruct (Hm st) as (evs & Ht & Hp).
  exists evs. split; [done|]. eapply Forall_impl; eauto.
Qed.

Create HintDb effects.
#[export] Hint Resolve emits_ret emits_next emits_panic emits_noAnswer
  emits_emit emits_log : effects.

(** Decompose a goal [emits P m] along the structure of [m]. *)
Ltac emits_step :=
  lazymatch goal with
  | |- emits _ (bind _ _) => apply emits_bind; [| intros ?]
  | |- emits _ (match ?x with _ => _ end) => destruct x
  | |- emits _ (if ?b then _ else _) => destruct b
  | |- emits _ (ret _) => apply emits_ret
  | |- emits _ next => apply emits_next
  | |- emits _ (panic _) => apply emits_panic
  | |- emits _ noAnswer => apply emits_noAnswer
  | |- emits _ (emit _) => apply emits_emit; cbn; auto
  | |- emits _ (log _ _ _) => apply emits_log; cbn; auto
  end.

End Effects.

(** * Properties of package onvif: discovery *)
Module DiscoverySpec.
Import onvif Effects.

(** [e] is the endpoint the code derives from match [m] of a response
    received from [src]: the declared types name a video transmitter, the
    advertised address parses, and [e] is that address with the host
    replaced by the IP of [src] and the advertised port, or 80. *)
Definition corrected (src : string) (m : ProbeMatch) (e : string) : Prop :=
  GoStrings.Contains (Types m) "NetworkVideoTransmitter" = true
  /\ exists endpoint,
      url.Parse (XAddrs m) = url.Parsed endpoint
      /\ e = url.String_
               (url.setHost endpoint
                  (ipFromAddr src +:+ ":"
                   +:+ (if url.isEmpty (url.Port endpoint) then "80"
                        else url.Port endpoint))).

Lemma matchLoop_sound (src : string) (ms : list ProbeMatch) :
  forall ts0 st ts st',
    matchLoop src ms ts0 st = (Done ts, st') ->
    exists new,
      ts = ts0 ++ new
      /\ Forall (fun e => exists m, m ∈ ms /\ corrected src m e) new.
Proof.
  induction ms as [|m ms IH]; intros ts0 st ts st' H; cbn [matchLoop] in H.
  - inversion H; subst. exists []. rewrite app_nil_r. auto.
  - assert (Hweak : forall new,
               Forall (fun e => exists m', m' ∈ ms /\ corrected src m' e) new ->
               Forall (fun e => exists m', m' ∈ m :: ms /\ corrected src m' e)
                      new).
    { intros new Hf. eapply Forall_impl; [exact Hf|]. intros e (m' & Hin & Hc).
      exists m'. split; [by right | done]. }
    destruct (GoStrings.Contains (Types m) "NetworkVideoTransmitter") eqn:Hty.
    + destruct (url.Parse (XAddrs m)) as [endpoint|err|] eqn:Hp.
      * apply bind_inv_Done in H as (? & st1 & _ & H).
        apply IH in H as (new & -> & Hnew).
        exists (url.String_
                  (url.setHost endpoint
                     (ipFromAddr src +:+ ":"
                      +:+ (if url.isEmpty (url.Port endpoint) then "80"
                           else url.Port endpoint))) :: new).
        split; [by rewrite <- app_assoc|].
        constructor; [|by apply Hweak].
        exists m. split; [by left|]. split; [done|]. eauto.
      * apply bind_inv_Done in H as (? & st1 & _ & H).
        apply IH in H as (new & -> & Hnew). exists new.
        split; [done | by apply Hweak].
      * discriminate.
    + apply IH in H as (new & -> & Hnew). exists new.
      split; [done | by apply Hweak].
Qed.

(** One endpoint of the result, traced back to a response that answers the
    probe [msgID] and to one of its matches. *)
Definition fromMatchingResponse (msgID : string) (reads : list Packet)
           (e : string) : Prop :=
  exists pkt resp m,
    pkt ∈ reads /\ Unmarshal pkt = Ok resp
    /\ GoStrings.Contains (UUID resp) msgID = true
    /\ m ∈ Matches resp /\ corrected (src pkt) m e.

Lemma readLoop_sound (msgID : string) (fin : ReadEnd) (reads : list Packet) :
  forall ts0 st ts st',
    readLoop msgID reads fin ts0 st = (Done (Ok ts), st') ->
    exists new,
      ts = ts0 ++ new /\ Forall (fromMatchingResponse msgID reads) new.
Proof.
  induction reads as [|pkt reads IH]; intros ts0 st ts st' H;
    cbn [readLoop] in H.
  - destruct fin.
    + inversion H; subst. exists []. rewrite app_nil_r. auto.
    + apply bind_inv_Done in H as (? & ? & _ & H). discriminate.
  - assert (Hweak : forall new,
               Forall (fromMatchingResponse msgID reads) new ->
               Forall (fromMatchingResponse msgID (pkt :: reads)) new).
    { intros new Hf. eapply Forall_impl; [exact Hf|].
      intros e (p & r & m & Hin & Hrest). exists p, r, m.
      split; [by right | done]. }
    apply bind_inv_Done in H as (? & st1 & _ & H).
    destruct (Unmarshal pkt) as [resp|err] eqn:Hu.
    + destruct (GoStrings.Contains (UUID resp) msgID) eqn:Hid; cbn [negb] in H.
      * apply bind_inv_Done in H as (ts1 & st2 & Hm & H).
        apply matchLoop_sound in Hm as (new1 & -> & Hnew1).
        apply IH in H as (new & -> & Hnew).
        exists (new1 ++ new). split; [by rewrite app_assoc|].
        apply Forall_app. split; [|by apply Hweak].
        eapply Forall_impl; [exact Hnew1|].
        intros e (m & Hin & Hc). exists pkt, resp, m.
        split; [by left|]. auto.
      * apply bind_inv_Done in H as (? & st2 & _ & H).
        apply IH in H as (new & -> & Hnew). exists new.
        split; [done | by apply Hweak].
    + apply bind_inv_Done in H as (? & st2 & _ & H).
      apply IH in H as (new & -> & Hnew). exists new.
      split; [done | by apply Hweak].
Qed.

(** The probe identifier of a run started in state [st]. *)
Definition msgIDOf (w : World) (st : St) : string :=
  uuid_NewString w (tick st).

(** C6. Every endpoint that [GetONVIFVideoTransmitters] returns comes from a
    received response whose RelatesTo field contains the identifier of the
    probe just sent and from a match of that response whose Types field
    contains the video-transmitter marker; a response failing either test
    contributes nothing to the result. *)
Theorem GetONVIFVideoTransmitters_only_matching
        (w : World) (ifaceName : string) (st st' : St) (ts : list string) :
  GetONVIFVideoTransmitters w ifaceName st = (Done (Ok ts), st') ->
  forall e, e ∈ ts ->
    exists pkt resp m,
      pkt ∈ ReadFrom (net_Socket w ifaceName)
      /\ Unmarshal pkt = Ok resp
      /\ GoStrings.Contains (UUID resp) (msgIDOf w st) = true
      /\ m ∈ Matches resp
      /\ GoStrings.Contains (Types m) "NetworkVideoTransmitter" = true
      /\ corrected (src pkt) m e.
Proof.
  intros H e He. unfold GetONVIFVideoTransmitters in H.
  apply bind_inv_Done in H as (i & st1 & Hi & H).
  inversion Hi; subst i st1; clear Hi.
  destruct (ListenPacket _); [discriminate H|].
  destruct (InterfaceByName _); [discriminate H|].
  destruct (JoinGroup _); [discriminate H|].
  destruct (SetMulticastInterface _); [discriminate H|].
  destruct (WriteTo _); [discriminate H|].
  apply bind_inv_Done in H as (? & st2 & _ & H).
  destruct (SetReadDeadline _); [discriminate H|].
  apply readLoop_sound in H as (new & -> & Hnew).
  rewrite app_nil_l in He.
  rewrite list.Forall_forall in Hnew.
  destruct (Hnew e He) as (pkt & resp & m & Hin & Hu & Hid & Hm & Hc).
  exists pkt, resp, m. repeat split; try done; apply Hc.
Qed.

Lemma GetONVIFVideoTransmitters_only_matching_witness :
  exists pkt resp m,
    pkt ∈ ReadFrom (net_Socket Examples.lan "eth0")
    /\ Unmarshal pkt = Ok resp
    /\ GoStrings.Contains (UUID resp) (msgIDOf Examples.lan Examples.st0)
       = true
    /\ m ∈ Matches resp
    /\ GoStrings.Contains (Types m) "NetworkVideoTransmitter" = true
    /\ corrected (src pkt) m "http://10.0.0.5:80/onvif/device_service".
Proof.
  eapply (GetONVIFVideoTransmitters_only_matching
            Examples.lan "eth0" Examples.st0).
  - vm_compute. reflexivity.
  - left.
Defined.

(** The advertised address of the scenario, parsed. *)
Definition advertised : url.URL :=
  {| url.Scheme := "http"; url.Opaque := ""; url.User := None;
     url.Host := "10.0.0.99"; url.Path := "/onvif/device_service";
     url.RawPath := ""; url.OmitHost := false; url.ForceQuery := false;
     url.RawQuery := ""; url.Fragment := ""; url.RawFragment := "" |}.

Lemma Parse_advertised :
  url.Parse "http://10.0.0.99/onvif/device_service" = url.Parsed advertised.
Proof. vm_compute. reflexivity. Qed.

(** C1, as the code has it. For a discovery response that answers the probe
    and whose one match names a video transmitter at the advertised address
    http://10.0.0.99/onvif/device_service (no port), received from UDP
    source address 10.0.0.5, [GetONVIFVideoTransmitters] returns exactly
    http://10.0.0.5:80/onvif/device_service: the host is replaced by the
    source address of the packet and the default port 80 is written out. *)
Theorem GetONVIFVideoTransmitters_default_port
        (w : World) (ifaceName : string) (st : St)
        (pkt : Packet) (resp : ProbeResponse) (m : ProbeMatch) :
  net_Socket w ifaceName = Examples.socket [pkt] ->
  ipFromAddr (src pkt) = "10.0.0.5" ->
  Unmarshal pkt = Ok resp ->
  GoStrings.Contains (UUID resp) (msgIDOf w st) = true ->
  Matches resp = [m] ->
  GoStrings.Contains (Types m) "NetworkVideoTransmitter" = true ->
  XAddrs m = "http://10.0.0.99/onvif/device_service" ->
  fst (GetONVIFVideoTransmitters w ifaceName st)
  = Done (Ok ["http://10.0.0.5:80/onvif/device_service"]).
Proof.
  intros Hsock Hip Hu Hid Hm Hty Hx.
  unfold GetONVIFVideoTransmitters. unfold bind at 1. cbn [next].
  rewrite Hsock. cbn [Examples.socket ListenPacket InterfaceByName JoinGroup
                      SetMulticastInterface WriteTo SetReadDeadline ReadFrom
                      ReadFromEnd].
  unfold bind at 1. cbn [emit]. cbn [readLoop].
  unfold bind at 1. rewrite log_run. rewrite Hu.
  fold (msgIDOf w st). rewrite Hid. cbn [negb].
  unfold bind at 1. rewrite Hm. cbn [matchLoop]. rewrite Hty, Hx.
  rewrite Parse_advertised.
  unfold bind at 1. rewrite log_run. rewrite Hip.
  reflexivity.
Qed.

Lemma GetONVIFVideoTransmitters_default_port_witness :
  fst (GetONVIFVideoTransmitters Examples.lan "eth0" Examples.st0)
  = Done (Ok ["http://10.0.0.5:80/onvif/device_service"]).
Proof.
  eapply (GetONVIFVideoTransmitters_default_port
            Examples.lan "eth0" Examples.st0 Examples.reply).
  - reflexivity.
  - vm_compute. reflexivity.
  - reflexivity.
  - vm_compute. reflexivity.
  - reflexivity.
  - vm_compute. reflexivity.
  - reflexivity.
Defined.

(** C1, as the specification words it, fails: in the scenario the endpoint
    returned carries the port. *)
Lemma endpoint_without_port_counterexample :
  fst (GetONVIFVideoTransmitters Examples.lan "eth0" Examples.st0)
  <> Done (Ok ["http://10.0.0.5/onvif/device_service"]).
Proof. vm_compute. intros H. discriminate H. Qed.

End DiscoverySpec.

(** * Properties of package onvif: the handshake *)
Module DeviceSpec.
Import onvif Effects.

#[local] Arguments envelopeOf : simpl never.
#[local] Arguments securityHeader : simpl never.
#[local] Arguments time.FormatRFC3339Nano : simpl never.
#[local] Arguments Quote : simpl never.
#[local] Arguments Itoa : simpl never.
#[local] Arguments String.append : simpl never.

(** The security header and the stamp [makeRequest] builds in state [st]:
    none without a user name; otherwise a fresh nonce and the local clock
    shifted by the clock offset the device holds. *)
Definition authOf (w : World) (d : Device) (st : St)
  : string * option AuthStamp :=
  if negb (url.isEmpty (Username d)) then
    let nonce := uuid_NewString w (tick st) in
    let now := time_Now w (S (tick st)) in
    let created := time.FormatRFC3339Nano (time.Add now (ClockOffset d)) in
    (securityHeader d nonce created,
     Some {| nonce := nonce; localNow := now; created := created |})
  else (EmptyString, None).

(** The state after the header is built. *)
Definition afterAuth (d : Device) (st : St) : St :=
  if negb (url.isEmpty (Username d)) then mkSt (S (S (tick st))) (trace st)
  else st.

(** What [makeRequest] makes of an exchange. *)
Definition verdict {R} (url : string) (ex : Exchange R) : result R :=
  match ex with
  | DoTraceError err =>
      Err (wrapError ("failed to make request to URL " +:+ Quote url +:+ ": ")
                     err)
  | Response status decoded =>
      if negb (status =? 200) then
        Err (errorString ("non 200 status " +:+ Itoa status +:+ " for "
                          +:+ Quote url))
      else match decoded with
           | Err err => Err (wrapError "failed to unmarshal response: " err)
           | Ok r => Ok r
           end
  end.

(** [makeRequest] always returns: without a trace and without a request
    sent when the request cannot be built, otherwise with a trace after
    exactly one POST. *)
Lemma makeRequest_spec (w : World) (d : Device) (s : Shape)
      (url body : string) (st : St) :
  let header := fst (authOf w d st) in
  let stamp := snd (authOf w d st) in
  let st1 := afterAuth d st in
  makeRequest w d s url body st
  = match httpx_NewRequest w url with
    | Some err =>
        (Done (None,
               Err (wrapError ("failed to create request for url "
                               +:+ Quote url +:+ ": ") err)), st1)
    | None =>
        (Done (Some (mkTrace url),
               verdict url (httpx_DoTrace w (tick st1) url
                                          (envelopeOf header body) s)),
         mkSt (S (tick st1))
              (trace st ++ [EvPost url (envelopeOf header body) stamp;
                            EvLog LevelDebug "onvif request" [("url", url)]]))
    end.
Proof.
  unfold makeRequest, authOf, afterAuth.
  destruct (url.isEmpty (Username d)); cbn [negb fst snd];
    destruct (httpx_NewRequest w url) as [err|];
    unfold bind, ret, next, log, emit; cbn [tick trace fst snd];
    try reflexivity;
    destruct (httpx_DoTrace _ _ _ _ _) as [err|status [r|err]];
    cbn [verdict]; try destruct (negb (status =? 200));
    rewrite <- ?app_assoc; reflexivity.
Qed.

(** A request that succeeded could be built. *)
Lemma makeRequest_Ok_built (w : World) (d : Device) (s : Shape)
      (url body : string) (st st' : St) tr (r : shapeT s) :
  makeRequest w d s url body st = (Done (tr, Ok r), st') ->
  httpx_NewRequest w url = None.
Proof.
  rewrite makeRequest_spec. destruct (httpx_NewRequest w url); [|done].
  intros H. discriminate H.
Qed.

(** Every event [makeRequest] appends satisfies [P] when the POST it may
    send and its log line do. *)
Lemma makeRequest_emits (P : Event -> Prop) (w : World) (d : Device)
      (s : Shape) (url body : string) :
  (forall st, P (EvPost url (envelopeOf (fst (authOf w d st)) body)
                        (snd (authOf w d st)))) ->
  P (EvLog LevelDebug "onvif request" [("url", url)]) ->
  emits P (makeRequest w d s url body).
Proof.
  intros Hpost Hlog st. rewrite makeRequest_spec.
  destruct (httpx_NewRequest w url); cbn [snd trace].
  - exists []. rewrite app_nil_r. split; [|constructor].
    unfold afterAuth. destruct (negb _); reflexivity.
  - eexists. split; [reflexivity|]. repeat constructor; auto.
Qed.

(** A computation that returns a value from every state. *)
Definition returns {A} (m : M A) : Prop :=
  forall st, exists a st', m st = (Done a, st').

Lemma returns_bind {A B} (m : M A) (k : A -> M B) :
  returns m -> (forall a, returns (k a)) -> returns (bind m k).
Proof.
  intros Hm Hk st. destruct (Hm st) as (a & st1 & Ha).
  rewrite (bind_Done _ _ _ _ _ Ha). apply Hk.
Qed.

Lemma returns_ret {A} (a : A) : returns (ret a).
Proof. intros st. eexists _, _. reflexivity. Qed.

Lemma returns_log level msg attrs : returns (log level msg attrs).
Proof. intros st. eexists _, _. reflexivity. Qed.

Lemma makeRequest_returns w d s url body :
  returns (makeRequest w d s url body).
Proof.
  intros st. rewrite makeRequest_spec.
  destruct (httpx_NewRequest w url); eexists _, _; reflexivity.
Qed.

Lemma resolveURIs_returns w d profiles : returns (resolveURIs w d profiles).
Proof.
  induction profiles as [|p ps IH]; cbn [resolveURIs].
  - apply returns_ret.
  - apply returns_bind; [apply makeRequest_returns|]. intros [tr [uri|err]].
    + apply returns_bind; [exact IH|]. intros [rest|err]; apply returns_ret.
    + apply returns_ret.
Qed.

Lemma GetProfiles_returns w d : returns (GetProfiles w d).
Proof.
  unfold GetProfiles.
  apply returns_bind; [apply makeRequest_returns|]. intros [tr [resp|err]].
  - apply returns_bind; [apply resolveURIs_returns|].
    intros [profiles|err]; [|apply returns_ret].
    apply returns_bind; [apply returns_log | intros; apply returns_ret].
  - apply returns_ret.
Qed.

(** [GetDeviceInformation] returns when a request to the device address can
    be built: the trace it formats is then never nil. *)
Lemma GetDeviceInformation_returns w d :
  httpx_NewRequest w (Address d) = None -> returns (GetDeviceInformation w d).
Proof.
  intros Hb st. unfold GetDeviceInformation. unfold bind at 1.
  rewrite makeRequest_spec, Hb.
  destruct (verdict _ _) as [info|err]; eexists _, _; reflexivity.
Qed.

(** The run of [GetCapabilities] when it succeeds. *)
Lemma GetCapabilities_Ok w d st caps st1 :
  GetCapabilities w d st = (Done (Ok caps), st1) ->
  httpx_NewRequest w (Address d) = None
  /\ trace st1
     = trace st
       ++ [EvPost (Address d)
                  (envelopeOf (fst (authOf w d st)) getCapabilitiesBody)
                  (snd (authOf w d st));
           EvLog LevelDebug "onvif request" [("url", Address d)];
           EvLog LevelDebug "got capabilities" []].
Proof.
  unfold GetCapabilities. unfold bind at 1. rewrite makeRequest_spec.
  destruct (httpx_NewRequest w (Address d)); [intros H; discriminate H|].
  destruct (verdict _ _); [|intros H; discriminate H].
  unfold bind, log, emit, ret. cbn [tick trace]. intros H.
  inversion H; subst. split; [done|]. cbn [trace].
  rewrite <- app_assoc. reflexivity.
Qed.

(** The run of [GetSystemDateAndTime] when it succeeds. *)
Lemma GetSystemDateAndTime_Ok w d st t st1 :
  GetSystemDateAndTime w d st = (Done (Ok t), st1) ->
  trace st1
  = trace st
    ++ [EvPost (Address d)
               (envelopeOf (fst (authOf w d st)) getDateAndTimeBody)
               (snd (authOf w d st));
        EvLog LevelDebug "onvif request" [("url", Address d)];
        EvLog LevelDebug "got system date and time" []].
Proof.
  unfold GetSystemDateAndTime. unfold bind at 1. rewrite makeRequest_spec.
  destruct (httpx_NewRequest w (Address d)); [intros H; discriminate H|].
  destruct (verdict _ _); [|intros H; discriminate H].
  unfold bind, log, emit, ret. cbn [tick trace]. intros H.
  inversion H; subst. cbn [trace].
  rewrite <- app_assoc. reflexivity.
Qed.

(** C2, as the code has it. When capability discovery succeeds with a
    non-empty media-service address, a failure of the device-clock fetch
    makes [Probe] return that error with the candidate reported as not
    recognised (false); once the clock fetch has succeeded [Probe] returns
    with the candidate reported as recognised (true), whether or not the
    identity or profile steps then fail.  [Probe] never panics here. *)
Theorem Probe_recognized_after_clock
        (w : World) (d : Device) (st st1 : St) (caps : Capabilities) :
  GetCapabilities w d st = (Done (Ok caps), st1) ->
  url.isEmpty (Media_Address caps) = false ->
  match GetSystemDateAndTime w (withCapabilities d caps) st1 with
  | (Done (Err err), st2) =>
      Probe w d st = (Done (withCapabilities d caps, (false, Some err)), st2)
  | (Done (Ok _), _) =>
      exists d' err st', Probe w d st = (Done (d', (true, err)), st')
  | _ => False
  end.
Proof.
  intros Hcaps Hmedia.
  pose proof (GetCapabilities_Ok _ _ _ _ _ Hcaps) as [Hbuilt _].
  unfold Probe. rewrite (bind_Done _ _ _ _ _ Hcaps), Hmedia.
  assert (Hret : returns (GetSystemDateAndTime w (withCapabilities d caps))).
  { unfold GetSystemDateAndTime.
    apply returns_bind; [apply makeRequest_returns|]. intros [tr [dt|err]].
    - apply returns_bind; [apply returns_log | intros; apply returns_ret].
    - apply returns_ret. }
  destruct (Hret st1) as ([t|err] & st2 & Htime); rewrite Htime.
  - rewrite (bind_Done _ _ _ _ _ Htime).
    unfold bind at 1. cbn [next]. unfold bind at 1. cbn [emit].
    match goal with
    | |- context [GetDeviceInformation w ?d2] =>
        destruct (GetDeviceInformation_returns w d2 Hbuilt
                    (mkSt (S (tick st2))
                          (trace st2 ++
                             [EvSetClockOffset (time_Now w (tick st2)) t
                                (time.neg (time.Since (time_Now w (tick st2)) t))])))
          as ([info|err] & st3 & Hinfo);
        rewrite (bind_Done _ _ _ _ _ Hinfo)
    end.
    + match goal with
      | |- context [GetProfiles w ?d3] =>
          destruct (GetProfiles_returns w d3 st3)
            as ([profiles|err] & st4 & Hprof);
          rewrite (bind_Done _ _ _ _ _ Hprof)
      end; eexists _, _, _; reflexivity.
    + eexists _, _, _; reflexivity.
  - rewrite (bind_Done _ _ _ _ _ Htime). reflexivity.
Qed.

Lemma Probe_recognized_after_clock_witness :
  Probe Examples.lanNoClock (Examples.device "" "") Examples.st0
  = (Done (withCapabilities (Examples.device "" "") Examples.capabilities,
           (false,
            Some (wrapError "failed to get system date and time: "
                    (wrapError
                       ("failed to make request to URL "
                        +:+ Quote "http://10.0.0.5:80/onvif/device_service"
                        +:+ ": ")
                       (errorString "request timed out"))))),
     snd (GetSystemDateAndTime Examples.lanNoClock
            (withCapabilities (Examples.device "" "") Examples.capabilities)
            (snd (GetCapabilities Examples.lanNoClock
                    (Examples.device "" "") Examples.st0)))).
Proof.
  apply (Probe_recognized_after_clock
           Examples.lanNoClock (Examples.device "" "") Examples.st0
           (snd (GetCapabilities Examples.lanNoClock
                   (Examples.device "" "") Examples.st0))
           Examples.capabilities).
  - vm_compute. reflexivity.
  - reflexivity.
Defined.

(** C2, as the specification words it, fails: capability discovery
    succeeds with a media address, the clock fetch fails, and [Probe]
    reports the candidate as not recognised. *)
Lemma clock_failure_recognized_counterexample :
  fst (GetCapabilities Examples.lanNoClock (Examples.device "" "")
                       Examples.st0)
  = Done (Ok Examples.capabilities)
  /\ url.isEmpty (Media_Address Examples.capabilities) = false
  /\ (exists err,
         fst (GetSystemDateAndTime Examples.lanNoClock
                (withCapabilities (Examples.device "" "")
                                  Examples.capabilities)
                (snd (GetCapabilities Examples.lanNoClock
                        (Examples.device "" "") Examples.st0)))
         = Done (Err err))
  /\ exists d' err,
      fst (Probe Examples.lanNoClock (Examples.device "" "") Examples.st0)
      = Done (d', (false, Some err)).
Proof.
  split; [vm_compute; reflexivity|]. split; [reflexivity|].
  split; eexists; [|eexists]; vm_compute; reflexivity.
Qed.

(** The envelope carries a security header block. *)
Definition carriesSecurity (envelope : string) : bool :=
  GoStrings.Contains envelope "<wsse:Security".

Lemma isEmpty_true (s : string) : url.isEmpty s = true <-> s = "".
Proof. destruct s; cbn; split; congruence. Qed.

(** Whatever the credentials, the nonce and the time, the header built from
    [authTemplate] opens a security block, and so does the envelope around
    it. *)
Lemma securityHeader_carried (d : Device) (nonce created body : string) :
  carriesSecurity (envelopeOf (securityHeader d nonce created) body) = true.
Proof. vm_compute. reflexivity. Qed.

Lemma no_header_GetCapabilities :
  carriesSecurity (envelopeOf EmptyString getCapabilitiesBody) = false.
Proof. vm_compute. reflexivity. Qed.

Lemma no_header_GetSystemDateAndTime :
  carriesSecurity (envelopeOf EmptyString getDateAndTimeBody) = false.
Proof. vm_compute. reflexivity. Qed.

(** A POST carries a security header exactly when the device has a user
    name. *)
Definition headerIffUsername (d : Device) (ev : Event) : Prop :=
  match ev with
  | EvPost _ envelope stamp =>
      carriesSecurity envelope = negb (url.isEmpty (Username d))
      /\ (stamp = None <-> Username d = "")
  | _ => True
  end.

(** C3, as the code has it. The capability-discovery request and the
    device-clock request go through the same [makeRequest] as every other
    request: their bodies carry no security header block exactly when no
    user name is configured, and carry one for every configuration with a
    user name. *)
Theorem first_requests_header_iff_username (w : World) (d : Device) :
  emits (headerIffUsername d) (GetCapabilities w d)
  /\ emits (headerIffUsername d) (GetSystemDateAndTime w d).
Proof.
  assert (Hpost : forall body,
             carriesSecurity (envelopeOf EmptyString body) = false ->
             forall st,
               headerIffUsername d
                 (EvPost (Address d)
                         (envelopeOf (fst (authOf w d st)) body)
                         (snd (authOf w d st)))).
  { intros body Hbody st. unfold authOf, headerIffUsername.
    destruct (url.isEmpty (Username d)) eqn:He; cbn [negb fst snd].
    - apply isEmpty_true in He. rewrite Hbody. by split.
    - rewrite securityHeader_carried. split; [done|].
      split; [intros H; discriminate H|].
      intros Hu. apply isEmpty_true in Hu. congruence. }
  split.
  - unfold GetCapabilities. apply emits_bind.
    + apply makeRequest_emits; [|exact I].
      apply Hpost, no_header_GetCapabilities.
    + intros [tr [caps|err]]; repeat emits_step.
  - unfold GetSystemDateAndTime. apply emits_bind.
    + apply makeRequest_emits; [|exact I].
      apply Hpost, no_header_GetSystemDateAndTime.
    + intros [tr [dt|err]]; repeat emits_step.
Qed.

(** C3, as the specification words it, fails: with the user name admin the
    capability-discovery request and the clock request both carry a
    security header. *)
Lemma first_requests_unauthenticated_counterexample :
  existsb (fun ev => match ev with
                     | EvPost _ envelope (Some _) => carriesSecurity envelope
                     | _ => false
                     end)
          (trace (snd (GetCapabilities Examples.lan
                         (Examples.device "admin" "secret") Examples.st0)))
  = true
  /\ existsb (fun ev => match ev with
                        | EvPost _ envelope (Some _) => carriesSecurity envelope
                        | _ => false
                        end)
             (trace (snd (GetSystemDateAndTime Examples.lan
                            (Examples.device "admin" "secret") Examples.st0)))
     = true.
Proof. split; vm_compute; reflexivity. Qed.

(** The [Created] text of an authenticated POST is the local clock read for
    that request, shifted by [offset], in UTC; the event is not an
    assignment of the clock offset. *)
Definition stampedWith (offset : time.Duration) (ev : Event) : Prop :=
  match ev with
  | EvPost _ _ (Some a) =>
      created a = time.FormatRFC3339Nano (time.Add (localNow a) offset)
  | EvSetClockOffset _ _ _ => False
  | _ => True
  end.

(** When the two clocks are less than 2^63 nanoseconds (292 years) apart,
    the offset is the difference of the device clock and the local one. *)
Lemma clock_offset_exact (now deviceTime : time.Time) :
  time.minDuration < now - deviceTime <= time.maxDuration ->
  time.neg (time.Since now deviceTime) = deviceTime - now.
Proof.
  unfold time.neg, time.Since, time.Sub, time.minDuration, time.maxDuration.
  intros H.
  destruct (Z.ltb_spec (now - deviceTime) (- 2 ^ 63)); [lia|].
  destruct (Z.gtb_spec (now - deviceTime) (2 ^ 63 - 1)); [lia|].
  rewrite Z.mod_small by lia. lia.
Qed.

Lemma makeRequest_stamped w d s url body :
  emits (stampedWith (ClockOffset d)) (makeRequest w d s url body).
Proof.
  apply makeRequest_emits; [|exact I].
  intros st. unfold authOf. destruct (negb _); cbn; reflexivity.
Qed.

Lemma resolveURIs_stamped w d profiles :
  emits (stampedWith (ClockOffset d)) (resolveURIs w d profiles).
Proof.
  induction profiles as [|p ps IH]; cbn [resolveURIs].
  - apply emits_ret.
  - apply emits_bind; [apply makeRequest_stamped|]. intros [tr [uri|err]].
    + apply emits_bind; [exact IH|]. intros [rest|err]; apply emits_ret.
    + apply emits_ret.
Qed.

Lemma GetProfiles_stamped w d :
  emits (stampedWith (ClockOffset d)) (GetProfiles w d).
Proof.
  unfold GetProfiles.
  apply emits_bind; [apply makeRequest_stamped|]. intros [tr [resp|err]].
  - apply emits_bind; [apply resolveURIs_stamped|].
    intros [profiles|err]; repeat emits_step.
  - apply emits_ret.
Qed.

Lemma GetDeviceInformation_stamped w d :
  emits (stampedWith (ClockOffset d)) (GetDeviceInformation w d).
Proof.
  unfold GetDeviceInformation.
  apply emits_bind; [apply makeRequest_stamped|].
  intros [tr [info|err]]; repeat emits_step.
Qed.

(** C5. In a probe attempt whose capability discovery and clock fetch
    succeed, the clock offset is assigned exactly once, right after the two
    requests of those steps, as -(now - deviceTime); every authenticated
    request sent afterwards (identity, profile listing, stream URI of each
    profile) is stamped with its own reading of the local clock plus that
    same offset, rendered in UTC; and the device keeps that offset. *)
Theorem Probe_clock_offset
        (w : World) (d : Device) (st st1 st2 : St)
        (caps : Capabilities) (deviceTime : time.Time) :
  GetCapabilities w d st = (Done (Ok caps), st1) ->
  url.isEmpty (Media_Address caps) = false ->
  GetSystemDateAndTime w (withCapabilities d caps) st1
  = (Done (Ok deviceTime), st2) ->
  let now := time_Now w (tick st2) in
  let offset := time.neg (time.Since now deviceTime) in
  let before :=
    [EvPost (Address d)
            (envelopeOf (fst (authOf w d st)) getCapabilitiesBody)
            (snd (authOf w d st));
     EvLog LevelDebug "onvif request" [("url", Address d)];
     EvLog LevelDebug "got capabilities" [];
     EvPost (Address d)
            (envelopeOf (fst (authOf w (withCapabilities d caps) st1))
                        getDateAndTimeBody)
            (snd (authOf w (withCapabilities d caps) st1));
     EvLog LevelDebug "onvif request" [("url", Address d)];
     EvLog LevelDebug "got system date and time" []] in
  exists after,
    trace (snd (Probe w d st))
    = trace st ++ before ++ EvSetClockOffset now deviceTime offset :: after
    /\ Forall (stampedWith (ClockOffset d)) before
    /\ Forall (stampedWith offset) after
    /\ forall d' r st',
        Probe w d st = (Done (d', r), st') -> ClockOffset d' = offset.
Proof.
  intros Hcaps Hmedia Htime now offset before.
  pose proof (GetCapabilities_Ok _ _ _ _ _ Hcaps) as [Hbuilt Ht1].
  pose proof (GetSystemDateAndTime_Ok _ _ _ _ _ Htime) as Ht2.
  cbn [Address withCapabilities] in Ht2.
  set (d2 := withClockOffset (withCapabilities d caps) offset).
  set (st3 := mkSt (S (tick st2))
                   (trace st2 ++ [EvSetClockOffset now deviceTime offset])).
  set (tail :=
         do r <- GetDeviceInformation w d2 ;;
         match r with
         | Err err => ret (d2, (true, Some err))
         | Ok info =>
             do r <- GetProfiles w (withDeviceInformation d2 info) ;;
             match r with
             | Err err => ret (withDeviceInformation d2 info, (true, Some err))
             | Ok profiles =>
                 ret (withProfiles (withDeviceInformation d2 info) profiles,
                      (true, None))
             end
         end).
  assert (Hprobe : Probe w d st = tail st3).
  { unfold Probe. rewrite (bind_Done _ _ _ _ _ Hcaps), Hmedia.
    rewrite (bind_Done _ _ _ _ _ Htime). reflexivity. }
  assert (Htail : emits (stampedWith offset) tail).
  { subst tail. apply emits_bind.
    - apply (GetDeviceInformation_stamped w d2).
    - intros [info|err]; [|apply emits_ret].
      apply emits_bind.
      + apply (GetProfiles_stamped w (withDeviceInformation d2 info)).
      + intros [profiles|err]; apply emits_ret. }
  destruct (Htail st3) as (after & Htr & Hafter).
  exists after. rewrite Hprobe, Htr. subst st3. cbn [trace].
  rewrite Ht2, Ht1. split; [|split; [|split]].
  - rewrite <- !app_assoc. reflexivity.
  - subst before. unfold authOf.
    cbn [Username withCapabilities ClockOffset].
    destruct (negb (url.isEmpty (Username d))); cbn [fst snd];
      repeat constructor.
  - exact Hafter.
  - intros d' r st' Hd. subst tail. cbv beta in Hd.
    apply bind_inv_Done in Hd as ([info|err] & st4 & _ & Hd).
    + apply bind_inv_Done in Hd as ([profiles|err] & st5 & _ & Hd);
        inversion Hd; reflexivity.
    + inversion Hd; reflexivity.
Qed.

Lemma Probe_clock_offset_witness :
  let w := Examples.lan in
  let d := Examples.device "admin" "secret" in
  let st1 := snd (GetCapabilities w d Examples.st0) in
  let d1 := withCapabilities d Examples.capabilities in
  let st2 := snd (GetSystemDateAndTime w d1 st1) in
  let deviceTime := time.Date 2024 7 1 12 0 0 in
  let now := time_Now w (tick st2) in
  let offset := time.neg (time.Since now deviceTime) in
  let before :=
    [EvPost (Address d)
            (envelopeOf (fst (authOf w d Examples.st0)) getCapabilitiesBody)
            (snd (authOf w d Examples.st0));
     EvLog LevelDebug "onvif request" [("url", Address d)];
     EvLog LevelDebug "got capabilities" [];
     EvPost (Address d)
            (envelopeOf (fst (authOf w d1 st1)) getDateAndTimeBody)
            (snd (authOf w d1 st1));
     EvLog LevelDebug "onvif request" [("url", Address d)];
     EvLog LevelDebug "got system date and time" []] in
  exists after,
    trace (snd (Probe w d Examples.st0))
    = trace Examples.st0 ++ before
      ++ EvSetClockOffset now deviceTime offset :: after
    /\ Forall (stampedWith (ClockOffset d)) before
    /\ Forall (stampedWith offset) after
    /\ forall d' r st',
        Probe w d Examples.st0 = (Done (d', r), st') ->
        ClockOffset d' = offset.
Proof.
  intros w d st1 d1 st2 deviceTime.
  apply (Probe_clock_offset w d Examples.st0 st1 st2 Examples.capabilities
                            deviceTime).
  - vm_compute. reflexivity.
  - reflexivity.
  - vm_compute. reflexivity.
Defined.

End DeviceSpec.

(** * Properties of package scan *)
Module ScanSpec.
Import scan Effects.

#[local] Arguments Quote : simpl never.
#[local] Arguments Itoa : simpl never.
#[local] Arguments String.append : simpl never.

(** ** The candidate set of the port scan *)

(** The CIDR text is an IPv4 prefix and the expansion loop is given more
    iterations than the prefix has addresses. *)
Definition expands (fuel : nat) (cidr : network.CIDR) : Prop :=
  exists p, netip.ParsePrefix cidr = netip.Parsed p
            /\ 2 ^ (32 - netip.Bits p) < Z.of_nat fuel.

Lemma GetIPsOnNetwork_Ok (fuel : nat) (cidr : network.CIDR) :
  expands fuel cidr ->
  exists ips, network.GetIPsOnNetwork fuel cidr = Some (Ok ips).
Proof.
  intros (p & Hp & Hf).
  rewrite (NetworkSpec.GetIPsOnNetwork_expansion cidr p fuel Hp Hf). eauto.
Qed.

Lemma elem_of_addCandidates (ips : list string) (port : Z) :
  forall (candidates : gset string) (c : string),
    c ∈ addCandidates ips port candidates
    <-> c ∈ candidates
        \/ exists ip, ip ∈ ips /\ c = ip +:+ ":" +:+ Itoa port.
Proof.
  unfold addCandidates.
  induction ips as [|ip ips IH]; intros candidates c; cbn [foldl].
  - split; [auto|]. intros [H|(ip & Hin & _)]; [done|].
    by apply not_elem_of_nil in Hin.
  - rewrite IH, elem_of_union, elem_of_singleton. split.
    + intros [[->|H]|(ip' & Hin & ->)]; eauto.
      * right. exists ip. split; [by left | done].
      * right. exists ip'. split; [by right | done].
    + intros [H|(ip' & Hin & ->)]; [auto|].
      apply elem_of_cons in Hin as [->|Hin]; eauto.
Qed.

(** [c] is the address:port text of an address of an interface whose
    prefix expands to at most 256 addresses. *)
Definition fromSmallPrefix (fuel : nat)
           (ifaces : list (network.IFace * network.CIDR)) (port : Z)
           (c : string) : Prop :=
  exists iface cidr ips ip,
    (iface, cidr) ∈ ifaces
    /\ network.GetIPsOnNetwork fuel cidr = Some (Ok ips)
    /\ (length ips <= 256)%nat
    /\ ip ∈ ips
    /\ c = ip +:+ ":" +:+ Itoa port.

Lemma gatherCandidates_spec (fuel : nat) (port : Z)
      (ifaces : list (network.IFace * network.CIDR)) :
  Forall (fun ic => exists ips,
              network.GetIPsOnNetwork fuel ic.2 = Some (Ok ips)) ifaces ->
  forall candidates st,
  exists result st1,
    gatherCandidates fuel ifaces port candidates st = (Done (Ok result), st1)
    /\ forall c, c ∈ result
                 <-> c ∈ candidates \/ fromSmallPrefix fuel ifaces port c.
Proof.
  induction ifaces as [|[iface cidr] ifaces IH]; intros Hall candidates st.
  - exists candidates, st. split; [reflexivity|].
    intros c. split; [auto|]. intros [H|(i & ci & ips & ip & Hin & _)];
      [done|]. by apply not_elem_of_nil in Hin.
  - apply Forall_cons in Hall as [(ips & Hips) Hall]. cbn [snd] in Hips.
    cbn [gatherCandidates]. rewrite Hips.
    destruct (length ips <=? 256)%nat eqn:Hlen.
    + apply Nat.leb_le in Hlen.
      unfold bind at 1. rewrite log_run.
      destruct (IH Hall (addCandidates ips port candidates)
                   (mkSt (tick st)
                         (trace st ++
                            [EvLog LevelInfo
                                   "scanning candidate IPs on interface"
                                   [("interface", iface); ("cidr", cidr);
                                    ("count", Itoa (Z.of_nat (length ips)))]])))
        as (result & st1 & Hrun & Hres).
      exists result, st1. split; [exact Hrun|].
      intros c. rewrite Hres, elem_of_addCandidates. split.
      * intros [[H|(ip & Hin & ->)]|(i & ci & ips' & ip & Hin & Hrest)].
        -- by left.
        -- right. exists iface, cidr, ips, ip.
           split; [by left|]. auto.
        -- right. exists i, ci, ips', ip. split; [by right | done].
      * intros [H|(i & ci & ips' & ip & Hin & Hg & Hl & Hip & ->)];
          [by left; left|].
        apply elem_of_cons in Hin as [Heq|Hin].
        -- inversion Heq; subst. rewrite Hips in Hg. inversion Hg; subst.
           left. right. eauto.
        -- right. exists i, ci, ips', ip. auto.
    + apply Nat.leb_gt in Hlen.
      unfold bind at 1. rewrite log_run.
      destruct (IH Hall candidates
                   (mkSt (tick st)
                         (trace st ++
                            [EvLog LevelInfo
                                   "ignoring interface with too many IPs"
                                   [("interface", iface); ("cidr", cidr);
                                    ("count", Itoa (Z.of_nat (length ips)))]])))
        as (result & st1 & Hrun & Hres).
      exists result, st1. split; [exact Hrun|].
      intros c. rewrite Hres. split.
      * intros [H|(i & ci & ips' & ip & Hin & Hrest)]; [by left|].
        right. exists i, ci, ips', ip. split; [by right | done].
      * intros [H|(i & ci & ips' & ip & Hin & Hg & Hl & Hip & ->)];
          [by left|].
        apply elem_of_cons in Hin as [Heq|Hin].
        -- inversion Heq; subst. rewrite Hips in Hg. inversion Hg; subst.
           lia.
        -- right. exists i, ci, ips', ip. auto.
Qed.

(** An interface whose prefix expands to more than 256 addresses leaves the
    candidate set as it was: the loop writes one log line and goes on. *)
Lemma large_prefix_skipped (fuel : nat) (port : Z)
      (iface : network.IFace) (cidr : network.CIDR) (ips : list string)
      (rest : list (network.IFace * network.CIDR))
      (candidates : gset string) (st : St) :
  network.GetIPsOnNetwork fuel cidr = Some (Ok ips) ->
  (256 < length ips)%nat ->
  gatherCandidates fuel ((iface, cidr) :: rest) port candidates st
  = gatherCandidates fuel rest port candidates
      (mkSt (tick st)
            (trace st ++ [EvLog LevelInfo "ignoring interface with too many IPs"
                                [("interface", iface); ("cidr", cidr);
                                 ("count", Itoa (Z.of_nat (length ips)))]])).
Proof.
  intros Hips Hlen. cbn [gatherCandidates]. rewrite Hips.
  apply Nat.leb_gt in Hlen. rewrite Hlen. reflexivity.
Qed.

(** ** The dials *)

(** What the task of candidate [c] observes. *)
Definition observed (w : World) (c : string) : bool * option error :=
  network.IsPortOpen c (DialTimeout w c).

(** The task of candidate [c] keeps it: the connection was made. *)
Definition kept (w : World) (c : string) : bool :=
  match observed w c with
  | (true, None) => true
  | _ => false
  end.

(** The tasks all run; the keepers are the candidates found open, and a
    panic is kept exactly when some task saw an error. *)
Lemma dialAll_spec (w : World) (candidates : list string) :
  forall caught keepers st,
  exists caught' st',
    dialAll w candidates caught keepers st
    = (Done (caught',
             keepers ++ filter (fun c => kept w c = true) candidates), st')
    /\ (caught' = None
        <-> caught = None
            /\ Forall (fun c => (observed w c).2 = None) candidates).
Proof.
  induction candidates as [|c cs IH]; intros caught keepers st.
  - exists caught, st. cbn. rewrite app_nil_r. split; [reflexivity|].
    split; [auto | tauto].
  - cbn [dialAll]. unfold bind at 1. cbn [emit].
    rewrite filter_cons.
    destruct (network.IsPortOpen c (DialTimeout w c)) as [open err] eqn:Hobs.
    assert (Hk : kept w c = match err with None => open | Some _ => false end).
    { unfold kept, observed. rewrite Hobs. by destruct open, err. }
    assert (He : (observed w c).2 = err).
    { unfold observed. by rewrite Hobs. }
    destruct err as [err|].
    + unfold bind at 1. rewrite log_run.
      edestruct IH as (caught' & st' & Hrun & Hiff). rewrite Hrun.
      exists caught', st'.
      destruct (decide (kept w c = true)) as [Hkt|_]; [congruence|].
      split; [reflexivity|]. rewrite Hiff. split.
      * intros [Hc _]. destruct caught; discriminate Hc.
      * intros [_ Hall]. apply Forall_cons in Hall as [Hc _]. congruence.
    + destruct open.
      * unfold bind at 1. rewrite log_run.
        edestruct IH as (caught' & st' & Hrun & Hiff). rewrite Hrun.
        exists caught', st'.
        destruct (decide (kept w c = true)) as [_|Hne]; [|done].
        split; [by rewrite <- app_assoc|].
        rewrite Hiff. split.
        -- intros [Hc Hall]. split; [done|]. by constructor.
        -- intros [Hc Hall]. apply Forall_cons in Hall as [_ Hall]. done.
      * edestruct IH as (caught' & st' & Hrun & Hiff). rewrite Hrun.
        exists caught', st'.
        destruct (decide (kept w c = true)) as [Hkt|_]; [congruence|].
        split; [reflexivity|].
        rewrite Hiff. split.
        -- intros [Hc Hall]. split; [done|]. by constructor.
        -- intros [Hc Hall]. apply Forall_cons in Hall as [_ Hall]. done.
Qed.

Lemma kept_Connected (w : World) (c : string) :
  kept w c = true <-> DialTimeout w c = network.Connected.
Proof.
  unfold kept, observed, network.IsPortOpen.
  destruct (DialTimeout w c) as [|err]; [done|].
  destruct (GoStrings.Contains _ _); split; intros H; discriminate H.
Qed.

(** C9. When every interface has a CIDR that parses (and the expansion loop
    is given enough iterations), the candidate set of
    [FindHostsWithOpenPort] is exactly the set of address:port texts of the
    addresses of the prefixes that expand to at most 256 addresses: a
    prefix that expands to more contributes no candidate, a prefix that
    expands to 256 or fewer contributes all its addresses; and the scan
    either panics or returns exactly the candidates it could connect to,
    so nothing outside the candidate set is in its result. *)
Theorem FindHostsWithOpenPort_prefix_limit
        (fuel : nat) (w : World)
        (ifaces : list (network.IFace * network.CIDR)) (port : Z) (st : St) :
  Forall (fun ic => expands fuel ic.2) ifaces ->
  exists candidates st1,
    gatherCandidates fuel ifaces port ∅ st = (Done (Ok candidates), st1)
    /\ (forall c, c ∈ candidates <-> fromSmallPrefix fuel ifaces port c)
    /\ ((exists v st', FindHostsWithOpenPort fuel w ifaces port st
                       = (Panic v, st'))
        \/ exists keepers st',
            FindHostsWithOpenPort fuel w ifaces port st
            = (Done (Ok keepers), st')
            /\ forall c, c ∈ keepers
                         <-> c ∈ candidates
                             /\ DialTimeout w c = network.Connected).
Proof.
  intros Hall.
  assert (Hips : Forall (fun ic => exists ips,
                             network.GetIPsOnNetwork fuel ic.2
                             = Some (Ok ips)) ifaces).
  { eapply Forall_impl; [exact Hall|]. intros [i c] Hx.
    by apply GetIPsOnNetwork_Ok. }
  destruct (gatherCandidates_spec fuel port ifaces Hips ∅ st)
    as (candidates & st1 & Hrun & Hres).
  exists candidates, st1. split; [exact Hrun|]. split.
  - intros c. rewrite Hres. split; [|auto].
    intros [H|H]; [|done]. by apply not_elem_of_empty in H.
  - unfold FindHostsWithOpenPort. rewrite (bind_Done _ _ _ _ _ Hrun).
    destruct (dialAll_spec w (elements candidates) None [] st1)
      as (caught' & st' & Hdial & _).
    rewrite (bind_Done _ _ _ _ _ Hdial). destruct caught' as [v|].
    + left. eexists _, _. reflexivity.
    + right. eexists _, _. split; [reflexivity|].
      intros c. rewrite app_nil_l, list_elem_of_filter, elem_of_elements.
      rewrite kept_Connected. tauto.
Qed.

(** The candidate set a run of the first loop ended with. *)
Definition candidatesOf (r : Outcome (result (gset string)) * St)
  : gset string :=
  match r with
  | (Done (Ok candidates), _) => candidates
  | _ => ∅
  end.

Lemma FindHostsWithOpenPort_prefix_limit_witness :
  let ifaces := [("eth0", "10.0.0.7/30"); ("eth1", "10.1.0.0/23")] in
  exists candidates st1,
    gatherCandidates 600 ifaces 80 ∅ Examples.st0
    = (Done (Ok candidates), st1)
    /\ (forall c, c ∈ candidates <-> fromSmallPrefix 600 ifaces 80 c)
    /\ ((exists v st', FindHostsWithOpenPort 600 Examples.healthy ifaces 80
                         Examples.st0 = (Panic v, st'))
        \/ exists keepers st',
            FindHostsWithOpenPort 600 Examples.healthy ifaces 80 Examples.st0
            = (Done (Ok keepers), st')
            /\ forall c, c ∈ keepers
                         <-> c ∈ candidates
                             /\ DialTimeout Examples.healthy c
                                = network.Connected).
Proof.
  apply (FindHostsWithOpenPort_prefix_limit
           600 Examples.healthy
           [("eth0", "10.0.0.7/30"); ("eth1", "10.1.0.0/23")] 80
           Examples.st0).
  repeat constructor; eexists; (split; [vm_compute; reflexivity|]);
    vm_compute; reflexivity.
Defined.

(** C7. During the port scan, a connection error whose text says that too
    many files are open makes [IsPortOpen] return that error, and one such
    error on any candidate makes the whole scan end in a panic; any other
    connection error makes [IsPortOpen] report (false, no error), and when
    no candidate runs into exhaustion the scan returns, its result being
    exactly the candidates that accepted the connection. *)
Theorem port_scan_error_handling
        (fuel : nat) (w : World)
        (ifaces : list (network.IFace * network.CIDR)) (port : Z)
        (st st1 : St) (candidates : gset string) :
  gatherCandidates fuel ifaces port ∅ st = (Done (Ok candidates), st1) ->
  (forall address err,
      network.IsPortOpen address (network.DialError err)
      = if GoStrings.Contains (Error err) "too many open files"
        then (false,
              Some (wrapError ("error opening " +:+ Quote address +:+ ": ")
                              err))
        else (false, None))
  /\ ((exists c err,
          c ∈ candidates /\ DialTimeout w c = network.DialError err
          /\ GoStrings.Contains (Error err) "too many open files" = true) ->
      exists v st',
        FindHostsWithOpenPort fuel w ifaces port st = (Panic v, st'))
  /\ ((forall c err,
          c ∈ candidates -> DialTimeout w c = network.DialError err ->
          GoStrings.Contains (Error err) "too many open files" = false) ->
      exists keepers st',
        FindHostsWithOpenPort fuel w ifaces port st
        = (Done (Ok keepers), st')
        /\ forall c, c ∈ keepers
                     <-> c ∈ candidates
                         /\ DialTimeout w c = network.Connected).
Proof.
  intros Hrun. split; [reflexivity|].
  unfold FindHostsWithOpenPort. rewrite (bind_Done _ _ _ _ _ Hrun).
  destruct (dialAll_spec w (elements candidates) None [] st1)
    as (caught' & st' & Hdial & Hiff).
  rewrite (bind_Done _ _ _ _ _ Hdial). split.
  - intros (c & err & Hin & Hd & Hex).
    destruct caught' as [v|]; [eexists _, _; reflexivity|].
    destruct Hiff as [Hiff _]. destruct (Hiff eq_refl) as [_ Hall].
    rewrite list.Forall_forall in Hall.
    apply elem_of_elements, Hall in Hin. revert Hin.
    unfold observed, network.IsPortOpen. rewrite Hd, Hex.
    intros H. discriminate H.
  - intros Hok.
    assert (Hnone : caught' = None).
    { apply Hiff. split; [done|]. apply list.Forall_forall.
      intros c Hin. apply elem_of_elements in Hin.
      unfold observed, network.IsPortOpen.
      destruct (DialTimeout w c) as [|err] eqn:Hd; [done|].
      by rewrite (Hok c err Hin Hd). }
    subst caught'. eexists _, _. split; [reflexivity|].
    intros c. rewrite app_nil_l, list_elem_of_filter, elem_of_elements.
    rewrite kept_Connected. tauto.
Qed.

Lemma port_scan_error_handling_witness :
  exists v st',
    FindHostsWithOpenPort 600 Examples.exhausted [("eth0", "10.0.0.7/30")] 80
                          Examples.st0 = (Panic v, st').
Proof.
  apply (port_scan_error_handling
           600 Examples.exhausted [("eth0", "10.0.0.7/30")] 80 Examples.st0
           (gatherCandidates 600 [("eth0", "10.0.0.7/30")] 80 ∅
                             Examples.st0).2
           (candidatesOf (gatherCandidates 600 [("eth0", "10.0.0.7/30")] 80
                                           ∅ Examples.st0))).
  - vm_compute. reflexivity.
  - exists "10.0.0.6:80",
      (errorString "dial tcp 10.0.0.6:80: socket: too many open files").
    split; [|split]; vm_compute; reflexivity.
Defined.

(** ** The run as a whole *)

Lemma discoverAll_app (w : World)
      (pre rest : list (network.IFace * network.CIDR)) :
  forall candidates st candidates1 st1,
    discoverAll w pre candidates st = (Done (Ok candidates1), st1) ->
    discoverAll w (pre ++ rest) candidates st
    = discoverAll w rest candidates1 st1.
Proof.
  induction pre as [|[iface cidr] pre IH];
    intros candidates st candidates1 st1 H.
  - inversion H; subst. reflexivity.
  - cbn [discoverAll app] in *. unfold bind at 1 in H. unfold bind at 1.
    rewrite log_run in *. unfold bind at 1 in H. unfold bind at 1.
    destruct (onvif.GetONVIFVideoTransmitters _ _ _) as [[[ts|err]|v|] st2];
      try discriminate H.
    unfold bind at 1 in H. unfold bind at 1. rewrite log_run in *.
    by apply IH.
Qed.

(** Discovery on an interface whose socket cannot join the multicast group
    or cannot send the probe returns an error, having read one identifier
    and nothing else. *)
Lemma GetONVIFVideoTransmitters_join_or_send_fails
      (w : onvif.World) (ifaceName : string) (e : error) (st : St) :
  let c := onvif.net_Socket w ifaceName in
  onvif.ListenPacket c = None ->
  onvif.InterfaceByName c = None ->
  (onvif.JoinGroup c = Some e
   \/ (onvif.JoinGroup c = None /\ onvif.SetMulticastInterface c = None
       /\ onvif.WriteTo c = Some e)) ->
  exists err,
    onvif.GetONVIFVideoTransmitters w ifaceName st
    = (Done (Err err), mkSt (S (tick st)) (trace st)).
Proof.
  intros c Hl Hi Hfail. unfold onvif.GetONVIFVideoTransmitters.
  unfold bind at 1. cbn [next]. fold c. rewrite Hl, Hi.
  destruct Hfail as [Hj|(Hj & Hs & Hw)]; rewrite Hj.
  - eexists. reflexivity.
  - rewrite Hs, Hw. eexists. reflexivity.
Qed.

(** C4, as the code has it. A failure to join the multicast group or to
    send the discovery probe on one interface ends the whole run:
    [GetDevicesOnNetwork] returns an error at once, its last effect being
    the log line that announces discovery on that interface; discovery is
    not run on the interfaces that follow and the port scan is not
    started. *)
Theorem discovery_failure_aborts_run
        (fuel : nat) (w : World) (port : Z) (username password : string)
        (pre post : list (network.IFace * network.CIDR))
        (iface : network.IFace) (cidr : network.CIDR)
        (st st1 : St) (candidates : list string) (e : error) :
  GetPrivateIP4Interfaces w = Ok (pre ++ (iface, cidr) :: post) ->
  discoverAll w pre [] st = (Done (Ok candidates), st1) ->
  onvif.ListenPacket (onvif.net_Socket (onvifWorld w) iface) = None ->
  onvif.InterfaceByName (onvif.net_Socket (onvifWorld w) iface) = None ->
  (onvif.JoinGroup (onvif.net_Socket (onvifWorld w) iface) = Some e
   \/ (onvif.JoinGroup (onvif.net_Socket (onvifWorld w) iface) = None
       /\ onvif.SetMulticastInterface (onvif.net_Socket (onvifWorld w) iface)
          = None
       /\ onvif.WriteTo (onvif.net_Socket (onvifWorld w) iface) = Some e)) ->
  exists err,
    GetDevicesOnNetwork fuel w port username password st
    = (Done (None, Some err),
       mkSt (S (tick st1))
            (trace st1 ++ [EvLog LevelInfo "starting onvif ws-discovery"
                                 [("iface", iface)]])).
Proof.
  intros Hifaces Hpre Hl Hi Hfail.
  unfold GetDevicesOnNetwork. rewrite Hifaces.
  unfold bind at 1. rewrite (discoverAll_app _ _ _ _ _ _ _ Hpre).
  cbn [discoverAll]. unfold bind at 1. rewrite log_run.
  destruct (GetONVIFVideoTransmitters_join_or_send_fails
              (onvifWorld w) iface e
              (mkSt (tick st1)
                    (trace st1 ++ [EvLog LevelInfo "starting onvif ws-discovery"
                                         [("iface", iface)]]))
              Hl Hi Hfail) as (err & Hrun).
  unfold bind at 1. rewrite Hrun. eexists. reflexivity.
Qed.

Lemma discovery_failure_aborts_run_witness :
  exists err,
    GetDevicesOnNetwork 600 Examples.eth0Deaf 80 "" "" Examples.st0
    = (Done (None, Some err),
       mkSt 1 [EvLog LevelInfo "starting onvif ws-discovery"
                     [("iface", "eth0")]]).
Proof.
  apply (discovery_failure_aborts_run
           600 Examples.eth0Deaf 80 "" "" [] [("eth1", "10.1.0.0/23")]
           "eth0" "10.0.0.7/30" Examples.st0 Examples.st0 []
           (errorString "no such device")).
  - reflexivity.
  - reflexivity.
  - reflexivity.
  - reflexivity.
  - left. reflexivity.
Defined.

(** C4, as the specification words it, fails: discovery cannot join the
    multicast group on eth0, and the run ends there with an error; eth1 is
    never probed and no address is dialled. *)
Lemma other_interfaces_still_probed_counterexample :
  (exists err,
      fst (GetDevicesOnNetwork 600 Examples.eth0Deaf 80 "" "" Examples.st0)
      = Done (None, Some err))
  /\ trace (snd (GetDevicesOnNetwork 600 Examples.eth0Deaf 80 "" ""
                                     Examples.st0))
     = [EvLog LevelInfo "starting onvif ws-discovery" [("iface", "eth0")]].
Proof. split; [eexists|]; vm_compute; reflexivity. Qed.

(** C10. Whatever the port, the credentials and the world, a run of
    [GetDevicesOnNetwork] that returns returns the nil slice: the devices it
    probed are written to the log and are not part of the result. *)
Theorem GetDevicesOnNetwork_returns_nil
        (fuel : nat) (w : World) (port : Z) (username password : string)
        (st : St) :
  match fst (GetDevicesOnNetwork fuel w port username password st) with
  | Done (devices, _) => devices = None
  | Panic _ | NoAnswer => True
  end.
Proof.
  unfold GetDevicesOnNetwork.
  destruct (GetPrivateIP4Interfaces w) as [ifaces|err]; [|reflexivity].
  unfold bind at 1.
  destruct (discoverAll w ifaces [] st) as [[[cands|err]|v|] st1];
    try exact I; [|reflexivity].
  unfold bind at 1. rewrite log_run. unfold bind at 1.
  destruct (FindHostsWithOpenPort _ _ _ _ _) as [[[ports|err]|v|] st2];
    try exact I; [|reflexivity].
  unfold bind at 1. rewrite log_run. unfold bind at 1.
  destruct (probeAll _ _ _ _ _ _) as [[[]|v|] st3]; try exact I.
  reflexivity.
Qed.

(** A successful run on the example network: one camera is found through
    both channels, probed once and logged, and the result is the nil slice
    with no error. *)
Lemma healthy_run_logs_device :
  fst (GetDevicesOnNetwork 600 Examples.healthy 80 "" "" Examples.st0)
  = Done (None, None)
  /\ List.filter (fun ev => match ev with
                            | EvLog LevelInfo msg _ =>
                                String.eqb msg "onvif device found"
                            | _ => false
                            end)
            (trace (snd (GetDevicesOnNetwork 600 Examples.healthy 80 "" ""
                                             Examples.st0)))
     = [EvLog LevelInfo "onvif device found"
              [("address", "http://10.0.0.5:80/onvif/device_service");
               ("manufacturer", "Amcrest"); ("model", "IP5M");
               ("firmware", "2.800"); ("serial", "S1"); ("hardware", "H1")]].
Proof. split; vm_compute; reflexivity. Qed.

End ScanSpec.

(** * More on package network: the whole expansion *)
Module NetworkMore.
Import netip network.

(** Masking a 32-bit address clears its host bits. *)
Lemma Masked_clears_host_bits (p : Prefix) :
  0 <= Bits p <= 32 -> 0 <= PAddr p < 2 ^ 32 ->
  PAddr (Masked p) = PAddr p - PAddr p mod 2 ^ (32 - Bits p).
Proof.
  intros Hb Ha. cbn [Masked PAddr].
  set (h := 32 - Bits p). assert (Hh : 0 <= h <= 32) by (subst h; lia).
  assert (Hpow : 0 < 2 ^ h <= 2 ^ 32).
  { split; [apply Z.pow_pos_nonneg; lia|]. apply Z.pow_le_mono_r; lia. }
  assert (Hlow : Z.ldiff (Z.ones h) (Z.ones 32) = 0).
  { apply Z.ldiff_ones_r_low.
    - rewrite Z.ones_equiv. lia.
    - rewrite Z.ones_equiv.
      destruct (Z.eq_dec (Z.pred (2 ^ h)) 0) as [->|Hne]; [cbn; lia|].
      apply Z.log2_lt_pow2; lia. }
  assert (HM : 2 ^ 32 - 2 ^ h = Z.ldiff (Z.ones 32) (Z.ones h)).
  { rewrite <- (Z.sub_nocarry_ldiff _ _ Hlow), !Z.ones_equiv. lia. }
  rewrite HM, Z.ldiff_land, Z.land_assoc, Z.land_ones, Z.mod_small by lia.
  rewrite <- Z.ldiff_land, Z.ldiff_ones_r by lia.
  rewrite Z.shiftl_mul_pow2, Z.shiftr_div_pow2 by lia.
  pose proof (Z.div_mod (PAddr p) (2 ^ h)). lia.
Qed.

(** What [parseIPv4] accepts is four octets. *)
Lemma parseIPv4_octets (s : string) :
  forall first prevDot val digLen fields r,
    Forall (fun b => 0 <= b <= 255) fields -> 0 <= val <= 255 ->
    (length fields <= 3)%nat ->
    parseIPv4 s first prevDot val digLen fields = Some r ->
    Forall (fun b => 0 <= b <= 255) r /\ length r = 4%nat.
Proof.
  induction s as [|c s IH]; intros first prevDot val digLen fields r Hf Hv Hl;
    cbn [parseIPv4].
  - destruct (Nat.ltb_spec (length fields) 3) as [|Hge]; [done|].
    intros Hres. inversion Hres; subst. split.
    + apply Forall_app. split; [done|]. by constructor.
    + rewrite length_app. cbn. lia.
  - destruct (isDigit c) eqn:Hd.
    + destruct ((digLen =? 1)%nat && (val =? 0)); [done|].
      destruct (Z.gtb_spec (val * 10 + digitVal c) 255); [done|].
      apply IH; try done. split; [|lia].
      unfold isDigit in Hd. unfold digitVal. lia.
    + destruct (Ascii.eqb c "."); [|done].
      destruct (first || _ || prevDot); [done|].
      destruct (Nat.eqb_spec (length fields) 3); [done|].
      apply IH; [|lia|].
      * apply Forall_app. split; [done|]. by constructor.
      * rewrite length_app. cbn. lia.
Qed.

(** Every prefix [ParsePrefix] accepts has a 32-bit address and a length
    between 0 and 32. *)
Lemma ParsePrefix_range (s : string) (p : Prefix) :
  ParsePrefix s = Parsed p -> 0 <= PAddr p < 2 ^ 32 /\ 0 <= Bits p <= 32.
Proof.
  intros H0. split; [|by eapply NetworkSpec.ParsePrefix_bits].
  revert H0. unfold ParsePrefix, parsePrefix.
  destruct (GoStrings.Contains s ":"); [done|].
  destruct (GoStrings.cutLast s "/") as [[ipStr bitsStr]|]; [|done].
  unfold ParseAddr. destruct (GoStrings.Contains ipStr "."); [|done].
  destruct (parseIPv4 ipStr true false 0 0 []) as [f|] eqn:Hf; [|done].
  cbn [fmap option_fmap option_map].
  destruct (parseBits bitsStr) as [bits|]; [|done].
  destruct ((bits <? 0) || (bits >? 32)); [done|].
  intros Hres. inversion Hres; subst. cbn [PAddr].
  apply parseIPv4_octets in Hf as [Hr Hlen]; [|by constructor|lia|cbn; lia].
  destruct f as [|a [|b [|c [|d [|]]]]]; try discriminate Hlen.
  apply Forall_cons in Hr as [Ha Hr]. apply Forall_cons in Hr as [Hb Hr].
  apply Forall_cons in Hr as [Hc Hr]. apply Forall_cons in Hr as [Hd _].
  unfold AddrFrom4. cbn [fold_left]. lia.
Qed.

(** X1. For an IPv4 prefix of any length, [GetIPsOnNetwork] returns (given more
    iterations than the prefix has addresses) the consecutive addresses from
    the network address, whose host bits are all zero, up to the address
    whose host bits are all one: neither the network address nor the
    broadcast address is left out, and the address the CIDR was written with
    is one of them. *)
Theorem GetIPsOnNetwork_whole_prefix (cidr : CIDR) (p : Prefix) (fuel : nat) :
  ParsePrefix cidr = Parsed p ->
  2 ^ (32 - Bits p) < Z.of_nat fuel ->
  let hosts := 2 ^ (32 - Bits p) in
  let net := PAddr (Masked p) in
  GetIPsOnNetwork fuel cidr
  = Some (Ok ((fun a => String_ (Addr4 a)) <$> seqZ net hosts))
  /\ net mod hosts = 0
  /\ 0 <= net /\ net + hosts <= 2 ^ 32
  /\ net <= PAddr p < net + hosts.
Proof.
  intros Hparse Hfuel hosts net.
  pose proof (ParsePrefix_range _ _ Hparse) as [Hp Hb].
  pose proof (NetworkSpec.base_range p Hb) as Hr.
  pose proof (NetworkSpec.base_aligned p Hb) as Ha.
  pose proof (NetworkSpec.base_top p Hb) as Ht.
  pose proof (NetworkSpec.hostbits_pos p Hb) as Hpos.
  split; [by apply NetworkSpec.GetIPsOnNetwork_expansion|].
  split; [exact Ha|]. split; [lia|]. split; [exact Ht|].
  subst net hosts. rewrite (Masked_clears_host_bits p Hb Hp).
  pose proof (Z.mod_pos_bound (PAddr p) (2 ^ (32 - Bits p)) Hpos). lia.
Qed.

Lemma GetIPsOnNetwork_whole_prefix_witness :
  let p := PrefixFrom 134744072 20 in
  let hosts := 2 ^ (32 - Bits p) in
  let net := PAddr (Masked p) in
  GetIPsOnNetwork 5000 "8.8.8.8/20"
  = Some (Ok ((fun a => String_ (Addr4 a)) <$> seqZ net hosts))
  /\ net mod hosts = 0
  /\ 0 <= net /\ net + hosts <= 2 ^ 32
  /\ net <= PAddr p < net + hosts.
Proof.
  apply (GetIPsOnNetwork_whole_prefix "8.8.8.8/20" (PrefixFrom 134744072 20)
                                      5000).
  - reflexivity.
  - cbn. lia.
Defined.

End NetworkMore.

(** * More on package onvif: discovery *)
Module DiscoveryMore.
Import onvif Effects DiscoverySpec.

#[local] Arguments String.append : simpl never.

(** A text without a colon has no colon as its first byte. *)
Lemma no_colon_cons (c : ascii) (s : string) :
  GoStrings.Contains (String c s) ":" = false ->
  Ascii.eqb ":" c = false /\ GoStrings.Contains s ":" = false.
Proof.
  cbn [GoStrings.Contains GoStrings.HasPrefix].
  replace (GoStrings.HasPrefix s "") with true by (by destruct s).
  destruct (Ascii.eqb ":" c); cbn [andb orb]; intros H; [discriminate H|].
  auto.
Qed.

Lemma splitFrom_first_field (ip rest : string) :
  GoStrings.Contains ip ":" = false ->
  (GoStrings.splitFrom ":" 0 (ip +:+ String ":" rest)).1 = ip.
Proof.
  induction ip as [|c ip IH]; intros Hc.
  - change (EmptyString +:+ String ":" rest) with (String ":" rest).
    cbn [GoStrings.splitFrom GoStrings.HasPrefix String.length Nat.sub].
    replace (GoStrings.HasPrefix rest "") with true by (by destruct rest).
    cbn. by destruct (GoStrings.splitFrom ":" 0 rest).
  - apply no_colon_cons in Hc as [Hne Hc]. specialize (IH Hc).
    change (String c ip +:+ String ":" rest)
      with (String c (ip +:+ String ":" rest)).
    cbn [GoStrings.splitFrom GoStrings.HasPrefix]. rewrite Hne. cbn [andb].
    destruct (GoStrings.splitFrom ":" 0 (ip +:+ String ":" rest)) as [f r].
    cbn [fst] in *. by rewrite IH.
Qed.

(** X2. [ipFromAddr] on the text of a UDP address returns the host part: for a
    host text without a colon followed by a colon and anything (the port),
    the result is exactly the host text. *)
Theorem ipFromAddr_host (ip port : string) :
  GoStrings.Contains ip ":" = false ->
  ipFromAddr (ip +:+ ":" +:+ port) = ip.
Proof.
  intros Hc. unfold ipFromAddr, GoStrings.Split.
  pose proof (splitFrom_first_field ip port Hc) as Hf.
  change (":" +:+ port) with (String ":" port).
  destruct (GoStrings.splitFrom ":" 0 (ip +:+ String ":" port)) as [f r].
  exact Hf.
Qed.

Lemma ipFromAddr_host_witness : ipFromAddr ("192.168.10.108" +:+ ":" +:+ "3702")
                                = "192.168.10.108".
Proof. apply (ipFromAddr_host "192.168.10.108" "3702"). reflexivity. Defined.

(** The endpoints already collected stay, and every match that names a video
    transmitter at an address that parses adds its corrected endpoint. *)
Lemma matchLoop_complete (src : string) (ms : list ProbeMatch) :
  forall ts0 st ts st',
    matchLoop src ms ts0 st = (Done ts, st') ->
    (forall e, e ∈ ts0 -> e ∈ ts)
    /\ forall m e, m ∈ ms -> corrected src m e -> e ∈ ts.
Proof.
  induction ms as [|m ms IH]; intros ts0 st ts st' H; cbn [matchLoop] in H.
  - inversion H; subst. split; [auto|]. intros m e Hin.
    by apply not_elem_of_nil in Hin.
  - destruct (GoStrings.Contains (Types m) "NetworkVideoTransmitter") eqn:Hty.
    + destruct (url.Parse (XAddrs m)) as [endpoint|err|] eqn:Hp.
      * apply bind_inv_Done in H as (? & st1 & _ & H).
        apply IH in H as [Hold Hnew]. split.
        -- intros e He. apply Hold, elem_of_app. by left.
        -- intros m' e Hin (Hty' & endpoint' & Hp' & ->).
           apply elem_of_cons in Hin as [->|Hin].
           ++ rewrite Hp in Hp'. inversion Hp'; subst endpoint'.
              apply Hold, elem_of_app. right. by left.
           ++ apply (Hnew m'); [done|]. split; [done|]. eauto.
      * apply bind_inv_Done in H as (? & st1 & _ & H).
        apply IH in H as [Hold Hnew]. split; [done|].
        intros m' e Hin Hc. apply elem_of_cons in Hin as [->|Hin].
        -- destruct Hc as (_ & endpoint' & Hp' & _). congruence.
        -- by apply (Hnew m').
      * discriminate H.
    + apply IH in H as [Hold Hnew]. split; [done|].
      intros m' e Hin Hc. apply elem_of_cons in Hin as [->|Hin].
      * destruct Hc as (Hty' & _). congruence.
      * by apply (Hnew m').
Qed.

Lemma readLoop_complete (msgID : string) (fin : ReadEnd) (reads : list Packet) :
  forall ts0 st ts st',
    readLoop msgID reads fin ts0 st = (Done (Ok ts), st') ->
    (forall e, e ∈ ts0 -> e ∈ ts)
    /\ forall e, fromMatchingResponse msgID reads e -> e ∈ ts.
Proof.
  induction reads as [|pkt reads IH]; intros ts0 st ts st' H;
    cbn [readLoop] in H.
  - destruct fin.
    + inversion H; subst. split; [auto|].
      intros e (p & r & m & Hin & _). by apply not_elem_of_nil in Hin.
    + apply bind_inv_Done in H as (? & ? & _ & H). discriminate.
  - apply bind_inv_Done in H as (? & st1 & _ & H).
    assert (Hskip : forall ts1 st2,
               (forall resp, Unmarshal pkt = Ok resp ->
                             GoStrings.Contains (UUID resp) msgID = false) ->
               readLoop msgID reads fin ts1 st2 = (Done (Ok ts), st') ->
               (forall e, e ∈ ts1 -> e ∈ ts)
               /\ forall e, fromMatchingResponse msgID (pkt :: reads) e ->
                            e ∈ ts).
    { intros ts1 st2 Hno Hrun. apply IH in Hrun as [Hold Hnew].
      split; [done|].
      intros e (p & r & m & Hin & Hu & Hid & Hrest).
      apply elem_of_cons in Hin as [->|Hin].
      - rewrite (Hno r Hu) in Hid. discriminate.
      - apply Hnew. exists p, r, m. auto. }
    destruct (Unmarshal pkt) as [resp|err] eqn:Hu.
    + destruct (GoStrings.Contains (UUID resp) msgID) eqn:Hid; cbn [negb] in H.
      * apply bind_inv_Done in H as (ts1 & st2 & Hm & H).
        apply matchLoop_complete in Hm as [Hold1 Hnew1].
        apply IH in H as [Hold Hnew]. split; [auto|].
        intros e (p & r & m & Hin & Hu' & Hid' & Hm' & Hc).
        apply elem_of_cons in Hin as [->|Hin].
        -- rewrite Hu in Hu'. inversion Hu'; subst r.
           apply Hold. by apply (Hnew1 m).
        -- apply Hnew. exists p, r, m. auto.
      * apply bind_inv_Done in H as (? & st2 & _ & H).
        apply (Hskip ts0 st2); [|done].
        intros r Hr. inversion Hr; subst. done.
    + apply bind_inv_Done in H as (? & st2 & _ & H).
      apply (Hskip ts0 st2); [|done]. intros r Hr. discriminate Hr.
Qed.

(** X3. Every received response that answers the probe contributes, for each of
    its matches that names a video transmitter at an address that parses,
    the corrected endpoint to the list [GetONVIFVideoTransmitters] returns:
    no such match is dropped. *)
Theorem GetONVIFVideoTransmitters_complete
        (w : World) (ifaceName : string) (st st' : St) (ts : list string)
        (pkt : Packet) (resp : ProbeResponse) (m : ProbeMatch) (e : string) :
  GetONVIFVideoTransmitters w ifaceName st = (Done (Ok ts), st') ->
  pkt ∈ ReadFrom (net_Socket w ifaceName) ->
  Unmarshal pkt = Ok resp ->
  GoStrings.Contains (UUID resp) (msgIDOf w st) = true ->
  m ∈ Matches resp ->
  corrected (src pkt) m e ->
  e ∈ ts.
Proof.
  intros H Hin Hu Hid Hm Hc. unfold GetONVIFVideoTransmitters in H.
  apply bind_inv_Done in H as (i & st1 & Hi & H).
  inversion Hi; subst i st1; clear Hi.
  destruct (ListenPacket _); [discriminate H|].
  destruct (InterfaceByName _); [discriminate H|].
  destruct (JoinGroup _); [discriminate H|].
  destruct (SetMulticastInterface _); [discriminate H|].
  destruct (WriteTo _); [discriminate H|].
  apply bind_inv_Done in H as (? & st2 & _ & H).
  destruct (SetReadDeadline _); [discriminate H|].
  apply readLoop_complete in H as [_ Hnew]. apply Hnew.
  exists pkt, resp, m. auto.
Qed.

Lemma GetONVIFVideoTransmitters_complete_witness :
  "http://10.0.0.5:80/onvif/device_service"
  ∈ ["http://10.0.0.5:80/onvif/device_service"].
Proof.
  eapply (GetONVIFVideoTransmitters_complete
            Examples.lan "eth0" Examples.st0 _ _ Examples.reply).
  - vm_compute. reflexivity.
  - left.
  - reflexivity.
  - vm_compute. reflexivity.
  - left.
  - split; [vm_compute; reflexivity|].
    exists advertised. split; vm_compute; reflexivity.
Defined.

End DiscoveryMore.

(** * More on package onvif: the socket of a discovery run *)
Module SocketMore.
Import onvif Effects DiscoverySpec.

Definition isLog (ev : Event) : Prop :=
  match ev with
  | EvLog _ _ _ => True
  | _ => False
  end.

Lemma matchLoop_logs (src : string) (ms : list ProbeMatch) :
  forall ts, emits isLog (matchLoop src ms ts).
Proof.
  induction ms as [|m ms IH]; intros ts; cbn [matchLoop].
  - apply emits_ret.
  - destruct (GoStrings.Contains _ _); [|apply IH].
    destruct (url.Parse _); [| |apply emits_noAnswer];
      (apply emits_bind; [by apply emits_log | intros; apply IH]).
Qed.

Lemma readLoop_logs (msgID : string) (fin : ReadEnd) (reads : list Packet) :
  forall ts, emits isLog (readLoop msgID reads fin ts).
Proof.
  induction reads as [|pkt reads IH]; intros ts; cbn [readLoop].
  - destruct fin; [apply emits_ret|].
    apply emits_bind; [by apply emits_log | intros; apply emits_ret].
  - apply emits_bind; [by apply emits_log | intros _].
    destruct (Unmarshal pkt) as [resp|err].
    + destruct (negb _).
      * apply emits_bind; [by apply emits_log | intros; apply IH].
      * apply emits_bind; [apply matchLoop_logs | intros; apply IH].
    + apply emits_bind; [by apply emits_log | intros; apply IH].
Qed.

(** The socket was opened, the interface found, the group joined, the
    multicast interface set and the probe written. *)
Definition probeWritten (c : Socket) : bool :=
  match ListenPacket c, InterfaceByName c, JoinGroup c,
        SetMulticastInterface c, WriteTo c with
  | None, None, None, None, None => true
  | _, _, _, _, _ => false
  end.

(** X4. A discovery run sends the probe at most once, never again after a failed
    or empty read: when the socket was set up and the write succeeded, the
    probe datagram (the template with the run's message identifier) is the
    first effect of the run; otherwise no datagram is sent; every other
    effect of the run is a log line. *)
Theorem probe_sent_once (w : World) (ifaceName : string) (st : St) :
  exists logs,
    trace (snd (GetONVIFVideoTransmitters w ifaceName st))
    = trace st
      ++ (if probeWritten (net_Socket w ifaceName)
          then [EvProbeSent ifaceName
                  (GoStrings.ReplaceAll probeTemplate "{{UUID}}"
                                        (msgIDOf w st))]
          else [])
      ++ logs
    /\ Forall isLog logs.
Proof.
  unfold GetONVIFVideoTransmitters, probeWritten, msgIDOf.
  unfold bind at 1. cbn [next].
  destruct (ListenPacket _); [exists []; cbn; by rewrite app_nil_r|].
  destruct (InterfaceByName _); [exists []; cbn; by rewrite app_nil_r|].
  destruct (JoinGroup _); [exists []; cbn; by rewrite app_nil_r|].
  destruct (SetMulticastInterface _); [exists []; cbn; by rewrite app_nil_r|].
  destruct (WriteTo _); [exists []; cbn; by rewrite app_nil_r|].
  unfold bind at 1. cbn [emit].
  destruct (SetReadDeadline _); [exists []; cbn [ret snd trace]; auto|].
  match goal with
  | |- context [readLoop ?i ?r ?f ?t ?s] =>
      destruct (readLoop_logs i f r t s) as (logs & Ht & Hl)
  end.
  exists logs. rewrite Ht. cbn [trace]. by rewrite <- app_assoc.
Qed.

Lemma matchLoop_no_panic (src : string) (ms : list ProbeMatch) :
  forall ts st v st', matchLoop src ms ts st <> (Panic v, st').
Proof.
  induction ms as [|m ms IH]; intros ts st v st'; cbn [matchLoop].
  - discriminate.
  - destruct (GoStrings.Contains _ _); [|apply IH].
    destruct (url.Parse _); [| |discriminate];
      (unfold bind at 1; rewrite log_run; apply IH).
Qed.

(** The outcome of a run whose read failed with [e]: that error, or no
    answer. *)
Definition readFailure (e : error) (o : Outcome (result (list string)))
  : Prop :=
  o = Done (Err (wrapError "error reading discovery response: " e))
  \/ o = NoAnswer.

(** After a read error other than the deadline the loop returns that error,
    whatever it had collected. *)
Lemma readLoop_failed (msgID : string) (e : error) (reads : list Packet) :
  forall ts st,
    readFailure e (fst (readLoop msgID reads (ReadFailed e) ts st)).
Proof.
  induction reads as [|pkt reads IH]; intros ts st; cbn [readLoop].
  - left. reflexivity.
  - unfold bind at 1. rewrite log_run.
    destruct (Unmarshal pkt) as [resp|err].
    + destruct (negb _).
      * unfold bind at 1. rewrite log_run. apply IH.
      * unfold bind at 1.
        destruct (matchLoop _ _ _ _) as [[ts1|v|] st1] eqn:Hm.
        -- apply IH.
        -- by apply matchLoop_no_panic in Hm.
        -- right. reflexivity.
    + unfold bind at 1. rewrite log_run. apply IH.
Qed.

(** X5. When a read fails for a reason other than the deadline, the discovery
    run returns that error and none of the endpoints collected from the
    responses read before it (unless the run met an address this development
    gives no answer for). *)
Theorem read_failure_discards_matches
        (w : World) (ifaceName : string) (st : St) (e : error) :
  probeWritten (net_Socket w ifaceName) = true ->
  SetReadDeadline (net_Socket w ifaceName) = None ->
  ReadFromEnd (net_Socket w ifaceName) = ReadFailed e ->
  fst (GetONVIFVideoTransmitters w ifaceName st)
  = Done (Err (wrapError "error reading discovery response: " e))
  \/ fst (GetONVIFVideoTransmitters w ifaceName st) = NoAnswer.
Proof.
  intros Hw Hd He.
  change (readFailure e (fst (GetONVIFVideoTransmitters w ifaceName st))).
  revert Hw. unfold GetONVIFVideoTransmitters, probeWritten.
  unfold bind at 1. cbn [next].
  destruct (ListenPacket _); [discriminate|].
  destruct (InterfaceByName _); [discriminate|].
  destruct (JoinGroup _); [discriminate|].
  destruct (SetMulticastInterface _); [discriminate|].
  destruct (WriteTo _); [discriminate|].
  intros _. rewrite Hd, He. unfold bind at 1. cbn [emit].
  apply readLoop_failed.
Qed.

Lemma read_failure_discards_matches_witness :
  fst (GetONVIFVideoTransmitters MoreExamples.brokenLan "eth0" Examples.st0)
  = Done (Err (wrapError "error reading discovery response: "
                         (errorString "network is down")))
  \/ fst (GetONVIFVideoTransmitters MoreExamples.brokenLan "eth0" Examples.st0)
     = NoAnswer.
Proof.
  apply (read_failure_discards_matches MoreExamples.brokenLan "eth0"
                                       Examples.st0).
  - reflexivity.
  - reflexivity.
  - reflexivity.
Defined.

End SocketMore.

(** * More on package onvif: the handshake *)
Module DeviceMore.
Import onvif Effects DeviceSpec.

#[local] Arguments envelopeOf : simpl never.
#[local] Arguments securityHeader : simpl never.
#[local] Arguments time.FormatRFC3339Nano : simpl never.
#[local] Arguments Quote : simpl never.
#[local] Arguments Itoa : simpl never.
#[local] Arguments String.append : simpl never.
#[local] Arguments GoStrings.ReplaceAll : simpl never.

(** A request is a success only on status 200 with a body that decodes. *)
Lemma verdict_Ok {R} (url : string) (ex : Exchange R) (r : R) :
  verdict url ex = Ok r -> ex = Response 200 (Ok r).
Proof.
  destruct ex as [err|status [r'|err]]; cbn [verdict]; try discriminate;
    destruct (Z.eqb_spec status 200) as [->|]; cbn [negb]; try discriminate.
  intros H. inversion H. reflexivity.
Qed.

(** What a successful [makeRequest] returned is what the world answered to
    the POST it sent. *)
Lemma makeRequest_Ok_answer (w : World) (d : Device) (s : Shape)
      (url body : string) (st st' : St) tr (r : shapeT s) :
  makeRequest w d s url body st = (Done (tr, Ok r), st') ->
  httpx_DoTrace w (tick (afterAuth d st)) url
                (envelopeOf (fst (authOf w d st)) body) s
  = Response 200 (Ok r).
Proof.
  rewrite makeRequest_spec. destruct (httpx_NewRequest w url); [discriminate|].
  intros H. injection H as _ Hv _. by apply verdict_Ok in Hv.
Qed.

(** X6. [Probe] returns without an error only for a recognised device: the flag
    is then true, the device holds capabilities with a media address, and
    the clock offset was assigned.  The caller's branch for a run that is
    neither an error nor valid is never taken. *)
Theorem Probe_success_is_valid
        (w : World) (d d' : Device) (st st' : St) (valid : bool) :
  Probe w d st = (Done (d', (valid, None)), st') ->
  valid = true
  /\ url.isEmpty (Media_Address (Capabilities_ d')) = false
  /\ exists now deviceTime,
      EvSetClockOffset now deviceTime (ClockOffset d') ∈ trace st'.
Proof.
  unfold Probe. intros H.
  apply bind_inv_Done in H as ([caps|err] & st1 & _ & H); [|discriminate H].
  destruct (url.isEmpty (Media_Address caps)) eqn:Hm; [discriminate H|].
  apply bind_inv_Done in H as ([t|err] & st2 & _ & H); [|discriminate H].
  apply bind_inv_Done in H as (i & st3 & Hi & H).
  inversion Hi; subst i st3; clear Hi.
  apply bind_inv_Done in H as (? & st3 & He & H).
  inversion He; subst st3; clear He.
  match type of H with
  | context [GetDeviceInformation w ?d2] =>
      pose proof (GetDeviceInformation_stamped w d2) as Hinfo
  end.
  apply bind_inv_Done in H as ([info|err] & st4 & Hi & H); [|discriminate H].
  specialize (Hinfo (mkSt (S (tick st2))
                          (trace st2 ++
                             [EvSetClockOffset (time_Now w (tick st2)) t
                                (time.neg (time.Since (time_Now w (tick st2)) t))]))).
  rewrite Hi in Hinfo. destruct Hinfo as (evs1 & Ht1 & _).
  match type of H with
  | context [GetProfiles w ?d3] =>
      pose proof (GetProfiles_stamped w d3 st4) as Hprof
  end.
  apply bind_inv_Done in H as ([profiles|err] & st5 & Hp & H);
    [|discriminate H].
  rewrite Hp in Hprof. destruct Hprof as (evs2 & Ht2 & _).
  inversion H; subst. split; [done|]. split; [exact Hm|].
  eexists _, _. cbn [snd trace] in *. rewrite Ht2, Ht1.
  cbn [ClockOffset withProfiles withDeviceInformation withClockOffset].
  rewrite !elem_of_app. left. left. right. left.
Qed.

Lemma Probe_success_is_valid_witness :
  true = true
  /\ url.isEmpty (Media_Address (Capabilities_ MoreExamples.probed)) = false
  /\ exists now deviceTime,
      EvSetClockOffset now deviceTime (ClockOffset MoreExamples.probed)
      ∈ trace (snd (Probe Examples.lan (Examples.device "" "") Examples.st0)).
Proof.
  apply (Probe_success_is_valid
           Examples.lan (Examples.device "" "") MoreExamples.probed
           Examples.st0
           (snd (Probe Examples.lan (Examples.device "" "") Examples.st0))
           true).
  vm_compute. reflexivity.
Defined.

(** X7. [Probe] never touches the address, the credentials or the media
    profiles of the device; and when it reports the candidate as not
    recognised it has also left the clock offset, the device information and
    the profiles as they were. *)
Theorem Probe_keeps_identity
        (w : World) (d d' : Device) (st st' : St) (valid : bool)
        (err : option error) :
  Probe w d st = (Done (d', (valid, err)), st') ->
  Address d' = Address d /\ Username d' = Username d
  /\ Password d' = Password d /\ MediaProfiles d' = MediaProfiles d
  /\ (valid = false ->
      ClockOffset d' = ClockOffset d
      /\ DeviceInformation_ d' = DeviceInformation_ d
      /\ Profiles d' = Profiles d).
Proof.
  unfold Probe. intros H.
  apply bind_inv_Done in H as ([caps|e] & st1 & _ & H);
    [|inversion H; subst; auto 10].
  destruct (url.isEmpty (Media_Address caps)); [inversion H; subst; auto 10|].
  apply bind_inv_Done in H as ([t|e] & st2 & _ & H);
    [|inversion H; subst; cbn; auto 10].
  apply bind_inv_Done in H as (i & st3 & _ & H).
  apply bind_inv_Done in H as (? & st4 & _ & H).
  apply bind_inv_Done in H as ([info|e] & st5 & _ & H);
    [|inversion H; subst; cbn; repeat split; discriminate].
  apply bind_inv_Done in H as ([profiles|e] & st6 & _ & H);
    inversion H; subst; cbn; repeat split; discriminate.
Qed.

Lemma Probe_keeps_identity_witness :
  let d := Examples.device "admin" "secret" in
  let d' := MoreExamples.deviceOf (Probe Examples.lanNoClock d Examples.st0) d in
  Address d' = Address d /\ Username d' = Username d
  /\ Password d' = Password d /\ MediaProfiles d' = MediaProfiles d
  /\ (false = false ->
      ClockOffset d' = ClockOffset d
      /\ DeviceInformation_ d' = DeviceInformation_ d
      /\ Profiles d' = Profiles d).
Proof.
  intros d d'.
  apply (Probe_keeps_identity
           Examples.lanNoClock d d' Examples.st0
           (snd (Probe Examples.lanNoClock d Examples.st0)) false
           (Some (wrapError "failed to get system date and time: "
                    (wrapError
                       ("failed to make request to URL "
                        +:+ Quote "http://10.0.0.5:80/onvif/device_service"
                        +:+ ": ")
                       (errorString "request timed out"))))).
  vm_compute. reflexivity.
Defined.

(** A POST goes to one of the addresses [l]. *)
Definition postsTo (l : list string) (ev : Event) : Prop :=
  match ev with
  | EvPost url _ _ => url ∈ l
  | _ => True
  end.

Lemma makeRequest_postsTo w d s url body l :
  url ∈ l -> emits (postsTo l) (makeRequest w d s url body).
Proof. intros Hin. apply makeRequest_emits; [intros; exact Hin | exact I]. Qed.

Lemma resolveURIs_postsTo w d profiles l :
  Media_Address (Capabilities_ d) ∈ l ->
  emits (postsTo l) (resolveURIs w d profiles).
Proof.
  intros Hin. induction profiles as [|p ps IH]; cbn [resolveURIs].
  - apply emits_ret.
  - apply emits_bind; [by apply makeRequest_postsTo|]. intros [tr [uri|err]].
    + apply emits_bind; [exact IH|]. intros [rest|err]; apply emits_ret.
    + apply emits_ret.
Qed.

(** X8. The addresses a handshake talks to: before the capabilities are known,
    only the candidate address; afterwards, the candidate address (clock,
    identity) and the media address the device advertised (profiles and
    stream URIs), used as advertised. *)
Theorem Probe_contacts (w : World) (d : Device) (st : St) :
  exists evs,
    trace (snd (Probe w d st)) = trace st ++ evs
    /\ Forall (fun ev =>
                 match ev with
                 | EvPost url _ _ =>
                     url = Address d
                     \/ exists k envelope caps,
                         httpx_DoTrace w k (Address d) envelope SCapabilities
                         = Response 200 (Ok caps)
                         /\ url = Media_Address caps
                 | _ => True
                 end) evs.
Proof.
  set (P := fun ev => match ev with
                      | EvPost url _ _ =>
                          url = Address d
                          \/ exists k envelope caps,
                              httpx_DoTrace w k (Address d) envelope
                                            SCapabilities
                              = Response 200 (Ok caps)
                              /\ url = Media_Address caps
                      | _ => True
                      end).
  assert (Hhere : forall l, (forall u, u ∈ l -> P (EvPost u "" None)) ->
                            forall ev, postsTo l ev -> P ev).
  { intros l Hl [| url env a | | | |]; cbn; auto. intros Hin. apply (Hl url Hin). }
  assert (Hfirst : emits (postsTo [Address d]) (GetCapabilities w d)).
  { unfold GetCapabilities. apply emits_bind.
    - apply makeRequest_postsTo. by left.
    - intros [tr [caps|err]]; repeat emits_step. }
  destruct (Hfirst st) as (evs1 & Ht1 & Hp1).
  assert (Hp1' : Forall P evs1).
  { eapply Forall_impl; [exact Hp1|]. apply Hhere.
    intros u Hu. apply list_elem_of_singleton in Hu as ->. by left. }
  unfold Probe. unfold bind at 1.
  destruct (GetCapabilities w d st) as [[[caps|err]|v|] st1] eqn:Hcaps;
    cbn [snd] in Ht1; try (exists evs1; split; [exact Ht1 | exact Hp1']).
  destruct (url.isEmpty (Media_Address caps));
    [exists evs1; split; [exact Ht1 | exact Hp1']|].
  (* the capabilities are what the world answered at the candidate address *)
  assert (Hans : exists k envelope,
             httpx_DoTrace w k (Address d) envelope SCapabilities
             = Response 200 (Ok caps)).
  { revert Hcaps. unfold GetCapabilities. intros Hc.
    apply bind_inv_Done in Hc as ([tr [c|e]] & st0 & Hm & Hc).
    - apply makeRequest_Ok_answer in Hm.
      apply bind_inv_Done in Hc as (? & ? & _ & Hc). inversion Hc; subst.
      eauto.
    - discriminate Hc. }
  destruct Hans as (k & envelope & Hans).
  set (l := [Address d; Media_Address caps]).
  assert (Hl : forall ev, postsTo l ev -> P ev).
  { apply Hhere. intros u Hu. subst l.
    apply elem_of_cons in Hu as [->|Hu]; [by left|].
    apply list_elem_of_singleton in Hu as ->. right. eauto. }
  match goal with
  | |- context [trace (snd (?m st1))] =>
      assert (Hrest : emits (postsTo l) m)
  end.
  { apply emits_bind.
    - unfold GetSystemDateAndTime. apply emits_bind.
      + apply makeRequest_postsTo. by left.
      + intros [tr [dt|err]]; repeat emits_step.
    - intros [t|err]; [|apply emits_ret].
      apply emits_bind; [apply emits_next|]. intros i.
      apply emits_bind; [by apply emits_emit|]. intros _.
      apply emits_bind.
      + unfold GetDeviceInformation. apply emits_bind.
        * apply makeRequest_postsTo. by left.
        * intros [tr [info|err]]; repeat emits_step.
      + intros [info|err]; [|apply emits_ret].
        apply emits_bind; [|intros [ps|err]; apply emits_ret].
        unfold GetProfiles. apply emits_bind.
        * apply makeRequest_postsTo. cbn. right. by left.
        * intros [tr [resp|err]]; [|apply emits_ret].
          apply emits_bind.
          -- apply resolveURIs_postsTo. cbn. right. by left.
          -- intros [ps|err]; repeat emits_step. }
  destruct (Hrest st1) as (evs2 & Ht2 & Hp2).
  exists (evs1 ++ evs2). rewrite Ht2, Ht1, app_assoc. split; [done|].
  apply Forall_app. split; [exact Hp1'|].
  eapply Forall_impl; [exact Hp2 | exact Hl].
Qed.

(** One profile of the response and the profile [GetProfiles] returns for it:
    the same token, name, bounds and streams, with the URI the device
    returned for the stream request that carries the token. *)
Definition resolved (w : World) (d : Device) (r p : Profile) : Prop :=
  Token p = Token r /\ Name p = Name r
  /\ Bounds_Width p = Bounds_Width r /\ Bounds_Height p = Bounds_Height r
  /\ Streams p = Streams r
  /\ exists k header uri,
      httpx_DoTrace w k (Media_Address (Capabilities_ d))
        (envelopeOf header
           (GoStrings.ReplaceAll getStreamUriBody "{{token}}" (Token r)))
        SStreamUri
      = Response 200 (Ok uri)
      /\ URI p = MediaURI_URI uri.

Lemma resolveURIs_resolved (w : World) (d : Device) (profiles : list Profile) :
  forall st ps st',
    resolveURIs w d profiles st = (Done (Ok ps), st') ->
    Forall2 (resolved w d) profiles ps.
Proof.
  induction profiles as [|r rs IH]; intros st ps st' H; cbn [resolveURIs] in H.
  - inversion H. constructor.
  - apply bind_inv_Done in H as ([tr [uri|err]] & st1 & Hm & H);
      [|discriminate H].
    apply makeRequest_Ok_answer in Hm.
    apply bind_inv_Done in H as ([rest|err] & st2 & Hr & H); [|discriminate H].
    inversion H; subst. constructor; [|by eapply IH].
    unfold resolved. cbn. repeat split; try done. eauto.
Qed.

(** X9. When [GetProfiles] succeeds, it returns the profiles of the device's
    answer, as many and in the same order, each with its token, name, bounds
    and streams unchanged and with the URI the device returned for the
    stream request carrying that profile's token. *)
Theorem GetProfiles_keeps_order
        (w : World) (d : Device) (st st' : St) (ps : list Profile) :
  GetProfiles w d st = (Done (Ok ps), st') ->
  exists k envelope answer,
    httpx_DoTrace w k (Media_Address (Capabilities_ d)) envelope SProfiles
    = Response 200 (Ok answer)
    /\ Forall2 (resolved w d) answer ps.
Proof.
  unfold GetProfiles. intros H.
  apply bind_inv_Done in H as ([tr [resp|err]] & st1 & Hm & H);
    [|discriminate H].
  apply makeRequest_Ok_answer in Hm.
  apply bind_inv_Done in H as ([ps'|err] & st2 & Hr & H); [|discriminate H].
  apply bind_inv_Done in H as (? & st3 & _ & H). inversion H; subst.
  eexists _, _, resp. split; [exact Hm|]. by eapply resolveURIs_resolved.
Qed.

Lemma GetProfiles_keeps_order_witness :
  exists k envelope answer,
    httpx_DoTrace (MoreExamples.studio true) k
                  (Media_Address (Capabilities_ MoreExamples.known))
                  envelope SProfiles
    = Response 200 (Ok answer)
    /\ Forall2 (resolved (MoreExamples.studio true) MoreExamples.known) answer
               [withURI (MoreExamples.profile "main" "Main")
                        "rtsp://10.0.0.5:554/main";
                withURI (MoreExamples.profile "sub" "Sub")
                        "rtsp://10.0.0.5:554/sub"].
Proof.
  eapply (GetProfiles_keeps_order (MoreExamples.studio true) MoreExamples.known
                                  Examples.st0).
  vm_compute. reflexivity.
Defined.

Lemma resolveURIs_app (w : World) (d : Device) (pre rest : list Profile) :
  forall st pre' st1,
    resolveURIs w d pre st = (Done (Ok pre'), st1) ->
    resolveURIs w d (pre ++ rest) st
    = (do r <- resolveURIs w d rest ;;
       match r with
       | Err err => ret (Err err)
       | Ok rest' => ret (Ok (pre' ++ rest'))
       end) st1.
Proof.
  induction pre as [|p pre IH]; intros st pre' st1 H;
    cbn [resolveURIs app] in *.
  - inversion H; subst. unfold bind.
    destruct (resolveURIs w d rest st1) as [[[r|e]|v|] st2]; reflexivity.
  - apply bind_inv_Done in H as ([tr [uri|err]] & st2 & Hm & H);
      [|discriminate H].
    apply bind_inv_Done in H as ([ps|err] & st3 & Hr & H); [|discriminate H].
    inversion H; subst. rewrite (bind_Done _ _ _ _ _ Hm).
    unfold bind at 1. rewrite (IH _ _ _ Hr). unfold bind.
    destruct (resolveURIs w d rest st1) as [[[r|e]|v|] st4]; reflexivity.
Qed.

(** X10. A failure to resolve the stream URI of one profile ends [GetProfiles]'
    loop there: the error of that request is returned, no request is sent
    for the profiles that follow, and the URIs already resolved are not
    returned. *)
Theorem stream_uri_failure_stops
        (w : World) (d : Device) (pre post : list Profile) (p : Profile)
        (st st1 st2 : St) (pre' : list Profile) tr (e : error) :
  resolveURIs w d pre st = (Done (Ok pre'), st1) ->
  makeRequest w d SStreamUri (Media_Address (Capabilities_ d))
              (GoStrings.ReplaceAll getStreamUriBody "{{token}}" (Token p)) st1
  = (Done (tr, Err e), st2) ->
  resolveURIs w d (pre ++ p :: post) st = (Done (Err e), st2).
Proof.
  intros Hpre Hreq. rewrite (resolveURIs_app _ _ _ _ _ _ _ Hpre).
  unfold bind at 1. cbn [resolveURIs]. rewrite (bind_Done _ _ _ _ _ Hreq).
  reflexivity.
Qed.

Lemma stream_uri_failure_stops_witness :
  resolveURIs (MoreExamples.studio false) MoreExamples.known
              ([MoreExamples.profile "main" "Main"]
               ++ MoreExamples.profile "sub" "Sub"
               :: [MoreExamples.profile "third" "Third"])
              Examples.st0
  = (Done (Err (errorString
                  ("non 200 status " +:+ Itoa 500 +:+ " for "
                   +:+ Quote "http://10.0.0.5/onvif/media_service"))),
     snd (makeRequest (MoreExamples.studio false) MoreExamples.known SStreamUri
            (Media_Address (Capabilities_ MoreExamples.known))
            (GoStrings.ReplaceAll getStreamUriBody "{{token}}" "sub")
            (snd (resolveURIs (MoreExamples.studio false) MoreExamples.known
                              [MoreExamples.profile "main" "Main"]
                              Examples.st0)))).
Proof.
  eapply (stream_uri_failure_stops
            (MoreExamples.studio false) MoreExamples.known
            [MoreExamples.profile "main" "Main"] _
            (MoreExamples.profile "sub" "Sub") Examples.st0).
  - vm_compute. reflexivity.
  - vm_compute. reflexivity.
Defined.

End DeviceMore.

(** ** More about package scan *)
Module ScanMore.
Import scan Effects ScanSpec.

(** The addresses dialled, in the order of the trace. *)
Definition dials (evs : list Event) : list string :=
  omap (fun ev => match ev with EvDial c => Some c | _ => None end) evs.

Lemma dials_app (a b : list Event) : dials (a ++ b) = dials a ++ dials b.
Proof. unfold dials. induction a as [|[] a IH]; cbn; by rewrite ?IH. Qed.

Lemma dials_logs (evs : list Event) :
  Forall SocketMore.isLog evs -> dials evs = [].
Proof.
  induction 1 as [|ev evs Hev _ IH]; [done|].
  destruct ev; try done; exact IH.
Qed.

Lemma gatherCandidates_logs (fuel : nat) (port : Z)
      (ifaces : list (network.IFace * network.CIDR)) :
  forall candidates,
    emits SocketMore.isLog (gatherCandidates fuel ifaces port candidates).
Proof.
  induction ifaces as [|[iface cidr] rest IH]; intros candidates;
    cbn [gatherCandidates].
  - apply emits_ret.
  - destruct (network.GetIPsOnNetwork fuel cidr) as [[ips|err]|];
      [|apply emits_ret|apply emits_noAnswer].
    destruct (_ <=? _)%nat;
      (apply emits_bind; [by apply emits_log | intros _; apply IH]).
Qed.

Lemma dialAll_dials (w : World) (candidates : list string) :
  forall caught keepers st,
    dials (trace (snd (dialAll w candidates caught keepers st)))
    = dials (trace st) ++ candidates.
Proof.
  induction candidates as [|c rest IH]; intros caught keepers st;
    cbn [dialAll].
  - cbn. by rewrite app_nil_r.
  - unfold bind at 1. cbn [emit].
    destruct (network.IsPortOpen c (DialTimeout w c)) as [open [err|]].
    + rewrite (bind_Done _ _ _ _ _ (log_run _ _ _ _)), IH. cbn [trace].
      rewrite !dials_app. cbn. by rewrite app_nil_r, <- app_assoc.
    + destruct open.
      * rewrite (bind_Done _ _ _ _ _ (log_run _ _ _ _)), IH. cbn [trace].
        rewrite !dials_app. cbn. by rewrite app_nil_r, <- app_assoc.
      * rewrite IH. cbn [trace]. rewrite dials_app. cbn.
        by rewrite <- app_assoc.
Qed.

(** X11. Once the candidate set is built, [FindHostsWithOpenPort] dials every
    candidate address exactly once and nothing else, also when a task panics
    and also for an address that two interfaces share. *)
Theorem every_candidate_dialled_once
        (fuel : nat) (w : World)
        (ifaces : list (network.IFace * network.CIDR)) (port : Z)
        (st st1 : St) (candidates : gset string) :
  gatherCandidates fuel ifaces port ∅ st = (Done (Ok candidates), st1) ->
  exists dialled,
    dials (trace (snd (FindHostsWithOpenPort fuel w ifaces port st)))
    = dials (trace st) ++ dialled
    /\ NoDup dialled
    /\ forall c, c ∈ dialled <-> c ∈ candidates.
Proof.
  intros Hg. exists (elements candidates). split; [|split].
  - unfold FindHostsWithOpenPort. rewrite (bind_Done _ _ _ _ _ Hg).
    destruct (gatherCandidates_logs fuel port ifaces ∅ st) as (logs & Ht & Hl).
    rewrite Hg in Ht. cbn [snd] in Ht.
    pose proof (dialAll_dials w (elements candidates) None [] st1) as Hd.
    unfold bind.
    destruct (dialAll w (elements candidates) None [] st1)
      as [[[caught keepers]|v|] st2]; cbn [snd] in Hd |- *;
      [destruct caught|..]; cbn [snd panic ret];
      by rewrite Hd, Ht, dials_app, (dials_logs _ Hl), app_nil_r.
  - apply NoDup_elements.
  - intros c. apply elem_of_elements.
Qed.

Lemma every_candidate_dialled_once_witness :
  exists dialled,
    dials (trace (snd (FindHostsWithOpenPort
                         600 Examples.exhausted
                         [("eth0", "10.0.0.7/30"); ("wlan0", "10.0.0.5/30")]
                         80 Examples.st0)))
    = dials (trace Examples.st0) ++ dialled
    /\ NoDup dialled
    /\ forall c,
        c ∈ dialled
        <-> c ∈ candidatesOf
                  (gatherCandidates
                     600 [("eth0", "10.0.0.7/30"); ("wlan0", "10.0.0.5/30")]
                     80 ∅ Examples.st0).
Proof.
  apply (every_candidate_dialled_once
           600 Examples.exhausted
           [("eth0", "10.0.0.7/30"); ("wlan0", "10.0.0.5/30")] 80 Examples.st0
           (gatherCandidates
              600 [("eth0", "10.0.0.7/30"); ("wlan0", "10.0.0.5/30")] 80 ∅
              Examples.st0).2).
  vm_compute. reflexivity.
Defined.

(** X12. The hosts [FindHostsWithOpenPort] returns are pairwise distinct. *)
Theorem FindHostsWithOpenPort_no_duplicates
        (fuel : nat) (w : World)
        (ifaces : list (network.IFace * network.CIDR)) (port : Z)
        (st st' : St) (keepers : list string) :
  FindHostsWithOpenPort fuel w ifaces port st = (Done (Ok keepers), st') ->
  NoDup keepers.
Proof.
  unfold FindHostsWithOpenPort. intros H.
  apply bind_inv_Done in H as ([candidates|err] & st1 & _ & H);
    [|discriminate H].
  apply bind_inv_Done in H as ([caught ks] & st2 & Hd & H).
  destruct caught; [discriminate H|]. inversion H; subst.
  destruct (dialAll_spec w (elements candidates) None [] st1)
    as (caught' & st3 & Hs & _).
  rewrite Hs in Hd. inversion Hd; subst. cbn [app].
  apply NoDup_filter, NoDup_elements.
Qed.

Lemma FindHostsWithOpenPort_no_duplicates_witness :
  NoDup ["10.0.0.5:80"].
Proof.
  apply (FindHostsWithOpenPort_no_duplicates
           600 Examples.healthy
           [("eth0", "10.0.0.7/30"); ("wlan0", "10.0.0.5/30")] 80 Examples.st0
           (FindHostsWithOpenPort
              600 Examples.healthy
              [("eth0", "10.0.0.7/30"); ("wlan0", "10.0.0.5/30")] 80
              Examples.st0).2).
  vm_compute. reflexivity.
Defined.

Lemma gatherCandidates_expanded (fuel : nat) (port : Z)
      (ifaces : list (network.IFace * network.CIDR)) :
  forall candidates st result st1,
    gatherCandidates fuel ifaces port candidates st = (Done (Ok result), st1) ->
    Forall (fun ic => exists ips,
                network.GetIPsOnNetwork fuel ic.2 = Some (Ok ips)) ifaces.
Proof.
  induction ifaces as [|[iface cidr] rest IH]; intros candidates st result st1 H;
    [constructor|].
  cbn [gatherCandidates] in H.
  destruct (network.GetIPsOnNetwork fuel cidr) as [[ips|err]|] eqn:Hips;
    [|discriminate H..].
  constructor; [by exists ips|].
  destruct (_ <=? _)%nat;
    apply bind_inv_Done in H as (? & ? & _ & H); by eapply IH.
Qed.

(** X13. The candidate set does not depend on the order in which the interfaces
    are visited (the order of Go's map iteration, which the runtime picks). *)
Theorem candidates_independent_of_interface_order
        (fuel : nat) (port : Z)
        (ifaces ifaces' : list (network.IFace * network.CIDR))
        (st st' st1 st1' : St) (candidates candidates' : gset string) :
  ifaces ≡ₚ ifaces' ->
  gatherCandidates fuel ifaces port ∅ st = (Done (Ok candidates), st1) ->
  gatherCandidates fuel ifaces' port ∅ st' = (Done (Ok candidates'), st1') ->
  candidates = candidates'.
Proof.
  intros Hp H H'.
  destruct (gatherCandidates_spec fuel port ifaces
              (gatherCandidates_expanded _ _ _ _ _ _ _ H) ∅ st)
    as (r & s & Hr & Hc).
  destruct (gatherCandidates_spec fuel port ifaces'
              (gatherCandidates_expanded _ _ _ _ _ _ _ H') ∅ st')
    as (r' & s' & Hr' & Hc').
  rewrite H in Hr. rewrite H' in Hr'. inversion Hr; inversion Hr'; subst.
  apply set_eq. intros c. rewrite Hc, Hc'.
  assert (Hf : fromSmallPrefix fuel ifaces port c
               <-> fromSmallPrefix fuel ifaces' port c).
  { unfold fromSmallPrefix.
    split; intros (iface & cidr & ips & ip & Hin & Hrest);
      exists iface, cidr, ips, ip; (split; [|exact Hrest]).
    - by rewrite <- Hp.
    - by rewrite Hp. }
  by rewrite Hf.
Qed.

Lemma candidates_independent_of_interface_order_witness :
  candidatesOf (gatherCandidates
                  600 [("eth0", "10.0.0.7/30"); ("wlan0", "192.168.1.9/29")]
                  80 ∅ Examples.st0)
  = candidatesOf (gatherCandidates
                    600 [("wlan0", "192.168.1.9/29"); ("eth0", "10.0.0.7/30")]
                    80 ∅ Examples.st0).
Proof.
  apply (candidates_independent_of_interface_order
           600 80
           [("eth0", "10.0.0.7/30"); ("wlan0", "192.168.1.9/29")]
           [("wlan0", "192.168.1.9/29"); ("eth0", "10.0.0.7/30")]
           Examples.st0 Examples.st0
           (gatherCandidates
              600 [("eth0", "10.0.0.7/30"); ("wlan0", "192.168.1.9/29")]
              80 ∅ Examples.st0).2
           (gatherCandidates
              600 [("wlan0", "192.168.1.9/29"); ("eth0", "10.0.0.7/30")]
              80 ∅ Examples.st0).2).
  - apply Permutation_swap.
  - vm_compute. reflexivity.
  - vm_compute. reflexivity.
Defined.

Lemma gatherCandidates_app (fuel : nat) (port : Z)
      (pre rest : list (network.IFace * network.CIDR)) :
  forall candidates st candidates1 st1,
    gatherCandidates fuel pre port candidates st
    = (Done (Ok candidates1), st1) ->
    gatherCandidates fuel (pre ++ rest) port candidates st
    = gatherCandidates fuel rest port candidates1 st1.
Proof.
  induction pre as [|[iface cidr] pre IH]; intros candidates st c1 st1 H;
    cbn [gatherCandidates app] in *.
  - by inversion H.
  - destruct (network.GetIPsOnNetwork fuel cidr) as [[ips|err]|];
      [|discriminate H..].
    destruct (_ <=? _)%nat;
      apply bind_inv_Done in H as ([] & st2 & Hl & H);
      rewrite (bind_Done _ _ _ _ _ Hl); by apply IH.
Qed.

(** X14. An interface whose network cannot be expanded ends
    [FindHostsWithOpenPort] with that error, named after the interface, and
    without a single connection attempt: the addresses gathered from the
    interfaces visited before are dropped. *)
Theorem bad_cidr_stops_port_scan
        (fuel : nat) (w : World)
        (pre post : list (network.IFace * network.CIDR))
        (iface : network.IFace) (cidr : network.CIDR) (port : Z)
        (st : St) (err : error) :
  Forall (fun ic => exists ips,
              network.GetIPsOnNetwork fuel ic.2 = Some (Ok ips)) pre ->
  network.GetIPsOnNetwork fuel cidr = Some (Err err) ->
  exists st' logs,
    FindHostsWithOpenPort fuel w (pre ++ (iface, cidr) :: post) port st
    = (Done (Err (wrapError ("error getting IPs for interface "
                             +:+ Quote iface +:+ ": ") err)), st')
    /\ trace st' = trace st ++ logs
    /\ Forall SocketMore.isLog logs.
Proof.
  intros Hpre Hbad.
  destruct (gatherCandidates_spec fuel port pre Hpre ∅ st)
    as (c1 & st1 & Hg & _).
  destruct (gatherCandidates_logs fuel port pre ∅ st) as (logs & Ht & Hl).
  rewrite Hg in Ht. cbn [snd] in Ht.
  exists st1, logs. split; [|by split].
  unfold FindHostsWithOpenPort. unfold bind.
  rewrite (gatherCandidates_app _ _ _ _ _ _ _ _ Hg).
  cbn [gatherCandidates]. by rewrite Hbad.
Qed.

Lemma bad_cidr_stops_port_scan_witness :
  exists st' logs,
    FindHostsWithOpenPort
      600 Examples.healthy
      ([("eth0", "10.0.0.7/30")] ++ ("eth1", "10.1.0.0/33") :: []) 80
      Examples.st0
    = (Done (Err (wrapError
                    ("error getting IPs for interface " +:+ Quote "eth1"
                     +:+ ": ")
                    (wrapError ("invalid cidr: " +:+ Quote "10.1.0.0/33"
                                +:+ ": ")
                               (errorString "netip.ParsePrefix")))), st')
    /\ trace st' = trace Examples.st0 ++ logs
    /\ Forall SocketMore.isLog logs.
Proof.
  apply (bad_cidr_stops_port_scan
           600 Examples.healthy [("eth0", "10.0.0.7/30")] [] "eth1"
           "10.1.0.0/33" 80 Examples.st0).
  - repeat constructor. eexists. vm_compute. reflexivity.
  - vm_compute. reflexivity.
Defined.

(** ** The loop over the candidates *)

Lemma bind_ext {A B} (m : M A) (k1 k2 : A -> M B) (st : St) :
  (forall a st1, k1 a st1 = k2 a st1) -> bind m k1 st = bind m k2 st.
Proof. intros Hk. unfold bind. destruct (m st) as [[a|v|] st1]; auto. Qed.

Lemma probeAll_cons_eq (w : World) (username password : string)
      (a : string) (l1 l2 : list string) (seen : gset string) :
  (a ∈ seen ->
   forall st, probeAll w username password l1 seen st
              = probeAll w username password l2 seen st) ->
  (forall st, probeAll w username password l1 ({[ a ]} ∪ seen) st
              = probeAll w username password l2 ({[ a ]} ∪ seen) st) ->
  forall st, probeAll w username password (a :: l1) seen st
             = probeAll w username password (a :: l2) seen st.
Proof.
  intros Hseen Hnew st. cbn [probeAll].
  destruct (decide (a ∈ seen)); [by apply Hseen|].
  apply bind_ext. intros [d' [valid [err|]]] st1.
  - apply bind_ext. intros _ st2. apply Hnew.
  - destruct (negb valid).
    + apply bind_ext. intros _ st2. apply Hnew.
    + apply bind_ext. intros profiles st2.
      apply bind_ext. intros _ st3. apply Hnew.
Qed.

Lemma probeAll_seen (w : World) (username password : string)
      (c : string) (post : list string) :
  forall mid seen st,
    c ∈ seen ->
    probeAll w username password (mid ++ c :: post) seen st
    = probeAll w username password (mid ++ post) seen st.
Proof.
  induction mid as [|a mid IH]; intros seen st Hc; cbn [app].
  - cbn [probeAll]. by destruct (decide (c ∈ seen)).
  - apply probeAll_cons_eq; intros; apply IH; set_solver.
Qed.

(** X15. A candidate address that occurs a second time in the list (found by
    discovery on two interfaces, or by discovery and by the port scan) is
    skipped: the loop does exactly what it does on the list without the
    second occurrence. *)
Theorem repeated_candidate_probed_once
        (w : World) (username password : string) (c : string)
        (pre mid post : list string) (seen : gset string) (st : St) :
  probeAll w username password (pre ++ c :: mid ++ c :: post) seen st
  = probeAll w username password (pre ++ c :: mid ++ post) seen st.
Proof.
  revert seen st. induction pre as [|a pre IH]; intros seen st; cbn [app].
  - apply probeAll_cons_eq; intros; apply probeAll_seen; set_solver.
  - apply probeAll_cons_eq; intros; apply IH.
Qed.

(** The URL handed to ffprobe: the stream URI with the credentials of the
    device put in when it has a user name. *)
Definition withCredentials (d : onvif.Device) (uri : url.URL) : url.URL :=
  if negb (url.isEmpty (onvif.Username d)) then
    url.setUser uri (Some (url.UserPassword (onvif.Username d)
                                            (onvif.Password d)))
  else uri.

(** A profile [r] of the device and what the loop over the profiles leaves in
    its place. *)
Definition streamsProbed (w : World) (d : onvif.Device)
           (r p : onvif.Profile) : Prop :=
  exists uri,
    url.Parse (onvif.URI r) = url.Parsed uri
    /\ p = match ProbeRTSP w (url.String_ (withCredentials d uri)) with
           | Err _ => r
           | Ok streams => onvif.withStreams r streams
           end.

(** X16. The loop over the profiles of a device drops none and reorders none: when
    it ends, every profile is still there, in its place, untouched when
    ffprobe failed on its stream and with only its streams replaced by
    ffprobe's answer otherwise. *)
Theorem probeStreams_keeps_profiles
        (w : World) (d : onvif.Device) (todo : list onvif.Profile) :
  forall (done ps : list onvif.Profile) (st st' : St),
    probeStreams w d done todo st = (Done ps, st') ->
    exists ps',
      ps = done ++ ps' /\ Forall2 (streamsProbed w d) todo ps'.
Proof.
  induction todo as [|r todo IH]; intros done ps st st' H;
    cbn [probeStreams] in H.
  - inversion H; subst. exists []. by rewrite app_nil_r.
  - destruct (url.Parse (onvif.URI r)) as [uri|e|] eqn:Hparse;
      [|discriminate H..].
    apply bind_inv_Done in H as ([] & st1 & _ & H).
    fold (withCredentials d uri) in H.
    destruct (ProbeRTSP w (url.String_ (withCredentials d uri)))
      as [streams|e] eqn:Hprobe;
      apply bind_inv_Done in H as ([] & st2 & _ & H);
      apply IH in H as (ps' & -> & Hall);
      eexists (_ :: ps'); (split; [by rewrite <- app_assoc|]);
      (constructor; [|exact Hall]); exists uri; by rewrite Hprobe.
Qed.

Lemma probeStreams_keeps_profiles_witness :
  exists ps',
    [onvif.withURI (MoreExamples.profile "main" "Main")
                   "rtsp://10.0.0.5:554/main";
     onvif.withURI (MoreExamples.profile "sub" "Sub")
                   "rtsp://10.0.0.5:554/sub"]
    = [] ++ ps'
    /\ Forall2 (streamsProbed Examples.healthy (Examples.device "admin" "pw"))
               [onvif.withURI (MoreExamples.profile "main" "Main")
                              "rtsp://10.0.0.5:554/main";
                onvif.withURI (MoreExamples.profile "sub" "Sub")
                              "rtsp://10.0.0.5:554/sub"]
               ps'.
Proof.
  eapply (probeStreams_keeps_profiles
            Examples.healthy (Examples.device "admin" "pw") _ [] _
            Examples.st0).
  vm_compute. reflexivity.
Defined.

Lemma probeStreams_unparsable
      (w : World) (d : onvif.Device) (q : onvif.Profile)
      (post : list onvif.Profile) (e : error) (pre : list onvif.Profile) :
  url.Parse (onvif.URI q) = url.ParseError e ->
  Forall (fun r => exists uri, url.Parse (onvif.URI r) = url.Parsed uri) pre ->
  forall done st,
  exists st',
    probeStreams w d done (pre ++ q :: post) st = (Panic nilDereference, st').
Proof.
  intros Hq Hpre. induction Hpre as [|r pre [uri Hr] _ IH]; intros done st;
    cbn [probeStreams app].
  - rewrite Hq. by eexists.
  - rewrite Hr. unfold bind at 1. cbn [emit].
    destruct (ProbeRTSP w _);
      rewrite (bind_Done _ _ _ _ _ (log_run _ _ _ _)); apply IH.
Qed.

(** X17. A recognised device one of whose stream URIs [url.Parse] refuses brings
    the whole run down: the parse error is dropped, the nil URL is
    dereferenced, and the loop over the candidates ends in that panic before
    any candidate that follows is looked at. *)
Theorem malformed_stream_uri_crashes_scan
        (w : World) (username password : string) (c : string)
        (rest : list string) (seen : gset string) (st st1 : St)
        (d' : onvif.Device) (pre post : list onvif.Profile)
        (q : onvif.Profile) (e : error) :
  c ∉ seen ->
  onvif.Probe (onvifWorld w) (onvif.NewDevice c username password) st
  = (Done (d', (true, None)), st1) ->
  onvif.Profiles d' = pre ++ q :: post ->
  Forall (fun r => exists uri, url.Parse (onvif.URI r) = url.Parsed uri) pre ->
  url.Parse (onvif.URI q) = url.ParseError e ->
  exists st',
    probeAll w username password (c :: rest) seen st
    = (Panic nilDereference, st').
Proof.
  intros Hc Hprobe Hps Hpre Hq. cbn [probeAll].
  destruct (decide (c ∈ seen)); [done|].
  rewrite (bind_Done _ _ _ _ _ Hprobe). cbn [negb]. rewrite Hps.
  destruct (probeStreams_unparsable w d' q post e pre Hq Hpre [] st1)
    as (st' & Hpanic).
  exists st'. unfold bind. by rewrite Hpanic.
Qed.

Lemma malformed_stream_uri_crashes_scan_witness :
  exists st',
    probeAll MoreExamples.sloppy "" ""
             ("http://10.0.0.5:80/onvif/device_service"
              :: ["http://10.0.0.6:80/onvif/device_service"]) ∅ Examples.st0
    = (Panic nilDereference, st').
Proof.
  eapply (malformed_stream_uri_crashes_scan
            MoreExamples.sloppy "" ""
            "http://10.0.0.5:80/onvif/device_service" _ ∅ Examples.st0 _ _
            [] []
            (onvif.withURI (MoreExamples.profile "main" "Main")
                           " rtsp://10.0.0.5:554/main")).
  - set_solver.
  - vm_compute. reflexivity.
  - vm_compute. reflexivity.
  - constructor.
  - vm_compute. reflexivity.
Defined.

End ScanMore.

(** ** The interface table: [GetPrivateIP4Interfaces] *)
Module HostnetSpec.
Import net hostnet.

(** *** The text of an address and of a prefix length is read back *)

Lemma octet_digits (b : Byte.byte) :
  forall rest first prevDot fields,
    netip.parseIPv4 (Itoa (val b) +:+ rest) first prevDot 0 0 fields
    = netip.parseIPv4 rest false false (val b)
                      (String.length (Itoa (val b))) fields.
Proof. intros rest first prevDot fields. destruct b; reflexivity. Qed.

Lemma octet_nonempty (b : Byte.byte) :
  exists c s, Itoa (val b) = String c s.
Proof. destruct b; by eexists _, _. Qed.

Lemma octet_no_colon (b : Byte.byte) :
  GoStrings.Contains (Itoa (val b)) ":" = false.
Proof. by destruct b. Qed.

Lemma dot_step (b : Byte.byte) (rest : string) (n : Z) (digLen : nat)
      (fields : list Z) :
  (length fields < 3)%nat ->
  netip.parseIPv4 (String "." (Itoa (val b) +:+ rest)) false false n digLen
                  fields
  = netip.parseIPv4 (Itoa (val b) +:+ rest) false true 0 0 (fields ++ [n]).
Proof.
  intros Hlen. destruct (octet_nonempty b) as (c & s & ->).
  change (String c s +:+ rest) with (String c (s +:+ rest)).
  cbn [netip.parseIPv4]. change (netip.isDigit ".") with false.
  cbn [orb Ascii.eqb Bool.eqb andb].
  destruct (length fields =? 3)%nat eqn:E; [|done].
  apply Nat.eqb_eq in E. lia.
Qed.

Lemma append_empty_r (s : string) : s +:+ "" = s.
Proof.
  induction s as [|c s IH]; [done|].
  change (String c s +:+ "") with (String c (s +:+ "")). by rewrite IH.
Qed.

Lemma Contains_char_app (s t : string) (c : ascii) :
  GoStrings.Contains (s +:+ t) (String c "")
  = GoStrings.Contains s (String c "") || GoStrings.Contains t (String c "").
Proof.
  induction s as [|a s IH].
  - change ("" +:+ t) with t. by destruct t.
  - change (String a s +:+ t) with (String a (s +:+ t)).
    cbn [GoStrings.Contains GoStrings.HasPrefix]. rewrite IH.
    replace (GoStrings.HasPrefix (s +:+ t) "") with true by (by destruct (s +:+ t)).
    replace (GoStrings.HasPrefix s "") with true by (by destruct s).
    by rewrite orb_assoc.
Qed.

Lemma Contains_head (c : ascii) (t : string) :
  GoStrings.Contains (String c t) (String c "") = true.
Proof.
  cbn [GoStrings.Contains GoStrings.HasPrefix]. rewrite Ascii.eqb_refl.
  by destruct t.
Qed.

Lemma cutLast_app (s t : string) (c : ascii) :
  GoStrings.cutLast t c = None ->
  GoStrings.cutLast (s +:+ String c t) c = Some (s, t).
Proof.
  intros Ht. induction s as [|a s IH].
  - change ("" +:+ String c t) with (String c t).
    cbn [GoStrings.cutLast]. rewrite Ht. by rewrite Ascii.eqb_refl.
  - change (String a s +:+ String c t) with (String a (s +:+ String c t)).
    cbn [GoStrings.cutLast]. by rewrite IH.
Qed.

Lemma bits_text (bits : Z) :
  0 <= bits <= 32 ->
  GoStrings.cutLast (Itoa bits) "/" = None
  /\ netip.parseBits (Itoa bits) = Some bits
  /\ GoStrings.Contains (Itoa bits) ":" = false.
Proof.
  intros Hb.
  assert (Hn : exists n : nat, (n < 33)%nat /\ bits = Z.of_nat n).
  { exists (Z.to_nat bits). lia. }
  destruct Hn as (n & Hn & ->).
  do 33 (destruct n as [|n]; [by vm_compute|]). lia.
Qed.

(** The number an IPv4 address in four bytes stands for. *)
Definition addr4 (p4 : list Byte.byte) : Z :=
  ((at_ p4 0 * 256 + at_ p4 1) * 256 + at_ p4 2) * 256 + at_ p4 3.

Lemma address_text_parses (b0 b1 b2 b3 : Byte.byte) :
  netip.ParseAddr (Itoa (val b0) +:+ "." +:+ Itoa (val b1) +:+ "."
                   +:+ Itoa (val b2) +:+ "." +:+ Itoa (val b3))
  = Some (addr4 [b0; b1; b2; b3]).
Proof.
  unfold netip.ParseAddr.
  rewrite Contains_char_app.
  repeat match goal with
         | |- context [String ?c EmptyString +:+ ?x] =>
             change (String c EmptyString +:+ x) with (String c x)
         end.
  rewrite Contains_head, orb_true_r.
  rewrite <- (append_empty_r (Itoa (val b3))).
  rewrite octet_digits, dot_step by (cbn; lia).
  rewrite octet_digits, dot_step by (cbn; lia).
  rewrite octet_digits, dot_step by (cbn; lia).
  rewrite octet_digits. reflexivity.
Qed.

(** The text [GetPrivateIP4Interfaces] writes for four address bytes and a
    prefix length up to 32 is a prefix [netip.ParsePrefix] accepts, and it
    reads back the same address and length. *)
Lemma prefix_text_parses (b0 b1 b2 b3 : Byte.byte) (bits : Z) :
  0 <= bits <= 32 ->
  netip.ParsePrefix
    ((Itoa (val b0) +:+ "." +:+ Itoa (val b1) +:+ "."
      +:+ Itoa (val b2) +:+ "." +:+ Itoa (val b3)) +:+ "/" +:+ Itoa bits)
  = netip.Parsed (netip.PrefixFrom (addr4 [b0; b1; b2; b3]) bits).
Proof.
  intros Hb. destruct (bits_text bits Hb) as (Hcut & Hparse & Hcolon).
  unfold netip.ParsePrefix.
  rewrite !Contains_char_app, !octet_no_colon, Hcolon.
  replace (GoStrings.Contains "." ":") with false by reflexivity.
  replace (GoStrings.Contains "/" ":") with false by reflexivity.
  cbn [orb]. unfold netip.parsePrefix.
  change ("/" +:+ Itoa bits) with (String "/" (Itoa bits)).
  rewrite (cutLast_app _ _ _ Hcut), address_text_parses, Hparse.
  destruct (bits <? 0) eqn:E1; [lia|]. destruct (bits >? 32) eqn:E2; [lia|].
  reflexivity.
Qed.

(** *** The length of a mask *)

(** Eight rounds are enough for the loop on a byte: it ends because its
    condition fails. *)
Lemma leadingOnes_ends (b : Byte.byte) (n : Z) :
  Z.land (leadingOnes 8 (val b) n).2 128 = 0.
Proof. by destruct b. Qed.

Lemma leadingOnes_bound (fuel : nat) :
  forall v n, n <= (leadingOnes fuel v n).1 <= n + Z.of_nat fuel.
Proof.
  induction fuel as [|fuel IH]; intros v n; cbn [leadingOnes].
  - cbn. lia.
  - destruct (negb _); [|cbn; lia].
    specialize (IH ((v * 2) mod 256) (n + 1)). lia.
Qed.

Lemma simpleMaskLength_bound (mask : list Byte.byte) :
  forall n r,
    simpleMaskLength mask n = Some r ->
    n <= r <= n + 8 * Z.of_nat (length mask).
Proof.
  induction mask as [|v rest IH]; intros n r H; cbn [simpleMaskLength] in H.
  - inversion H. cbn. lia.
  - cbn [length]. destruct (val v =? 255).
    + apply IH in H. lia.
    + pose proof (leadingOnes_bound 8 (val v) n) as Hb.
      destruct (leadingOnes 8 (val v) n) as [n' v'].
      destruct (negb _); [discriminate H|].
      destruct (isZeros rest); inversion H; subst. cbn [fst] in Hb. lia.
Qed.

Lemma Size_bound (mask : IPMask) :
  0 <= (Size mask).1 <= 8 * Z.of_nat (length mask).
Proof.
  unfold Size.
  destruct (simpleMaskLength mask 0) as [ones|] eqn:H; cbn [fst]; [|lia].
  apply simpleMaskLength_bound in H. lia.
Qed.

Lemma To4_length (ip p4 : IP) : To4 ip = Some p4 -> length p4 = 4%nat.
Proof.
  unfold To4. destruct (length ip =? 4)%nat eqn:E4.
  - intros [= <-]. by apply Nat.eqb_eq.
  - destruct (length ip =? 16)%nat eqn:E16; [|discriminate].
    apply Nat.eqb_eq in E16. cbn [andb].
    destruct (_ && _); [|discriminate]. intros [= <-].
    rewrite length_take, length_drop. lia.
Qed.

(** *** The entries of the table *)

(** The condition under which an address makes the entry of its interface. *)
Definition qualifies (ip : IP) : bool :=
  negb (IsLoopback ip) && bool_decide (is_Some (To4 ip)) && IsPrivate ip.

(** The entry written for address [ip] with mask [ipMask]: the address in
    dotted decimal, and as prefix length the number of leading ones of the
    first four bytes of the mask, or 0 when these are not a run of ones
    followed by zeros. *)
Definition entryOf (ip : IP) (ipMask : IPMask) (cidr : network.CIDR) : Prop :=
  exists p4,
    To4 ip = Some p4
    /\ (4 <= length ipMask)%nat
    /\ 0 <= (Size (take 4 ipMask)).1 <= 32
    /\ cidr = Itoa (at_ p4 0) +:+ "." +:+ Itoa (at_ p4 1) +:+ "."
              +:+ Itoa (at_ p4 2) +:+ "." +:+ Itoa (at_ p4 3)
              +:+ "/" +:+ Itoa (Size (take 4 ipMask)).1
    /\ netip.ParsePrefix cidr
       = netip.Parsed (netip.PrefixFrom (addr4 p4) (Size (take 4 ipMask)).1).

Lemma append_assoc (a b c : string) : (a +:+ b) +:+ c = a +:+ b +:+ c.
Proof.
  induction a as [|x a IH]; [done|].
  change ((String x a +:+ b) +:+ c) with (String x ((a +:+ b) +:+ c)).
  by rewrite IH.
Qed.

Lemma firstPrivate_sound (addrs : list Addr) (cidr : network.CIDR) :
  firstPrivate addrs = Done (Some cidr) ->
  exists ip ipMask,
    IPNet ip ipMask ∈ addrs /\ qualifies ip = true /\ entryOf ip ipMask cidr.
Proof.
  induction addrs as [|[ip ipMask|] rest IH]; intros H; cbn [firstPrivate] in H.
  - discriminate H.
  - fold (qualifies ip) in H. destruct (qualifies ip) eqn:Hq.
    + exists ip, ipMask. split; [by left|]. split; [done|].
      unfold qualifies in Hq. apply andb_true_iff in Hq as [Hq _].
      apply andb_true_iff in Hq as [_ Hq]. apply bool_decide_eq_true in Hq.
      destruct Hq as [p4 Hp4]. unfold String_ in H. rewrite Hp4 in H.
      destruct ipMask as [|m0 [|m1 [|m2 [|m3 ipMask]]]]; try discriminate H.
      injection H as <-. exists p4.
      pose proof (To4_length _ _ Hp4) as Hlen.
      destruct p4 as [|b0 [|b1 [|b2 [|b3 [|]]]]]; try discriminate Hlen.
      pose proof (Size_bound (IPv4Mask m0 m1 m2 m3)) as Hb.
      change (take 4 (m0 :: m1 :: m2 :: m3 :: ipMask))
        with (IPv4Mask m0 m1 m2 m3).
      change (length (IPv4Mask m0 m1 m2 m3)) with 4%nat in Hb.
      cbn [length].
      split; [done|]. split; [lia|]. split; [lia|].
      change (at_ [b0; b1; b2; b3] 0) with (val b0).
      change (at_ [b0; b1; b2; b3] 1) with (val b1).
      change (at_ [b0; b1; b2; b3] 2) with (val b2).
      change (at_ [b0; b1; b2; b3] 3) with (val b3).
      split; [by rewrite !append_assoc|].
      apply prefix_text_parses. lia.
    + destruct (IH H) as (ip' & m' & Hin & Hrest).
      exists ip', m'. split; [by right|done].
  - destruct (IH H) as (ip' & m' & Hin & Hrest).
    exists ip', m'. split; [by right|done].
Qed.

Lemma eachInterface_sound (ifaces : list Interface) :
  forall found0 found name cidr,
    eachInterface ifaces found0 = Done (Ok found) ->
    found !! name = Some cidr ->
    found0 !! name = Some cidr
    \/ exists iface addrs,
        iface ∈ ifaces /\ Name iface = name /\ Addrs iface = Ok addrs
        /\ firstPrivate addrs = Done (Some cidr).
Proof.
  induction ifaces as [|iface rest IH]; intros found0 found name cidr H Hl;
    cbn [eachInterface] in H.
  - inversion H; subst. by left.
  - destruct (Addrs iface) as [addrs|err] eqn:Ha; [|discriminate H].
    destruct (firstPrivate addrs) as [[c|]|v|] eqn:Hf; try discriminate H.
    + destruct (IH _ _ _ _ H Hl) as [Hin|(i & a & Hin & Hrest)].
      * apply lookup_insert_Some in Hin as [[<- <-]|[_ Hin]]; [|by left].
        right. exists iface, addrs. split; [by left|done].
      * right. exists i, a. split; [by right|done].
    + destruct (IH _ _ _ _ H Hl) as [Hin|(i & a & Hin & Hrest)]; [by left|].
      right. exists i, a. split; [by right|done].
Qed.

Lemma table_entry_parses
      (os : list Interface) (found : gmap network.IFace network.CIDR)
      (name : network.IFace) (cidr : network.CIDR) :
  GetPrivateIP4Interfaces (Ok os) = Done (Ok found) ->
  found !! name = Some cidr ->
  exists p, netip.ParsePrefix cidr = netip.Parsed p.
Proof.
  unfold GetPrivateIP4Interfaces. intros H Hl.
  destruct (eachInterface_sound _ _ _ _ _ H Hl)
    as [Hempty|(iface & addrs & Hin & Hname & Ha & Hf)];
    [by rewrite lookup_empty in Hempty|].
  destruct (firstPrivate_sound _ _ Hf)
    as (ip & ipMask & Hip & Hq & p4 & Hp4 & _ & Hb & _ & Hparse).
  by eexists.
Qed.

(** The table a call ended with. *)
Definition tableOf (r : Outcome (result (gmap network.IFace network.CIDR)))
  : gmap network.IFace network.CIDR :=
  match r with
  | Done (Ok found) => found
  | _ => ∅
  end.

(** X18. Every entry of the table [GetPrivateIP4Interfaces] returns belongs to an
    interface of that name one of whose addresses is IPv4, private and not
    loopback; its text is a prefix that [netip.ParsePrefix] accepts, reading
    back that address, with as length the number of leading ones of the first
    four mask bytes (0 when these are not a run of ones followed by zeros),
    which is at most 32. *)
Theorem table_entries_are_private_prefixes
        (os : list Interface) (found : gmap network.IFace network.CIDR)
        (name : network.IFace) (cidr : network.CIDR) :
  GetPrivateIP4Interfaces (Ok os) = Done (Ok found) ->
  found !! name = Some cidr ->
  exists iface addrs ip ipMask p4 bits,
    iface ∈ os /\ Name iface = name /\ Addrs iface = Ok addrs
    /\ IPNet ip ipMask ∈ addrs
    /\ To4 ip = Some p4 /\ IsLoopback ip = false /\ IsPrivate ip = true
    /\ bits = (Size (take 4 ipMask)).1 /\ 0 <= bits <= 32
    /\ netip.ParsePrefix cidr
       = netip.Parsed (netip.PrefixFrom (addr4 p4) bits).
Proof.
  unfold GetPrivateIP4Interfaces. intros H Hl.
  destruct (eachInterface_sound _ _ _ _ _ H Hl)
    as [Hempty|(iface & addrs & Hin & Hname & Ha & Hf)];
    [by rewrite lookup_empty in Hempty|].
  destruct (firstPrivate_sound _ _ Hf)
    as (ip & ipMask & Hip & Hq & p4 & Hp4 & _ & Hb & _ & Hparse).
  unfold qualifies in Hq. apply andb_true_iff in Hq as [Hq Hpriv].
  apply andb_true_iff in Hq as [Hloop _]. apply negb_true_iff in Hloop.
  by exists iface, addrs, ip, ipMask, p4, (Size (take 4 ipMask)).1.
Qed.

Lemma table_entries_are_private_prefixes_witness :
  exists iface addrs ip ipMask p4 bits,
    iface ∈ Hosts.laptop /\ Name iface = "eth0" /\ Addrs iface = Ok addrs
    /\ IPNet ip ipMask ∈ addrs
    /\ To4 ip = Some p4 /\ IsLoopback ip = false /\ IsPrivate ip = true
    /\ bits = (Size (take 4 ipMask)).1 /\ 0 <= bits <= 32
    /\ netip.ParsePrefix "192.168.1.23/24"
       = netip.Parsed (netip.PrefixFrom (addr4 p4) bits).
Proof.
  apply (table_entries_are_private_prefixes
           Hosts.laptop
           (tableOf (GetPrivateIP4Interfaces (Ok Hosts.laptop)))).
  - vm_compute. reflexivity.
  - vm_compute. reflexivity.
Defined.

Lemma firstPrivate_complete (addrs : list Addr) (ip : IP) (ipMask : IPMask)
      (r : option network.CIDR) :
  IPNet ip ipMask ∈ addrs ->
  qualifies ip = true ->
  firstPrivate addrs = Done r ->
  is_Some r.
Proof.
  intros Hin Hq. induction addrs as [|[ip' m'|] rest IH]; intros H;
    cbn [firstPrivate] in H.
  - by apply elem_of_nil in Hin.
  - fold (qualifies ip') in H. destruct (qualifies ip') eqn:Hq'.
    + destruct m' as [|m0 [|m1 [|m2 [|m3 m']]]]; try discriminate H.
      destruct (String_ ip'); [|discriminate H]. inversion H. by eexists.
    + apply elem_of_cons in Hin as [Heq|Hin]; [|by apply IH].
      injection Heq as <- <-. congruence.
  - apply elem_of_cons in Hin as [Heq|Hin]; [discriminate Heq|by apply IH].
Qed.

Lemma eachInterface_keeps (ifaces : list Interface) (name : network.IFace) :
  forall found0 found,
    eachInterface ifaces found0 = Done (Ok found) ->
    is_Some (found0 !! name) ->
    is_Some (found !! name).
Proof.
  induction ifaces as [|iface rest IH]; intros found0 found H Hs;
    cbn [eachInterface] in H.
  - by inversion H; subst.
  - destruct (Addrs iface) as [addrs|err]; [|discriminate H].
    destruct (firstPrivate addrs) as [[c|]|v|]; try discriminate H.
    + apply (IH _ _ H). apply lookup_insert_is_Some.
      destruct (decide (Name iface = name)); auto.
    + by apply (IH _ _ H).
Qed.

Lemma eachInterface_complete (ifaces : list Interface) (iface : Interface)
      (addrs : list Addr) (ip : IP) (ipMask : IPMask) :
  iface ∈ ifaces ->
  Addrs iface = Ok addrs ->
  IPNet ip ipMask ∈ addrs ->
  qualifies ip = true ->
  forall found0 found,
    eachInterface ifaces found0 = Done (Ok found) ->
    is_Some (found !! Name iface).
Proof.
  intros Hin Ha Hip Hq.
  induction ifaces as [|i rest IH]; intros found0 found H;
    [by apply elem_of_nil in Hin|].
  cbn [eachInterface] in H.
  apply elem_of_cons in Hin as [<-|Hin].
  - rewrite Ha in H.
    destruct (firstPrivate addrs) as [r|v|] eqn:Hf; try discriminate H.
    destruct (firstPrivate_complete _ _ _ _ Hip Hq Hf) as [c ->].
    apply (eachInterface_keeps _ _ _ _ H). by rewrite lookup_insert_eq.
  - destruct (Addrs i) as [addrs'|err]; [|discriminate H].
    destruct (firstPrivate addrs') as [[c|]|v|]; try discriminate H;
      by apply (IH Hin _ _ H).
Qed.

(** X19. Conversely, an interface with an address that is IPv4, private and not
    loopback has an entry in the table, whatever else the system reports. *)
Theorem private_interface_is_listed
        (os : list Interface) (found : gmap network.IFace network.CIDR)
        (iface : Interface) (addrs : list Addr) (ip : IP) (ipMask : IPMask) :
  GetPrivateIP4Interfaces (Ok os) = Done (Ok found) ->
  iface ∈ os ->
  Addrs iface = Ok addrs ->
  IPNet ip ipMask ∈ addrs ->
  IsLoopback ip = false ->
  is_Some (To4 ip) ->
  IsPrivate ip = true ->
  is_Some (found !! Name iface).
Proof.
  unfold GetPrivateIP4Interfaces. intros H Hin Ha Hip Hloop H4 Hpriv.
  eapply eachInterface_complete; try done.
  unfold qualifies. rewrite Hloop, Hpriv. by rewrite bool_decide_eq_true_2.
Qed.

Lemma private_interface_is_listed_witness :
  is_Some (tableOf (GetPrivateIP4Interfaces (Ok Hosts.laptop)) !! "eth0").
Proof.
  apply (private_interface_is_listed
           Hosts.laptop
           (tableOf (GetPrivateIP4Interfaces (Ok Hosts.laptop)))
           Hosts.eth0 Hosts.eth0Addrs
           (Hosts.ip4 10 0 0 7) (Hosts.mask4 255 255 255 252)).
  - vm_compute. reflexivity.
  - right. left.
  - reflexivity.
  - do 3 right. left.
  - vm_compute. reflexivity.
  - vm_compute. by eexists.
  - vm_compute. reflexivity.
Defined.

(** *** The table and the port scan *)

Lemma gatherCandidates_Err (fuel : nat) (port : Z)
      (ifaces : list (network.IFace * network.CIDR)) :
  forall candidates st e st',
    scan.gatherCandidates fuel ifaces port candidates st = (Done (Err e), st') ->
    exists iface cidr err,
      (iface, cidr) ∈ ifaces
      /\ network.GetIPsOnNetwork fuel cidr = Some (Err err).
Proof.
  induction ifaces as [|[iface cidr] rest IH]; intros candidates st e st' H;
    cbn [scan.gatherCandidates] in H; [discriminate H|].
  destruct (network.GetIPsOnNetwork fuel cidr) as [[ips|err]|] eqn:Hips;
    [| |discriminate H].
  - assert (Hrest : exists c s,
               scan.gatherCandidates fuel rest port c s = (Done (Err e), st')).
    { destruct (_ <=? _)%nat;
        apply Effects.bind_inv_Done in H as (? & ? & _ & H); eauto. }
    destruct Hrest as (c & s & Hrest).
    destruct (IH _ _ _ _ Hrest) as (i & c' & err & Hin & Herr).
    exists i, c', err. split; [by right|done].
  - exists iface, cidr, err. split; [by left|done].
Qed.

(** X20. Fed with the table of [GetPrivateIP4Interfaces], in whatever order the
    map is visited, the port scan never returns an error: no entry of the
    table is a text that [GetIPsOnNetwork] refuses. *)
Theorem interface_table_never_fails_port_scan
        (os : list Interface) (found : gmap network.IFace network.CIDR)
        (ifaces : list (network.IFace * network.CIDR))
        (fuel : nat) (w : scan.World) (port : Z) (st st' : St) (e : error) :
  GetPrivateIP4Interfaces (Ok os) = Done (Ok found) ->
  ifaces ≡ₚ map_to_list found ->
  scan.FindHostsWithOpenPort fuel w ifaces port st <> (Done (Err e), st').
Proof.
  intros Htable Hperm H. unfold scan.FindHostsWithOpenPort in H.
  apply Effects.bind_inv_Done in H as ([candidates|err] & st1 & Hg & H).
  - apply Effects.bind_inv_Done in H as ([caught keepers] & st2 & _ & H).
    by destruct caught.
  - apply gatherCandidates_Err in Hg as (iface & cidr & err' & Hin & Hips).
    rewrite Hperm in Hin. apply elem_of_map_to_list in Hin.
    destruct (table_entry_parses _ _ _ _ Htable Hin) as (p & Hp).
    unfold network.GetIPsOnNetwork in Hips. rewrite Hp in Hips.
    by destruct (network.collectIPs _ _ _ _).
Qed.

Lemma interface_table_never_fails_port_scan_witness :
  scan.FindHostsWithOpenPort
    600 Examples.healthy
    (map_to_list (tableOf (GetPrivateIP4Interfaces (Ok Hosts.laptop)))) 80
    Examples.st0
  <> (Done (Err (errorString "invalid cidr")), Examples.st0).
Proof.
  apply (interface_table_never_fails_port_scan
           Hosts.laptop
           (tableOf (GetPrivateIP4Interfaces (Ok Hosts.laptop)))).
  - vm_compute. reflexivity.
  - reflexivity.
Defined.

End HostnetSpec.
